(** * Publisher extraction scripts of stablekraft-app

    A shallow embedding of
    [scripts/root-scripts/extract_publishers.py] and
    [scripts/root-scripts/final_publisher_summary.py], and the properties
    of the publisher reconciliation they implement.

    Modelling conventions.
    - The input is the value [json.load] returns: [json] below.  JSON
      numbers are the integers (Python [int]).
    - A [str] is held as the bytes of its UTF-8 encoding, so that
      equality, [in], [split], [replace] and [<] are those of the bytes; a
      surrogate code point, which a JSON escape can put in a [str], is
      held as the three bytes the same scheme gives it.  A slice and a
      [for] count code points.  [str.lower] follows the Unicode tables
      and is a parameter of the second script, [str_lower]; what the
      properties need of it is stated where they need it.
    - Standard output encodes as UTF-8, Python's default, and refuses a
      surrogate with UnicodeEncodeError.  A run that raises is described
      by its exception alone, not by the text printed before it.
    - A Python exception ends the run: computations live in [result],
      whose [Raise] carries the exception class.  [Beyond] marks the
      places where the embedding does not follow Python (the text of a
      formatted list or dict, the ordering of two lists, a dict
      subscripted with a slice): a run that reaches one of them is not
      described.
    - A [dict] is an association list in insertion order, as Python
      iterates it; a [set]'s iteration order is not fixed by Python and
      is a parameter of the second script. *)

From Stdlib Require Import List String Ascii ZArith Bool Lia.
From Stdlib Require Import Permutation Sorted OrderedTypeEx.
From Stdlib Require Import DecimalString.
Import ListNotations.
Local Open Scope string_scope.
Local Open Scope list_scope.

(** ** Values and outcomes *)

#[warnings="-register-all"]
Inductive json : Type :=
| JNull
| JBool (b : bool)
| JNum (z : Z)
| JStr (s : string)
| JArr (items : list json)
| JObj (fields : list (string * json)).

Inductive exn : Type :=
| AttributeError | TypeError | IndexError | KeyError | UnicodeEncodeError.

Inductive result (A : Type) : Type :=
| Ok (a : A)
| Raise (e : exn)
| Beyond.

Arguments Ok {A} a.
Arguments Raise {A} e.
Arguments Beyond {A}.

Definition bind {A B} (r : result A) (k : A -> result B) : result B :=
  match r with
  | Ok a => k a
  | Raise e => Raise e
  | Beyond => Beyond
  end.

Declare Scope py_scope.
Delimit Scope py_scope with py.
Notation "x <- r ;; k" := (bind r (fun x => k))
  (at level 61, r at next level, right associativity) : py_scope.
Notation "' pat <- r ;; k" := (bind r (fun x => match x with pat => k end))
  (at level 61, pat pattern, r at next level, right associativity) : py_scope.
Local Open Scope py_scope.

(** [for item in items: state = body(state, item)] *)
Fixpoint for_each {S A} (body : S -> A -> result S) (items : list A) (s : S)
  : result S :=
  match items with
  | [] => Ok s
  | item :: rest => s' <- body s item ;; for_each body rest s'
  end.

(** ** Python primitives used by the scripts *)

Module Py.

(** Whether the character [c] occurs in [s]. *)
Fixpoint has_char (c : ascii) (s : string) : bool :=
  match s with
  | EmptyString => false
  | String c' s' => (Ascii.eqb c' c || has_char c s')%bool
  end.

(** [needle in s] on two strings. *)
Fixpoint str_in (needle s : string) : bool :=
  if String.prefix needle s then true
  else match s with
       | EmptyString => false
       | String _ s' => str_in needle s'
       end.

(** [s.split(sep)] for a one-character separator. *)
Fixpoint str_split (sep : ascii) (s : string) : list string :=
  match s with
  | EmptyString => [EmptyString]
  | String c s' =>
      if Ascii.eqb c sep then EmptyString :: str_split sep s'
      else match str_split sep s' with
           | seg :: segs => String c seg :: segs
           | [] => [String c EmptyString]
           end
  end.

(** [l[-1]] *)
Definition item_last {A} (l : list A) : result A :=
  match rev l with
  | x :: _ => Ok x
  | [] => Raise IndexError
  end.

(** *** Text *)

(** A byte [0xxxxxxx]: an ASCII character. *)
Definition is_ascii_char (c : ascii) : bool :=
  match c with Ascii _ _ _ _ _ _ _ b7 => negb b7 end.

Fixpoint is_ascii (s : string) : bool :=
  match s with
  | EmptyString => true
  | String c s' => (is_ascii_char c && is_ascii s')%bool
  end.

(** A byte [10xxxxxx]: it continues the code point of the byte before
    it. *)
Definition is_cont (c : ascii) : bool :=
  match c with Ascii _ _ _ _ _ _ b6 b7 => (b7 && negb b6)%bool end.

(** Where a decoder of UTF-8 stands: between two code points, one, two or
    three bytes short of the end of one, behind the byte [ED] (whose code
    points are surrogates from [ED A0] on), or stopped. *)
Inductive utf8_state : Type :=
| Boundary | More1 | More2 | More3 | AfterED | Broken.

Definition utf8_step (q : utf8_state) (c : ascii) : utf8_state :=
  match q, c with
  | Boundary, Ascii _ _ _ _ _ _ _ false => Boundary
  | Boundary, Ascii _ _ _ _ _ false true true => More1
  | Boundary, Ascii true false true true false true true true => AfterED
  | Boundary, Ascii _ _ _ _ false true true true => More2
  | Boundary, Ascii _ _ _ false true true true true => More3
  | Boundary, _ => Broken
  | More3, _ => if is_cont c then More2 else Broken
  | More2, _ => if is_cont c then More1 else Broken
  | More1, _ => if is_cont c then Boundary else Broken
  | AfterED, Ascii _ _ _ _ _ false false true => More1
  | AfterED, _ => Broken
  | Broken, _ => Broken
  end.

Fixpoint utf8_run (q : utf8_state) (s : string) : utf8_state :=
  match s with
  | EmptyString => q
  | String c s' => utf8_run (utf8_step q c) s'
  end.

(** [s.encode('utf-8')] succeeds: the text holds no surrogate. *)
Definition encodable (s : string) : bool :=
  match utf8_run Boundary s with Boundary => true | _ => false end.

(** [list(s)]: the characters of [s], each with the bytes that continue
    it. *)
Fixpoint str_chars (s : string) : list string :=
  match s with
  | EmptyString => []
  | String c s' =>
      match s' with
      | EmptyString => [String c EmptyString]
      | String c' _ =>
          if is_cont c' then
            match str_chars s' with
            | ch :: chs => String c ch :: chs
            | [] => [String c EmptyString]
            end
          else String c EmptyString :: str_chars s'
      end
  end.

Definition is_upper (c : ascii) : bool :=
  (Ascii.leb "A" c && Ascii.leb c "Z")%bool.

Definition lower_char (c : ascii) : ascii :=
  if is_upper c then ascii_of_nat (nat_of_ascii c + 32) else c.

(** [s.lower()] on a string of ASCII characters. *)
Fixpoint ascii_lower (s : string) : string :=
  match s with
  | EmptyString => EmptyString
  | String c s' => String (lower_char c) (ascii_lower s')
  end.

(** [s.replace(old, new)] for a one-character [old]. *)
Fixpoint str_replace (old : ascii) (new : string) (s : string) : string :=
  match s with
  | EmptyString => EmptyString
  | String c s' =>
      if Ascii.eqb c old then new ++ str_replace old new s'
      else String c (str_replace old new s')
  end.

(** The bytes of [s] up to the character that follows [n] more. *)
Fixpoint take_rest (n : nat) (s : string) : string :=
  match s with
  | EmptyString => EmptyString
  | String c s' =>
      if is_cont c then String c (take_rest n s')
      else match n with
           | O => EmptyString
           | S n' => String c (take_rest n' s')
           end
  end.

(** [s[:n]]: the first [n] characters. *)
Definition str_take (n : nat) (s : string) : string :=
  match n, s with
  | S n', String c s' => String c (take_rest n' s')
  | _, _ => EmptyString
  end.

(** [c * n] *)
Fixpoint str_repeat (c : ascii) (n : nat) : string :=
  match n with
  | O => EmptyString
  | S n' => String c (str_repeat c n')
  end.

Definition nat_str (n : nat) : string :=
  NilZero.string_of_uint (Nat.to_uint n).

Definition int_str (z : Z) : string :=
  NilZero.string_of_int (Z.to_int z).

(** [v == 'literal'] *)
Definition eq_str (v : json) (lit : string) : bool :=
  match v with
  | JStr s => String.eqb s lit
  | _ => false
  end.

(** Truth value of [v] in [if v:], [not v], [a or b]. *)
Definition truthy (v : json) : bool :=
  match v with
  | JNull => false
  | JBool b => b
  | JNum z => negb (Z.eqb z 0)
  | JStr s => negb (String.eqb s "")
  | JArr l => match l with [] => false | _ => true end
  | JObj kvs => match kvs with [] => false | _ => true end
  end.

(** [a or b] *)
Definition or_ (a b : json) : json := if truthy a then a else b.

Fixpoint assoc {V} (k : string) (kvs : list (string * V)) : option V :=
  match kvs with
  | [] => None
  | (k', v) :: rest => if String.eqb k' k then Some v else assoc k rest
  end.

(** The value under [k], or [dflt] where the key is absent. *)
Definition field (kvs : list (string * json)) (k : string) (dflt : json)
  : json :=
  match assoc k kvs with Some v => v | None => dflt end.

(** [o.get(k, dflt)]: only a dict has the method. *)
Definition get (o : json) (k : string) (dflt : json) : result json :=
  match o with
  | JObj kvs => Ok (field kvs k dflt)
  | _ => Raise AttributeError
  end.

(** [o[k]] for a string key [k], evaluated where [k in o] holds. *)
Definition index (o : json) (k : string) : result json :=
  match o with
  | JObj kvs => match assoc k kvs with
                | Some v => Ok v
                | None => Raise KeyError
                end
  | _ => Raise TypeError
  end.

(** [needle in hay] for a string [needle]: substring of a string, element
    of a list, key of a dict. *)
Definition contains (needle : string) (hay : json) : result bool :=
  match hay with
  | JStr s => Ok (str_in needle s)
  | JArr l => Ok (existsb (fun v => eq_str v needle) l)
  | JObj kvs => Ok (match assoc needle kvs with Some _ => true | None => false end)
  | _ => Raise TypeError
  end.

(** [for x in v] *)
Definition iter (v : json) : result (list json) :=
  match v with
  | JArr l => Ok l
  | JObj kvs => Ok (map (fun kv => JStr (fst kv)) kvs)
  | JStr s => Ok (map JStr (str_chars s))
  | _ => Raise TypeError
  end.

(** [v.split('/')[-1]] *)
Definition split_last (v : json) : result json :=
  match v with
  | JStr s => seg <- item_last (str_split "/" s) ;; Ok (JStr seg)
  | _ => Raise AttributeError
  end.

(** [v.lower()], where [str_lower] is [str.lower]. *)
Definition lower (str_lower : string -> string) (v : json) : result string :=
  match v with
  | JStr s => Ok (str_lower s)
  | _ => Raise AttributeError
  end.

(** [v[:n]]; a dict subscripted with a slice fails in a way that depends
    on the interpreter's version, and no dict reaches this call. *)
Definition take (n : nat) (v : json) : result json :=
  match v with
  | JStr s => Ok (JStr (str_take n s))
  | JArr l => Ok (JArr (firstn n l))
  | JObj _ => Beyond
  | _ => Raise TypeError
  end.

(** [f"{v}"]: the text of a scalar. *)
Definition str (v : json) : result string :=
  match v with
  | JNull => Ok "None"
  | JBool true => Ok "True"
  | JBool false => Ok "False"
  | JNum z => Ok (int_str z)
  | JStr s => Ok s
  | JArr _ | JObj _ => Beyond
  end.

(** [hash(v)], needed of every dict key and set element. *)
Definition hash (v : json) : result unit :=
  match v with
  | JArr _ | JObj _ => Raise TypeError
  | _ => Ok tt
  end.

Definition as_int (v : json) : option Z :=
  match v with
  | JBool b => Some (Z.b2z b)
  | JNum z => Some z
  | _ => None
  end.

(** [a == b] on hashable values: [True == 1] and [False == 0]. *)
Definition key_eqb (a b : json) : bool :=
  match a, b with
  | JNull, JNull => true
  | JStr s, JStr t => String.eqb s t
  | _, _ => match as_int a, as_int b with
            | Some x, Some y => Z.eqb x y
            | _, _ => false
            end
  end.

(** [a < b], as [sorted] asks it of two keys. *)
Definition lt (a b : json) : result bool :=
  match a, b with
  | JStr s, JStr t => Ok (String.ltb s t)
  | JArr _, JArr _ => Beyond
  | _, _ => match as_int a, as_int b with
            | Some x, Some y => Ok (Z.ltb x y)
            | _, _ => Raise TypeError
            end
  end.

(** *** dict *)

Definition dict (V : Type) : Type := list (json * V).

Fixpoint dict_find {V} (k : json) (d : dict V) : option V :=
  match d with
  | [] => None
  | (k', v) :: rest => if key_eqb k' k then Some v else dict_find k rest
  end.

(** [d[k] = v] keeps the position and the key object of an entry whose
    key equals [k], and appends otherwise. *)
Fixpoint dict_set {V} (k : json) (v : V) (d : dict V) : dict V :=
  match d with
  | [] => [(k, v)]
  | (k', v') :: rest =>
      if key_eqb k' k then (k', v) :: rest
      else (k', v') :: dict_set k v rest
  end.

Definition dict_mem {V} (k : json) (d : dict V) : bool :=
  match dict_find k d with Some _ => true | None => false end.

(** [k in d] *)
Definition dict_contains {V} (k : json) (d : dict V) : result bool :=
  _ <- hash k ;; Ok (dict_mem k d).

(** [d[k] = v] *)
Definition dict_store {V} (k : json) (v : V) (d : dict V) : result (dict V) :=
  _ <- hash k ;; Ok (dict_set k v d).

(** *** set of pairs *)

Definition pair_eqb (x y : json * json) : bool :=
  (key_eqb (fst x) (fst y) && key_eqb (snd x) (snd y))%bool.

(** [s.add((a, b))]; the list keeps the elements in the order of their
    first insertion, which is not the order Python iterates them in. *)
Definition set_add (x : json * json) (s : list (json * json))
  : result (list (json * json)) :=
  _ <- hash (fst x) ;;
  _ <- hash (snd x) ;;
  Ok (if existsb (pair_eqb x) s then s else s ++ [x]).

(** *** sorted *)

(** Insert [x] behind every element that is not greater than it. *)
Fixpoint insert_by {A} (key : A -> json) (x : A) (l : list A)
  : result (list A) :=
  match l with
  | [] => Ok [x]
  | y :: rest =>
      b <- lt (key x) (key y) ;;
      if b then Ok (x :: y :: rest)
      else rest' <- insert_by key x rest ;; Ok (y :: rest')
  end.

(** [sorted(l, key=key)]: stable, and comparing with [<] only. *)
Definition sorted_by {A} (key : A -> json) (l : list A) : result (list A) :=
  for_each (fun acc x => insert_by key x acc) l [].

End Py.

Definition nl : string := String (ascii_of_nat 10) EmptyString.

(** [print(s)] appends [s] and a newline to standard output, unless the
    text cannot be encoded. *)
Definition print (out s : string) : result string :=
  if Py.encodable s then Ok (out ++ s ++ nl)%string
  else Raise UnicodeEncodeError.

(** ** extract_publishers.py *)

Module ExtractPublishers.
Import Py.

(** A value of [publishers]. *)
Record info : Type := {
  feedGuid : json;
  feedUrl : json;
  title : json;
  id : json;
  parsedData : json
}.

(** A value of [publisher_references]. *)
Record reference : Type := {
  referenced_in : json;
  artist_context : json
}.

(** Lines 13-20: the GUID of a publisher feed, from its URL. *)
Definition feed_guid_of (feed_url : json) : result json :=
  wavlake <- contains "wavlake.com/feed/artist/" feed_url ;;
  if wavlake then split_last feed_url
  else
    bitpunk <- contains "zine.bitpunk.fm/feeds/publisher.xml" feed_url ;;
    if bitpunk then Ok (JStr "5883e6be-4e0c-11f0-9524-00155dc57d8e")
    else Ok JNull.

(** Lines 13-28: the key and the entry stored for a publisher feed. *)
Definition publisher_entry (feed : json) : result (json * info) :=
  feed_url <- get feed "originalUrl" (JStr "") ;;
  feed_guid <- feed_guid_of feed_url ;;
  feed_title <- get feed "title" (JStr "") ;;
  feed_id <- get feed "id" (JStr "") ;;
  parsed_data <- get feed "parsedData" (JObj []) ;;
  Ok (feed_guid,
      {| feedGuid := feed_guid; feedUrl := feed_url; title := feed_title;
         id := feed_id; parsedData := parsed_data |}).

(** Lines 12-28: the body of the first loop. *)
Definition primary_feed (publishers : dict info) (feed : json)
  : result (dict info) :=
  ty <- get feed "type" JNull ;;
  if eq_str ty "publisher" then
    '(feed_guid, entry) <- publisher_entry feed ;;
    dict_store feed_guid entry publishers
  else Ok publishers.

(** Line 47: the title of a synthesized entry. *)
Definition unknown_title (artist_name : json) : result json :=
  if truthy artist_name then
    a <- str artist_name ;; Ok (JStr ("Unknown Publisher (" ++ a ++ ")"))
  else Ok (JStr "Unknown Publisher").

(** Lines 34-54: the body of the second loop, on the pair
    [(publishers, publisher_references)]. *)
Definition reference_feed (st : dict info * dict reference) (feed : json)
  : result (dict info * dict reference) :=
  let (publishers, publisher_references) := st in
  parsed_data <- get feed "parsedData" (JObj []) ;;
  has_album <- contains "album" parsed_data ;;
  if has_album then
    album <- index parsed_data "album" ;;
    publisher_info <- get album "publisher" (JObj []) ;;
    medium <- get publisher_info "medium" JNull ;;
    if eq_str medium "publisher" then
      guid <- get publisher_info "feedGuid" JNull ;;
      if truthy guid then
        known <- dict_contains guid publishers ;;
        if known then Ok st
        else
          artist_name <- get album "artist" (JStr "") ;;
          ref_url <- get publisher_info "feedUrl" (JStr "") ;;
          ref_title <- unknown_title artist_name ;;
          g <- str guid ;;
          publishers' <- dict_store guid
            {| feedGuid := guid; feedUrl := ref_url; title := ref_title;
               id := JStr ("publisher-" ++ g); parsedData := JObj [] |}
            publishers ;;
          feed_title <- get feed "title" (JStr "") ;;
          publisher_references' <- dict_store guid
            {| referenced_in := feed_title; artist_context := artist_name |}
            publisher_references ;;
          Ok (publishers', publisher_references')
      else Ok st
    else Ok st
  else Ok st.

(** Lines 8-28 *)
Definition primary_scan (data : json) : result (dict info) :=
  feeds_v <- get data "feeds" (JArr []) ;;
  feeds <- iter feeds_v ;;
  for_each primary_feed feeds [].

(** Lines 4-56, on the document [json.load] returned. *)
Definition extract_publishers (data : json)
  : result (dict info * dict reference) :=
  publishers <- primary_scan data ;;
  feeds_v <- get data "feeds" (JArr []) ;;
  feeds <- iter feeds_v ;;
  for_each reference_feed feeds (publishers, []).

(** Lines 72-75: the three lines printed for a non-empty
    [publisherInfo]. *)
Definition print_publisher_info (out : string) (publisher_info : json)
  : result string :=
  if truthy publisher_info then
    pn <- get publisher_info "title" (JStr "N/A") ;;
    pn_s <- str pn ;;
    out <- print out ("Publisher Name: " ++ pn_s) ;;
    pa <- get publisher_info "artist" (JStr "N/A") ;;
    pa_s <- str pa ;;
    out <- print out ("Artist: " ++ pa_s) ;;
    pd <- get publisher_info "description" (JStr "N/A") ;;
    pd_s <- str pd ;;
    print out ("Description: " ++ pd_s)
  else Ok out.

(** Lines 77-79: the two lines printed for a referenced GUID. *)
Definition print_reference (references : dict reference) (out : string)
  (guid : json) : result string :=
  match dict_find guid references with
  | Some r =>
      ri <- str (referenced_in r) ;;
      out <- print out ("Referenced in: " ++ ri) ;;
      ac <- str (artist_context r) ;;
      print out ("Artist context: " ++ ac)
  | None => Ok out
  end.

(** Lines 64-81: what the report loop prints for one item. *)
Definition print_entry (references : dict reference) (out : string)
  (item : json * info) : result string :=
  let (guid, inf) := item in
  if truthy guid then
    g <- str guid ;;
    out <- print out ("Feed GUID: " ++ g) ;;
    u <- str (feedUrl inf) ;;
    out <- print out ("Feed URL: " ++ u) ;;
    t <- str (title inf) ;;
    out <- print out ("Title: " ++ t) ;;
    i <- str (id inf) ;;
    out <- print out ("ID: " ++ i) ;;
    publisher_info <- get (parsedData inf) "publisherInfo" (JObj []) ;;
    out <- print_publisher_info out publisher_info ;;
    out <- print_reference references out guid ;;
    print out (str_repeat "-" 60)
  else Ok out.

(** Line 83: [[g for g in publishers.keys() if g]] *)
Definition counted_guids (publishers : dict info) : list json :=
  filter truthy (map fst publishers).

(** Lines 61-83: the report, from the two maps. *)
Definition report (publishers : dict info) (references : dict reference)
  : result string :=
  out <- print "" ("=== UNIQUE PUBLISHER ENTRIES ===" ++ nl) ;;
  items <- sorted_by (fun x : json * info => title (snd x)) publishers ;;
  out <- for_each (print_entry references) items out ;;
  print out (nl ++ "Total unique publishers found: "
                ++ nat_str (List.length (counted_guids publishers))).

(** Lines 58-83: standard output of a run on the document [data]. *)
Definition main (data : json) : result string :=
  '(publishers, references) <- extract_publishers data ;;
  report publishers references.

End ExtractPublishers.

(** ** final_publisher_summary.py *)

Module FinalPublisherSummary.
Import Py.

(** A value of [publishers]. *)
Record info : Type := {
  feedGuid : json;
  feedUrl : json;
  title : json;
  id : json;
  publisherName : json;
  artist : json;
  description : json;
  status : json;
  priority : json
}.

(** A display mapping; [mFeedUrl] and [mStatus] are its keys ['feedUrl']
    and ['status']. *)
Record mapping : Type := {
  guid : json;
  displayName : json;
  urlSlug : json;
  mFeedUrl : json;
  mStatus : json
}.

(** Lines 15-22: the GUID of a publisher feed, from its URL. *)
Definition feed_guid_of (original_url : json) : result json :=
  wavlake <- contains "wavlake.com/feed/artist/" original_url ;;
  if wavlake then split_last original_url
  else
    bitpunk <- contains "zine.bitpunk.fm/feeds/publisher.xml" original_url ;;
    if bitpunk then Ok (JStr "5883e6be-4e0c-11f0-9524-00155dc57d8e")
    else
      podtards <- contains "re.podtards.com" original_url ;;
      if podtards then Ok (JStr "doerfels-publisher-special")
      else Ok JNull.

(** Lines 12-36: the key and the entry stored for a publisher feed. *)
Definition publisher_entry (feed : json) : result (json * info) :=
  original_url <- get feed "originalUrl" (JStr "") ;;
  feed_guid <- feed_guid_of original_url ;;
  parsed_data <- get feed "parsedData" (JObj []) ;;
  publisher_info <- get parsed_data "publisherInfo" (JObj []) ;;
  feed_title <- get feed "title" (JStr "") ;;
  feed_id <- get feed "id" (JStr "") ;;
  p_name <- get publisher_info "title" (JStr "") ;;
  p_artist <- get publisher_info "artist" (JStr "") ;;
  p_description <- get publisher_info "description" (JStr "") ;;
  feed_status <- get feed "status" (JStr "") ;;
  feed_priority <- get feed "priority" (JStr "") ;;
  Ok (feed_guid,
      {| feedGuid := feed_guid; feedUrl := original_url;
         title := feed_title; id := feed_id;
         publisherName := p_name; artist := p_artist;
         description := p_description;
         status := feed_status; priority := feed_priority |}).

(** Lines 11-36: the body of the first loop. *)
Definition primary_feed (publishers : dict info) (feed : json)
  : result (dict info) :=
  ty <- get feed "type" JNull ;;
  if eq_str ty "publisher" then
    '(feed_guid, entry) <- publisher_entry feed ;;
    dict_store feed_guid entry publishers
  else Ok publishers.

(** Lines 41-49: the body of the second loop, on [unique_feed_guids]. *)
Definition collect_feed (unique_feed_guids : list (json * json)) (feed : json)
  : result (list (json * json)) :=
  parsed_data <- get feed "parsedData" (JObj []) ;;
  has_album <- contains "album" parsed_data ;;
  if has_album then
    album <- index parsed_data "album" ;;
    publisher_info <- get album "publisher" (JObj []) ;;
    medium <- get publisher_info "medium" JNull ;;
    if eq_str medium "publisher" then
      ref_guid <- get publisher_info "feedGuid" JNull ;;
      url <- get publisher_info "feedUrl" (JStr "") ;;
      set_add (ref_guid, url) unique_feed_guids
    else Ok unique_feed_guids
  else Ok unique_feed_guids.

(** Lines 55-57: the title of a synthesized entry. *)
Definition inferred_name (ref_guid url : json) : result json :=
  wavlake <- contains "wavlake.com" url ;;
  if wavlake then
    g8 <- take 8 ref_guid ;;
    g <- str g8 ;;
    Ok (JStr ("Wavlake Artist (" ++ g ++ "...)"))
  else Ok (JStr "Unknown Publisher").

(** Lines 53-69: the body of the third loop. *)
Definition missing_publisher (publishers : dict info) (ref : json * json)
  : result (dict info) :=
  let (ref_guid, url) := ref in
  if truthy ref_guid then
    known <- dict_contains ref_guid publishers ;;
    if known then Ok publishers
    else
      name <- inferred_name ref_guid url ;;
      g <- str ref_guid ;;
      dict_store ref_guid
        {| feedGuid := ref_guid; feedUrl := url; title := name;
           id := JStr ("publisher-" ++ g);
           publisherName := JStr ""; artist := JStr "";
           description := JStr "";
           status := JStr "referenced"; priority := JStr "unknown" |}
        publishers
  else Ok publishers.

(** Lines 7-36 *)
Definition primary_scan (data : json) : result (dict info) :=
  feeds_v <- get data "feeds" (JArr []) ;;
  feeds <- iter feeds_v ;;
  for_each primary_feed feeds [].

(** Lines 39-49 *)
Definition collect_references (data : json) : result (list (json * json)) :=
  feeds_v <- get data "feeds" (JArr []) ;;
  feeds <- iter feeds_v ;;
  for_each collect_feed feeds [].

Section SetOrder.

(** The order in which [for guid, url in unique_feed_guids] meets the
    elements of the set. *)
Variable set_order : list (json * json) -> list (json * json).

(** Lines 3-71, on the document [json.load] returned. *)
Definition extract_all_publishers (data : json) : result (dict info) :=
  publishers <- primary_scan data ;;
  unique_feed_guids <- collect_references data ;;
  for_each missing_publisher (set_order unique_feed_guids) publishers.

End SetOrder.

(** Lines 78-79, 116-117, 129: [not guid or guid == 'None'] negated. *)
Definition valid_guid (g : json) : bool :=
  (truthy g && negb (eq_str g "None"))%bool.

Section Lower.

(** Python's [str.lower]. *)
Variable str_lower : string -> string.

(** Lines 86-94: a name made from the URL. *)
Definition name_from_url (g url : json) : result json :=
  wavlake <- contains "wavlake.com/feed/artist/" url ;;
  if wavlake then
    g8 <- take 8 g ;; s <- str g8 ;; Ok (JStr ("Wavlake Artist " ++ s))
  else
    bitpunk <- contains "bitpunk.fm" url ;;
    if bitpunk then Ok (JStr "BitPunk.fm")
    else
      low <- lower str_lower url ;;
      if str_in "doerfel" low then Ok (JStr "The Doerfels")
      else
        g8 <- take 8 g ;; s <- str g8 ;; Ok (JStr ("Publisher " ++ s)).

(** Lines 82-94 *)
Definition display_name_of (g : json) (inf : info) : result json :=
  let display_name := or_ (or_ (publisherName inf) (title inf)) (artist inf) in
  if (negb (truthy display_name) || eq_str display_name "Unknown Publisher")%bool
  then name_from_url g (feedUrl inf)
  else Ok display_name.

(** Line 97: [display_name.lower().replace(' ', '-').replace('(', '')
    .replace(')', '').replace('.', '')] *)
Definition url_safe_of (display_name : json) : result json :=
  low <- lower str_lower display_name ;;
  Ok (JStr (str_replace "." ""
              (str_replace ")" ""
                 (str_replace "(" ""
                    (str_replace " " "-" low))))).

(** Lines 77-105: the body of the loop of
    [create_human_readable_mappings]. *)
Definition map_publisher (mappings : dict mapping) (item : json * info)
  : result (dict mapping) :=
  let (g, inf) := item in
  if valid_guid g then
    display_name <- display_name_of g inf ;;
    url_safe <- url_safe_of display_name ;;
    dict_store g
      {| guid := g; displayName := display_name; urlSlug := url_safe;
         mFeedUrl := feedUrl inf; mStatus := status inf |}
      mappings
  else Ok mappings.

(** Lines 73-107 *)
Definition create_human_readable_mappings (publishers : dict info)
  : result (dict mapping) :=
  for_each map_publisher publishers [].

End Lower.

(** Line 115: the sort key of the first report loop. *)
Definition title_key (x : json * info) : json :=
  if truthy (title (snd x)) then title (snd x) else JStr "".

(** Lines 116-127: what the first report loop prints for one item. *)
Definition print_entry (out : string) (item : json * info) : result string :=
  let (g, inf) := item in
  if valid_guid g then
    s <- str g ;;
    out <- print out ("Feed GUID: " ++ s) ;;
    s <- str (feedUrl inf) ;;
    out <- print out ("Feed URL: " ++ s) ;;
    s <- str (title inf) ;;
    out <- print out ("Title: " ++ s) ;;
    s <- str (publisherName inf) ;;
    out <- print out ("Publisher Name: " ++ s) ;;
    s <- str (artist inf) ;;
    out <- print out ("Artist: " ++ s) ;;
    s <- str (description inf) ;;
    out <- print out ("Description: " ++ s) ;;
    s <- str (status inf) ;;
    out <- print out ("Status: " ++ s) ;;
    s <- str (priority inf) ;;
    out <- print out ("Priority: " ++ s) ;;
    print out (str_repeat "-" 60)
  else Ok out.

(** Lines 135-140: what the second report loop prints for one item. *)
Definition print_mapping (out : string) (item : json * mapping)
  : result string :=
  let (g, m) := item in
  s <- str g ;;
  out <- print out ("GUID: " ++ s) ;;
  s <- str (displayName m) ;;
  out <- print out ("Display Name: " ++ s) ;;
  s <- str (urlSlug m) ;;
  out <- print out ("URL Slug: " ++ s) ;;
  s <- str (mFeedUrl m) ;;
  out <- print out ("Feed URL: " ++ s) ;;
  s <- str (mStatus m) ;;
  out <- print out ("Status: " ++ s) ;;
  print out (str_repeat "-" 40).

(** Line 129 *)
Definition valid_publishers (publishers : dict info) : list json :=
  filter valid_guid (map fst publishers).

(** Lines 113-140: the report, from the two maps. *)
Definition report (publishers : dict info) (mappings : dict mapping)
  : result string :=
  out <- print "" ("=== ALL UNIQUE PUBLISHERS ===" ++ nl) ;;
  items <- sorted_by title_key publishers ;;
  out <- for_each print_entry items out ;;
  out <- print out (nl ++ "Total unique publishers: "
                       ++ nat_str (List.length (valid_publishers publishers))) ;;
  out <- print out (nl ++ "=== HUMAN-READABLE URL MAPPINGS ===" ++ nl) ;;
  rows <- sorted_by (fun x : json * mapping => displayName (snd x)) mappings ;;
  for_each print_mapping rows out.

(** Lines 109-140: standard output of a run on the document [data], with
    [str_lower] for [str.lower] and the set iterated in the order
    [set_order]. *)
Definition main (str_lower : string -> string)
  (set_order : list (json * json) -> list (json * json))
  (data : json) : result string :=
  publishers <- extract_all_publishers set_order data ;;
  mappings <- create_human_readable_mappings str_lower publishers ;;
  report publishers mappings.

End FinalPublisherSummary.

Module EP := ExtractPublishers.
Module FS := FinalPublisherSummary.

(** ** The scenarios of the specification *)

Definition wavlake_feed : json :=
  JObj [("type", JStr "publisher");
        ("originalUrl", JStr "https://wavlake.com/feed/artist/abc123");
        ("title", JStr "Artist X")].

Definition album_feed : json :=
  JObj [("parsedData",
         JObj [("album",
                JObj [("publisher",
                       JObj [("medium", JStr "publisher");
                             ("feedGuid", JStr "xyz");
                             ("feedUrl", JStr "u")]);
                      ("artist", JStr "Band Y")])])].

Definition document (feeds : list json) : json := JObj [("feeds", JArr feeds)].

(** The text of the JSON string ["\ud800"]: one surrogate. *)
Definition lone_surrogate : string :=
  String (ascii_of_nat 237)
    (String (ascii_of_nat 160) (String (ascii_of_nat 128) EmptyString)).

(** ** Notions the properties are stated with *)

(** Number of entries of [d] whose key equals [k]. *)
Definition entries_under {V} (k : json) (d : Py.dict V) : nat :=
  List.length (filter (fun e => Py.key_eqb (fst e) k) d).

(** [feed.get('type') == 'publisher'] on a feed that is a dict. *)
Definition is_publisher (feed : json) : bool :=
  match feed with
  | JObj fields => Py.eq_str (Py.field fields "type" JNull) "publisher"
  | _ => false
  end.



(** The entry the reference scan of the first script makes up for [g]. *)
Definition EP_synthesized (e : json * EP.info) : Prop :=
  EP.feedGuid (snd e) = fst e /\
  EP.parsedData (snd e) = JObj [] /\
  exists g, Py.str (fst e) = Ok g /\
            EP.id (snd e) = JStr ("publisher-" ++ g).

(** The entry the reference scan of the second script makes up for [g]. *)
Definition FS_synthesized (e : json * FS.info) : Prop :=
  FS.feedGuid (snd e) = fst e /\
  FS.status (snd e) = JStr "referenced" /\
  FS.priority (snd e) = JStr "unknown" /\
  exists g, Py.str (fst e) = Ok g /\
            FS.id (snd e) = JStr ("publisher-" ++ g).

(** [publishers] is [primary] followed by synthesized entries under true
    keys that [primary] does not hold, and no two entries share a key. *)
Definition extends {V} (synthesized : json * V -> Prop)
  (primary publishers : Py.dict V) : Prop :=
  exists added,
    publishers = primary ++ added /\
    (forall q, entries_under q publishers <= 1) /\
    Forall (fun e => Py.truthy (fst e) = true /\ fst e <> JNull /\
                     Py.dict_mem (fst e) primary = false /\ synthesized e)
           added.

(** The title of a synthesized entry, in the words of the specification:
    "Unknown Publisher (" + artistName + ")" when there is an artist name,
    plain "Unknown Publisher" otherwise. *)
Definition spec_placeholder_title (artist_name : string) : string :=
  if String.eqb artist_name "" then "Unknown Publisher"
  else "Unknown Publisher (" ++ artist_name ++ ")".

(** An album feed that refers to the publisher [g] and names [artist]. *)
Definition album_feed_of (g artist_name : string) : json :=
  JObj [("parsedData",
         JObj [("album",
                JObj [("publisher",
                       JObj [("medium", JStr "publisher");
                             ("feedGuid", JStr g);
                             ("feedUrl", JStr "u")]);
                      ("artist", JStr artist_name)])])].

(** ** Characters *)

(** The number of characters of a text: the bytes that continue none. *)
Fixpoint chars (s : string) : nat :=
  match s with
  | EmptyString => 0
  | String c s' => if Py.is_cont c then chars s' else S (chars s')
  end.

(** The text is empty or begins with the first byte of a character. *)
Definition starts_char (s : string) : Prop :=
  match s with
  | EmptyString => True
  | String c _ => Py.is_cont c = false
  end.

(** The first [n] characters of [s], from its list of characters. *)
Definition first_chars (n : nat) (s : string) : string :=
  String.concat "" (firstn n (Py.str_chars s)).

(** The letter that stands in [to] where [c] stands in [from], or [c]. *)
Fixpoint letter_of (from to : string) (c : ascii) : ascii :=
  match from, to with
  | String f from', String t to' =>
      if Ascii.eqb c f then t else letter_of from' to' c
  | _, _ => c
  end.

(** Lowercase on ASCII: each capital letter becomes its small letter. *)
Definition spec_lower_char (c : ascii) : ascii :=
  letter_of "ABCDEFGHIJKLMNOPQRSTUVWXYZ" "abcdefghijklmnopqrstuvwxyz" c.

Fixpoint spec_lower (s : string) : string :=
  match s with
  | EmptyString => EmptyString
  | String c s' => String (spec_lower_char c) (spec_lower s')
  end.

(** What the properties assume of [str.lower]: on a string of ASCII
    characters it turns the letters A-Z into a-z and leaves the rest as
    it is, and it puts no surrogate into a text that has none. *)
Record python_lower (str_lower : string -> string) : Prop := {
  lower_ascii : forall s, Py.is_ascii s = true -> str_lower s = Py.ascii_lower s;
  lower_encodable : forall s, Py.encodable s = true ->
                              Py.encodable (str_lower s) = true
}.

(** The title the second script gives a synthesized entry: the artist
    plays no part in it. *)
Definition FS_placeholder_title (g url : string) : string :=
  if Py.str_in "wavlake.com" url
  then "Wavlake Artist (" ++ first_chars 8 g ++ "...)"
  else "Unknown Publisher".

(** Slug derivation, in the words of the specification: of the lowercased
    name, replace spaces with hyphens, strip parentheses and periods. *)
Definition strip_char (c : ascii) : string :=
  if Ascii.eqb c " " then "-"
  else if (Ascii.eqb c "(" || Ascii.eqb c ")" || Ascii.eqb c ".")%bool
       then ""
       else String c "".

Fixpoint spec_strip (lowered : string) : string :=
  match lowered with
  | EmptyString => EmptyString
  | String c rest => strip_char c ++ spec_strip rest
  end.

(** The slug of a name of ASCII characters. *)
Definition spec_slug (name : string) : string := spec_strip (spec_lower name).

Section SpecLower.
Variable str_lower : string -> string.

(** Name resolution, in the words of the specification: [publisherName],
    then [title], then [artist]; when that is empty or the placeholder
    "Unknown Publisher", the URL decides. *)
Definition spec_display_name (publisher_name title artist url g : string)
  : string :=
  let resolved :=
    if negb (String.eqb publisher_name "") then publisher_name
    else if negb (String.eqb title "") then title
         else artist in
  if (String.eqb resolved "" || String.eqb resolved "Unknown Publisher")%bool
  then
    if Py.str_in "wavlake.com/feed/artist/" url
    then "Wavlake Artist " ++ first_chars 8 g
    else if Py.str_in "bitpunk.fm" url then "BitPunk.fm"
    else if Py.str_in "doerfel" (str_lower url) then "The Doerfels"
    else "Publisher " ++ first_chars 8 g
  else resolved.



End SpecLower.

(** ** Documents whose fields have the expected JSON types *)

Definition is_str (v : json) : bool :=
  match v with JStr _ => true | _ => false end.

(** A string that holds no surrogate. *)
Definition is_text (v : json) : bool :=
  match v with JStr s => Py.encodable s | _ => false end.

(** A key of the primary scan: null or a string without surrogate. *)
Definition key_kind (k : json) : bool :=
  match k with JNull => true | JStr s => Py.encodable s | _ => false end.

(** The field [k] is absent or holds a string without surrogate. *)
Definition opt_text (kvs : list (string * json)) (k : string) : bool :=
  match Py.assoc k kvs with
  | None => true
  | Some v => is_text v
  end.

(** The field [k] is absent or holds an object that satisfies [p]. *)
Definition opt_object (p : list (string * json) -> bool)
  (kvs : list (string * json)) (k : string) : bool :=
  match Py.assoc k kvs with
  | None => true
  | Some (JObj o) => p o
  | Some _ => false
  end.

Definition wf_publisher_ref (o : list (string * json)) : bool :=
  (opt_text o "feedGuid" && opt_text o "feedUrl")%bool.

Definition wf_album (o : list (string * json)) : bool :=
  (opt_object wf_publisher_ref o "publisher" && opt_text o "artist")%bool.

Definition wf_publisher_info (o : list (string * json)) : bool :=
  (opt_text o "title" && opt_text o "artist"
   && opt_text o "description")%bool.

Definition wf_parsed_data (o : list (string * json)) : bool :=
  (opt_object wf_album o "album"
   && opt_object wf_publisher_info o "publisherInfo")%bool.

(** A feed record: a dict in which every field the scripts read is absent
    or of its type, a string holding no surrogate, [type] and [medium]
    being free. *)
Definition wf_feed (feed : json) : bool :=
  match feed with
  | JObj kvs =>
      (opt_text kvs "originalUrl" && opt_text kvs "title"
       && opt_text kvs "id" && opt_text kvs "status"
       && opt_text kvs "priority"
       && opt_object wf_parsed_data kvs "parsedData")%bool
  | _ => false
  end.

(** A document: a dict whose [feeds], when present, is a list of feed
    records. *)
Definition wf_document (data : json) : bool :=
  match data with
  | JObj kvs =>
      match Py.assoc "feeds" kvs with
      | None => true
      | Some (JArr feeds) => forallb wf_feed feeds
      | Some _ => false
      end
  | _ => false
  end.

(** The feed records of a document. *)
Definition feeds_of (data : json) : list json :=
  match data with
  | JObj kvs =>
      match Py.assoc "feeds" kvs with
      | Some (JArr feeds) => feeds
      | _ => []
      end
  | _ => []
  end.

(** Entries as the scans build them from such documents. *)
Definition EP_typed_info (inf : EP.info) : bool :=
  (is_text (EP.feedUrl inf) && is_text (EP.title inf) && is_text (EP.id inf)
   && match EP.parsedData inf with
      | JObj pd => opt_object wf_publisher_info pd "publisherInfo"
      | _ => false
      end)%bool.

Definition EP_typed_reference (r : EP.reference) : bool :=
  (is_text (EP.referenced_in r) && is_text (EP.artist_context r))%bool.

Definition FS_typed_info (inf : FS.info) : bool :=
  (is_text (FS.feedUrl inf) && is_text (FS.title inf) && is_text (FS.id inf)
   && is_text (FS.publisherName inf) && is_text (FS.artist inf)
   && is_text (FS.description inf) && is_text (FS.status inf)
   && is_text (FS.priority inf))%bool.

Definition FS_typed_mapping (m : FS.mapping) : bool :=
  (is_text (FS.displayName m) && is_text (FS.urlSlug m)
   && is_text (FS.mFeedUrl m) && is_text (FS.mStatus m))%bool.

(** A string of ASCII characters. *)
Definition is_ascii_text (v : json) : bool :=
  match v with JStr s => Py.is_ascii s | _ => false end.

(** An entry of the second script whose GUID, URL and names are strings
    of ASCII characters. *)
Definition ascii_entry (e : json * FS.info) : bool :=
  (is_ascii_text (fst e) && is_ascii_text (FS.feedUrl (snd e))
   && is_ascii_text (FS.publisherName (snd e))
   && is_ascii_text (FS.title (snd e))
   && is_ascii_text (FS.artist (snd e)))%bool.

(** A dict whose keys and values are of the given kinds. *)
Definition typed_dict {V} (value_ok : V -> bool) (d : Py.dict V) : Prop :=
  Forall (fun e => key_kind (fst e) = true /\ value_ok (snd e) = true) d.


(** ** Sorting on string keys *)

(** [y] may stand before [z]: the text of [z] is not less than that of
    [y]. *)
Definition before {A} (skey : A -> string) (y z : A) : Prop :=
  String.ltb (skey z) (skey y) = false.

(** Every sort key of [l] is a string, whose text [skey] gives. *)
Definition string_keys {A} (key : A -> json) (skey : A -> string)
  (l : list A) : Prop :=
  Forall (fun y => key y = JStr (skey y)) l.

Definition EP_title_text (e : json * EP.info) : string :=
  match EP.title (snd e) with JStr s => s | _ => "" end.

Definition FS_title_text (e : json * FS.info) : string :=
  match FS.title (snd e) with JStr s => s | _ => "" end.

Definition FS_name_text (e : json * FS.mapping) : string :=
  match FS.displayName (snd e) with JStr s => s | _ => "" end.

(** The pairs collected from such documents: a null or string GUID with a
    string URL. *)
Definition typed_refs (refs : list (json * json)) : Prop :=
  Forall (fun x => key_kind (fst x) = true /\ is_text (snd x) = true) refs.

(** Lines 34-40 of the first script and 41-48 of the second: the GUID and
    the URL of the publisher an album feed refers to. *)
Definition album_reference (feed : json) : result (option (json * json)) :=
  parsed_data <- Py.get feed "parsedData" (JObj []) ;;
  has_album <- Py.contains "album" parsed_data ;;
  if has_album then
    album <- Py.index parsed_data "album" ;;
    publisher_info <- Py.get album "publisher" (JObj []) ;;
    medium <- Py.get publisher_info "medium" JNull ;;
    if Py.eq_str medium "publisher" then
      ref_guid <- Py.get publisher_info "feedGuid" JNull ;;
      url <- Py.get publisher_info "feedUrl" (JStr "") ;;
      Ok (Some (ref_guid, url))
    else Ok None
  else Ok None.

(** The feed refers to a publisher whose GUID is true and equals [q]. *)
Definition refers_to (q : json) (feed : json) : bool :=
  match album_reference feed with
  | Ok (Some (g, _)) => (Py.truthy g && Py.key_eqb g q)%bool
  | _ => false
  end.

(** The pair holds a GUID that is true and equals [q]. *)
Definition pair_refers_to (q : json) (ref : json * json) : bool :=
  (Py.truthy (fst ref) && Py.key_eqb (fst ref) q)%bool.

(** The fields both scripts store for a publisher feed. *)
Definition EP_core (inf : EP.info) : json * json * json * json :=
  (EP.feedGuid inf, EP.feedUrl inf, EP.title inf, EP.id inf).

Definition FS_core (inf : FS.info) : json * json * json * json :=
  (FS.feedGuid inf, FS.feedUrl inf, FS.title inf, FS.id inf).

(** A dict with [f] applied to its values. *)
Definition dict_map {V W} (f : V -> W) (d : Py.dict V) : Py.dict W :=
  map (fun e => (fst e, f (snd e))) d.

(** The third rule of the second script does not fire on the URL of a
    publisher feed. *)
Definition no_podtards (feed : json) : Prop :=
  forall kvs, feed = JObj kvs -> is_publisher feed = true ->
  Py.contains "re.podtards.com" (Py.field kvs "originalUrl" (JStr ""))
  <> Ok true.

(** A synthesized entry and the reference kept for it: the same key, and
    the title made from the artist the reference records. *)
Definition reference_of (e : json * EP.info) (r : json * EP.reference)
  : Prop :=
  fst r = fst e /\
  EP.unknown_title (EP.artist_context (snd r)) = Ok (EP.title (snd e)).

(** What every stored mapping satisfies: it records its own key, and its
    display name is a string that is neither empty nor the placeholder. *)
Definition named_mapping (str_lower : string -> string)
  (e : json * FS.mapping) : Prop :=
  FS.guid (snd e) = fst e /\
  exists name slug,
    FS.displayName (snd e) = JStr name /\
    name <> "" /\ name <> "Unknown Publisher" /\
    FS.url_safe_of str_lower (JStr name) = Ok (JStr slug) /\
    FS.urlSlug (snd e) = JStr slug.

(** The items of [l] whose sort key has the text [t]. *)
Definition with_key {A} (skey : A -> string) (t : string) (l : list A)
  : list A :=
  filter (fun e => String.eqb (skey e) t) l.

(** [items] is [l] in the order of its keys, items with equal keys in
    the order they have in [l]. *)
Definition stably_sorted {A} (skey : A -> string) (l items : list A) : Prop :=
  Permutation l items /\
  StronglySorted (before skey) items /\
  forall t, with_key skey t items = with_key skey t l.

(** A Python dict. *)
Definition is_object (v : json) : bool :=
  match v with JObj _ => true | _ => false end.

(** A value [for] can iterate: a list, a dict or a string. *)
Definition is_iterable (v : json) : bool :=
  match v with JArr _ | JObj _ | JStr _ => true | _ => false end.

(** A feed that is no publisher feed and refers to no publisher. *)
Definition inert (feed : json) : Prop :=
  is_publisher feed = false /\ album_reference feed = Ok None.

(** What the first script prints when it found nothing. *)
Definition EP_empty_report : string :=
  "=== UNIQUE PUBLISHER ENTRIES ===" ++ nl ++ nl
  ++ nl ++ "Total unique publishers found: 0" ++ nl.

(** What the second script prints when it found nothing. *)
Definition FS_empty_report : string :=
  "=== ALL UNIQUE PUBLISHERS ===" ++ nl ++ nl
  ++ nl ++ "Total unique publishers: 0" ++ nl
  ++ nl ++ "=== HUMAN-READABLE URL MAPPINGS ===" ++ nl ++ nl.

(** * Properties *)

(** ** The result monad *)

Lemma bind_ok {A B} (r : result A) (k : A -> result B) (b : B) :
  bind r k = Ok b -> exists a, r = Ok a /\ k a = Ok b.
Proof.
  destruct r as [a| |]; simpl; intros H; try discriminate.
  exists a; split; [reflexivity | exact H].
Qed.

Lemma for_each_app {S A} (body : S -> A -> result S) (l1 l2 : list A) (s : S) :
  for_each body (l1 ++ l2) s = (s' <- for_each body l1 s ;; for_each body l2 s').
Proof.
  revert s; induction l1 as [|x l1 IH]; intros s; simpl; [reflexivity|].
  destruct (body s x) as [s'| |]; simpl; [apply IH | reflexivity | reflexivity].
Qed.

(** A property kept by every step of a loop holds when the loop ends. *)
Lemma for_each_invariant {S A} (P : S -> Prop) (body : S -> A -> result S) :
  (forall s x s', P s -> body s x = Ok s' -> P s') ->
  forall l s s', P s -> for_each body l s = Ok s' -> P s'.
Proof.
  intros Hstep l; induction l as [|x l IH]; intros s s' Hs H; simpl in H.
  - injection H as <-; exact Hs.
  - apply bind_ok in H as (s1 & H1 & H2).
    apply (IH s1); [apply (Hstep s x) |]; assumption.
Qed.

(** ** Strings *)

Section Strings.
Import Py.
Local Open Scope string_scope.

Lemma append_assoc (a b c : string) : (a ++ b) ++ c = a ++ b ++ c.
Proof. induction a as [|x a IH]; simpl; [reflexivity | now rewrite IH]. Qed.

Lemma prefix_iff (n s : string) :
  String.prefix n s = true <-> exists b, s = n ++ b.
Proof.
  revert s; induction n as [|c n IH]; intros s.
  - split; [intros _; exists s; reflexivity | intros _; destruct s; reflexivity].
  - destruct s as [|d s]; simpl.
    + split; [discriminate | intros (b & Hb); discriminate].
    + destruct (ascii_dec c d) as [->|Hne].
      * rewrite IH. split; intros (b & Hb); exists b; [now rewrite Hb | now injection Hb].
      * split; [discriminate | intros (b & Hb); injection Hb as Hc _; congruence].
Qed.

Lemma str_in_unfold (n s : string) :
  str_in n s =
  if String.prefix n s then true
  else match s with
       | EmptyString => false
       | String _ s' => str_in n s'
       end.
Proof. destruct s; reflexivity. Qed.

(** [needle in s] holds exactly of the strings that have [needle] as a
    contiguous part. *)
Lemma str_in_iff (n s : string) :
  str_in n s = true <-> exists a b, s = a ++ n ++ b.
Proof.
  induction s as [|c s IH]; rewrite str_in_unfold.
  - destruct (String.prefix n "") eqn:Hp.
    + split; [intros _ | reflexivity].
      apply prefix_iff in Hp as (b & Hb). exists "", b. exact Hb.
    + split; [discriminate|]. intros (a & b & Hab).
      destruct a; [|discriminate]. simpl in Hab.
      assert (String.prefix n "" = true) by (apply prefix_iff; eauto).
      congruence.
  - destruct (String.prefix n (String c s)) eqn:Hp.
    + split; [intros _ | reflexivity].
      apply prefix_iff in Hp as (b & Hb). exists "", b. exact Hb.
    + rewrite IH. split.
      * intros (a & b & ->). exists (String c a), b. reflexivity.
      * intros (a & b & Hab). destruct a as [|d a].
        -- simpl in Hab.
           assert (String.prefix n (String c s) = true) by (apply prefix_iff; eauto).
           congruence.
        -- injection Hab as _ ->. eauto.
Qed.

Lemma has_char_app (c : ascii) (a b : string) :
  has_char c (a ++ b) = (has_char c a || has_char c b)%bool.
Proof.
  induction a as [|x a IH]; simpl; [reflexivity|].
  rewrite IH. now rewrite orb_assoc.
Qed.

Lemma item_last_cons {A} (x y : A) (l : list A) :
  item_last (x :: y :: l) = item_last (y :: l).
Proof.
  unfold item_last. simpl.
  destruct (rev l ++ [y])%list as [|z t] eqn:E.
  - destruct (rev l); discriminate.
  - reflexivity.
Qed.

Lemma str_split_cons (sep : ascii) (s : string) :
  exists seg segs, str_split sep s = seg :: segs.
Proof.
  destruct s as [|c s]; simpl; [eauto|].
  destruct (Ascii.eqb c sep); [eauto|].
  destruct (str_split sep s); eauto.
Qed.

(** Joining the items of [s.split(sep)] with [sep] gives [s] back. *)
Lemma str_split_join (sep : ascii) (s : string) :
  String.concat (String sep "") (str_split sep s) = s.
Proof.
  induction s as [|c s IH]; [reflexivity|].
  destruct (str_split_cons sep s) as (x & xs & Hx).
  simpl. rewrite Hx in *. destruct (Ascii.eqb c sep) eqn:Hc.
  - apply Ascii.eqb_eq in Hc as ->.
    change (String.concat (String sep "") ("" :: x :: xs))
      with (String sep (String.concat (String sep "") (x :: xs))).
    now rewrite IH.
  - destruct xs as [|y ys]; simpl in *; now rewrite IH.
Qed.

Lemma str_split_free (sep : ascii) (s : string) :
  Forall (fun seg => has_char sep seg = false) (str_split sep s).
Proof.
  induction s as [|c s IH]; simpl.
  - constructor; [reflexivity | constructor].
  - destruct (Ascii.eqb c sep) eqn:Hc.
    + constructor; [reflexivity | exact IH].
    + destruct (str_split sep s) as [|x xs].
      * constructor; [simpl; now rewrite Hc | constructor].
      * inversion IH as [|? ? Hx Hxs]; subst.
        constructor; [simpl; now rewrite Hc, Hx | exact Hxs].
Qed.

Lemma concat_last (sep : string) (x : string) (l : list string) :
  exists seg,
    item_last (x :: l) = Ok seg /\ In seg (x :: l) /\
    (String.concat sep (x :: l) = seg \/
     exists p, String.concat sep (x :: l) = p ++ sep ++ seg).
Proof.
  revert x; induction l as [|y l IH]; intros x.
  - exists x. repeat split; [now left | now left].
  - destruct (IH y) as (seg & Hlast & Hin & Hshape).
    exists seg. rewrite item_last_cons. split; [exact Hlast|].
    split; [now right|]. right.
    change (String.concat sep (x :: y :: l))
      with (x ++ sep ++ String.concat sep (y :: l)).
    destruct Hshape as [->|(p & ->)].
    + exists x. reflexivity.
    + exists (x ++ sep ++ p). now rewrite !append_assoc.
Qed.

(** The last item of [s.split(sep)] is free of [sep], and [s] is either
    that item or ends with [sep] followed by it. *)
Lemma split_last_segment (sep : ascii) (s : string) :
  exists seg,
    item_last (str_split sep s) = Ok seg /\
    has_char sep seg = false /\
    (s = seg \/ exists p, s = p ++ String sep seg).
Proof.
  destruct (str_split_cons sep s) as (x & xs & Hx).
  destruct (concat_last (String sep "") x xs) as (seg & Hlast & Hin & Hshape).
  rewrite <- Hx, str_split_join in Hshape. rewrite <- Hx in Hlast, Hin.
  exists seg. split; [exact Hlast|]. split; [|exact Hshape].
  pose proof (str_split_free sep s) as Hfree.
  rewrite Forall_forall in Hfree. now apply Hfree.
Qed.

(** A string that has a part with [c] in it has [c] in it. *)
Lemma str_in_has_char (c : ascii) (n s : string) :
  has_char c n = true -> str_in n s = true -> has_char c s = true.
Proof.
  intros Hn Hs. apply str_in_iff in Hs as (a & b & ->).
  rewrite !has_char_app, Hn. now rewrite orb_true_r.
Qed.

End Strings.

(** ** Text *)

Section Text.
Import Py.
Local Open Scope string_scope.

Lemma utf8_run_app (q : utf8_state) (a b : string) :
  utf8_run q (a ++ b) = utf8_run (utf8_run q a) b.
Proof. revert q. induction a as [|c a IH]; intros q; simpl; auto. Qed.

Lemma utf8_run_broken (s : string) : utf8_run Broken s = Broken.
Proof. induction s as [|c s IH]; simpl; auto. Qed.

(** Only between two code points can a byte begin a character. *)
Lemma utf8_step_lead (q : utf8_state) (c : ascii) :
  is_cont c = false -> utf8_step q c <> Broken -> q = Boundary.
Proof.
  destruct q; try reflexivity;
    destruct c as [b0 b1 b2 b3 b4 b5 [] []]; simpl; intros H H'; try discriminate H;
    try (now destruct H');
    destruct b5; now destruct H'.
Qed.

Lemma utf8_step_ascii (q : utf8_state) (c : ascii) :
  is_ascii_char c = true -> utf8_step q c <> Broken ->
  q = Boundary /\ utf8_step q c = Boundary.
Proof.
  intros Hc Hq.
  assert (Hcont : is_cont c = false).
  { destruct c as [b0 b1 b2 b3 b4 b5 b6 []]; [discriminate Hc | reflexivity]. }
  rewrite (utf8_step_lead q c Hcont Hq). split; [reflexivity|].
  destruct c as [[] [] [] [] [] [] [] []]; try discriminate Hc; reflexivity.
Qed.

Lemma encodable_iff (s : string) :
  encodable s = true <-> utf8_run Boundary s = Boundary.
Proof.
  unfold encodable. destruct (utf8_run Boundary s); split; congruence.
Qed.

Lemma utf8_run_head (q : utf8_state) (c : ascii) (s : string) :
  utf8_run q (String c s) = Boundary -> utf8_step q c <> Broken.
Proof.
  simpl. intros H E. rewrite E, utf8_run_broken in H. discriminate.
Qed.

Lemma encodable_app (a b : string) :
  encodable a = true -> encodable b = true -> encodable (a ++ b) = true.
Proof.
  rewrite !encodable_iff, utf8_run_app. now intros ->.
Qed.

(** An ASCII character stands between two code points. *)
Lemma utf8_run_ascii (q : utf8_state) (a : string) (c : ascii) (b : string) :
  is_ascii_char c = true -> utf8_run q (a ++ String c b) = Boundary ->
  utf8_run q a = Boundary /\ utf8_run Boundary b = Boundary.
Proof.
  intros Hc. rewrite utf8_run_app. intros H.
  destruct (utf8_step_ascii _ c Hc (utf8_run_head _ c b H)) as (Hq & Hstep).
  split; [exact Hq|]. cbn [utf8_run] in H. now rewrite Hstep in H.
Qed.

Lemma encodable_split (a : string) (c : ascii) (b : string) :
  is_ascii_char c = true -> encodable (a ++ String c b) = true ->
  encodable a = true /\ encodable b = true.
Proof. rewrite !encodable_iff. apply utf8_run_ascii. Qed.

Lemma is_ascii_run (s : string) :
  is_ascii s = true -> utf8_run Boundary s = Boundary.
Proof.
  induction s as [|c s IH]; [reflexivity|]. cbn [is_ascii utf8_run].
  rewrite andb_true_iff. intros (Hc & Hs).
  assert (E : utf8_step Boundary c = Boundary).
  { destruct c as [[] [] [] [] [] [] [] []]; try discriminate Hc;
      reflexivity. }
  rewrite E. now apply IH.
Qed.

Lemma is_ascii_encodable (s : string) :
  is_ascii s = true -> encodable s = true.
Proof. intros H. now apply encodable_iff, is_ascii_run. Qed.

Lemma is_ascii_app (a b : string) :
  is_ascii (a ++ b) = (is_ascii a && is_ascii b)%bool.
Proof.
  induction a as [|c a IH]; [reflexivity|]. simpl.
  now rewrite IH, andb_assoc.
Qed.

Lemma uint_ascii (d : Decimal.uint) :
  is_ascii (NilEmpty.string_of_uint d) = true.
Proof. induction d; simpl; auto. Qed.

Lemma nat_str_ascii (n : nat) : is_ascii (nat_str n) = true.
Proof.
  unfold nat_str, NilZero.string_of_uint.
  destruct (Nat.to_uint n) eqn:E; try reflexivity; rewrite <- E;
    apply uint_ascii.
Qed.

(** *** Slices *)

Lemma take_rest_run (n : nat) (s : string) (q : utf8_state) :
  utf8_run q s = Boundary -> utf8_run q (take_rest n s) = Boundary.
Proof.
  revert n q. induction s as [|c s IH]; intros n q H; [exact H|].
  cbn [take_rest]. destruct (is_cont c) eqn:Hc.
  - simpl in *. now apply IH.
  - pose proof (utf8_step_lead q c Hc (utf8_run_head q c s H)) as ->.
    destruct n as [|n]; [reflexivity|]. simpl in *. now apply IH.
Qed.

(** A slice of a text without surrogate holds none. *)
Lemma encodable_take (n : nat) (s : string) :
  encodable s = true -> encodable (str_take n s) = true.
Proof.
  rewrite !encodable_iff. intros H.
  destruct n as [|n], s as [|c s]; try reflexivity.
  cbn [str_take]. simpl in *. now apply take_rest_run.
Qed.

Lemma take_rest_prefix (p r : string) :
  starts_char r -> take_rest (chars p) (p ++ r) = p.
Proof.
  intros Hr. induction p as [|c p IH].
  - destruct r as [|c r]; [reflexivity|]. simpl in *. now rewrite Hr.
  - cbn [chars append take_rest]. destruct (is_cont c); now rewrite IH.
Qed.

Lemma take_rest_all (n : nat) (s : string) :
  chars s <= n -> take_rest n s = s.
Proof.
  revert n. induction s as [|c s IH]; intros n H; [reflexivity|].
  cbn [chars take_rest] in *. destruct (is_cont c).
  - now rewrite IH.
  - destruct n as [|n]; [lia|]. rewrite IH; [reflexivity | lia].
Qed.

(** [s[:n]] is the part of [s] before its character number [n]. *)
Lemma str_take_prefix (n : nat) (p r : string) :
  starts_char p -> starts_char r -> chars p = n ->
  str_take n (p ++ r) = p.
Proof.
  intros Hp Hr <-. destruct p as [|c p]; [reflexivity|].
  simpl in Hp. cbn [chars append str_take]. rewrite Hp.
  cbn [str_take]. now rewrite take_rest_prefix.
Qed.

(** [s[:n]] is [s] when [s] has no more than [n] characters. *)
Lemma str_take_all (n : nat) (s : string) :
  starts_char s -> chars s <= n -> str_take n s = s.
Proof.
  intros Hs H. destruct s as [|c s]; [now destruct n|].
  simpl in Hs. cbn [chars] in H. rewrite Hs in H.
  destruct n as [|n]; [lia|]. cbn [str_take].
  rewrite take_rest_all; [reflexivity | lia].
Qed.

Lemma concat_cons (x : string) (l : list string) :
  String.concat "" (x :: l) = x ++ String.concat "" l.
Proof.
  destruct l as [|y l]; simpl; [|reflexivity].
  induction x as [|c x IH]; simpl; [reflexivity | now rewrite <- IH].
Qed.

Lemma str_chars_take (c : ascii) (s : string) (n : nat) :
  String.concat "" (firstn (S n) (str_chars (String c s)))
  = String c (take_rest n s).
Proof.
  revert c n. induction s as [|c' s IH]; intros c n; [now destruct n|].
  cbn [str_chars take_rest]. destruct (is_cont c') eqn:Hc.
  - specialize (IH c' n). cbn [str_chars] in IH.
    destruct (match s with
              | "" => [String c' ""]
              | String c'' _ =>
                  if is_cont c''
                  then match str_chars s with
                       | ch :: chs => String c' ch :: chs
                       | [] => [String c' ""]
                       end
                  else String c' "" :: str_chars s
              end) as [|ch chs] eqn:E.
    + destruct s as [|c'' s]; [discriminate|].
      destruct (is_cont c''); [destruct (str_chars (String c'' s))|];
        discriminate.
    + cbn [firstn] in *. rewrite concat_cons in *. simpl. now rewrite IH.
  - cbn [firstn]. rewrite concat_cons. simpl. f_equal.
    destruct n as [|n]; [reflexivity|]. apply IH.
Qed.

(** The slice is made of the first [n] items of [list(s)]. *)
Lemma str_take_first_chars (n : nat) (s : string) :
  str_take n s = first_chars n s.
Proof.
  unfold first_chars. destruct n as [|n]; [now destruct s|].
  destruct s as [|c s]; [reflexivity|].
  now rewrite str_chars_take.
Qed.

(** *** Replacing and lowering ASCII characters *)

Lemma str_replace_run (old : ascii) (new s : string) (q : utf8_state) :
  is_ascii_char old = true -> utf8_run Boundary new = Boundary ->
  utf8_run q s = Boundary -> utf8_run q (str_replace old new s) = Boundary.
Proof.
  intros Hold Hnew. revert q. induction s as [|c s IH]; intros q H; [exact H|].
  cbn [str_replace]. destruct (Ascii.eqb c old) eqn:Hc.
  - apply Ascii.eqb_eq in Hc as ->.
    destruct (utf8_step_ascii q old Hold (utf8_run_head q old s H))
      as (-> & Hstep).
    rewrite utf8_run_app, Hnew. apply IH. cbn [utf8_run] in H.
    now rewrite Hstep in H.
  - cbn [utf8_run] in *. now apply IH.
Qed.

Lemma encodable_replace (old : ascii) (new s : string) :
  is_ascii_char old = true -> encodable new = true ->
  encodable s = true -> encodable (str_replace old new s) = true.
Proof. rewrite !encodable_iff. apply str_replace_run. Qed.

Lemma lower_char_spec (c : ascii) : lower_char c = spec_lower_char c.
Proof. destruct c as [[] [] [] [] [] [] [] []]; reflexivity. Qed.

Lemma ascii_lower_spec (s : string) : ascii_lower s = spec_lower s.
Proof.
  induction s as [|c s IH]; [reflexivity|]. simpl.
  now rewrite lower_char_spec, IH.
Qed.

Lemma lower_char_step (q : utf8_state) (c : ascii) :
  utf8_step q (lower_char c) = utf8_step q c.
Proof. destruct q, c as [[] [] [] [] [] [] [] []]; reflexivity. Qed.

Lemma lower_char_ascii (c : ascii) :
  is_ascii_char (lower_char c) = is_ascii_char c.
Proof. destruct c as [[] [] [] [] [] [] [] []]; reflexivity. Qed.

Lemma ascii_lower_ascii (s : string) : is_ascii (ascii_lower s) = is_ascii s.
Proof.
  induction s as [|c s IH]; [reflexivity|]. simpl.
  now rewrite lower_char_ascii, IH.
Qed.

(** Lowering the ASCII letters of a text is one way to meet what is
    assumed of [str.lower]. *)
Lemma ascii_lower_run (q : utf8_state) (s : string) :
  utf8_run q (ascii_lower s) = utf8_run q s.
Proof.
  revert q. induction s as [|c s IH]; intros q; [reflexivity|].
  cbn [ascii_lower utf8_run]. now rewrite lower_char_step, IH.
Qed.

Lemma ascii_lower_python : python_lower ascii_lower.
Proof.
  split; [reflexivity|].
  intros s. unfold encodable. now rewrite ascii_lower_run.
Qed.

(** The last item of a split of a text without surrogate holds none. *)
Lemma encodable_segment (u seg : string) :
  encodable u = true -> item_last (str_split "/" u) = Ok seg ->
  encodable seg = true.
Proof.
  intros Hu Hseg.
  destruct (split_last_segment "/" u) as (seg' & Hlast & _ & Hshape).
  rewrite Hseg in Hlast. injection Hlast as <-.
  destruct Hshape as [->|(p & ->)]; [exact Hu|].
  now apply (encodable_split p "/" seg).
Qed.

End Text.

(** ** The GUID rules *)

Section GuidRules.
Import Py.

Lemma wavlake_segment (u : string) :
  str_in "wavlake.com/feed/artist/" u = true ->
  exists p seg,
    u = (p ++ "/" ++ seg)%string /\ has_char "/" seg = false /\
    item_last (str_split "/" u) = Ok seg.
Proof.
  intros Hu.
  destruct (split_last_segment "/" u) as (seg & Hlast & Hfree & Hshape).
  destruct Hshape as [->|(p & Hp)].
  - apply (str_in_has_char "/") in Hu; [congruence | reflexivity].
  - exists p, seg. auto.
Qed.

Lemma EP_primary_feed_publisher (fields : list (string * json))
  (publishers : dict EP.info) :
  assoc "type" fields = Some (JStr "publisher") ->
  EP.primary_feed publishers (JObj fields) =
  ('(k, entry) <- EP.publisher_entry (JObj fields) ;;
   dict_store k entry publishers).
Proof.
  intros Hty. unfold EP.primary_feed, get, field. rewrite Hty. reflexivity.
Qed.

Lemma FS_primary_feed_publisher (fields : list (string * json))
  (publishers : dict FS.info) :
  assoc "type" fields = Some (JStr "publisher") ->
  FS.primary_feed publishers (JObj fields) =
  ('(k, entry) <- FS.publisher_entry (JObj fields) ;;
   dict_store k entry publishers).
Proof.
  intros Hty. unfold FS.primary_feed, get, field. rewrite Hty. reflexivity.
Qed.

(** What the second script stores for a feed whose URL gives the GUID
    [g], provided the nested [publisherInfo] can be read. *)
Lemma FS_publisher_entry_guid (fields : list (string * json)) (u : json)
  (g k : json) (entry : FS.info) :
  assoc "originalUrl" fields = Some u ->
  FS.feed_guid_of u = Ok g ->
  FS.publisher_entry (JObj fields) = Ok (k, entry) ->
  k = g /\ FS.feedGuid entry = g /\ FS.feedUrl entry = u /\
  FS.title entry = field fields "title" (JStr "").
Proof.
  intros Hu Hg. unfold FS.publisher_entry, get, field at 1. rewrite Hu.
  simpl. rewrite Hg. simpl. intros H.
  apply bind_ok in H as (pi & _ & H).
  apply bind_ok in H as (pn & _ & H).
  apply bind_ok in H as (pa & _ & H).
  apply bind_ok in H as (pd & _ & H).
  injection H as <- <-. auto.
Qed.

End GuidRules.

(** C2: a publisher feed whose [originalUrl] contains
    "wavlake.com/feed/artist/" gets as GUID the final "/"-delimited segment
    of the URL, in both scripts, and is stored under it with its title; the
    scenario record is stored under "abc123" with title "Artist X". *)
Theorem wavlake_guid_is_last_segment
  (fields : list (string * json)) (u : string) :
  Py.assoc "type" fields = Some (JStr "publisher") ->
  Py.assoc "originalUrl" fields = Some (JStr u) ->
  Py.str_in "wavlake.com/feed/artist/" u = true ->
  exists p seg : string,
    u = (p ++ "/" ++ seg)%string /\ Py.has_char "/" seg = false /\
    Py.item_last (Py.str_split "/" u) = Ok seg /\
    EP.feed_guid_of (JStr u) = Ok (JStr seg) /\
    FS.feed_guid_of (JStr u) = Ok (JStr seg) /\
    (forall publishers,
        EP.primary_feed publishers (JObj fields) =
        Ok (Py.dict_set (JStr seg)
              {| EP.feedGuid := JStr seg; EP.feedUrl := JStr u;
                 EP.title := Py.field fields "title" (JStr "");
                 EP.id := Py.field fields "id" (JStr "");
                 EP.parsedData := Py.field fields "parsedData" (JObj []) |}
              publishers)) /\
    (forall publishers k entry,
        FS.publisher_entry (JObj fields) = Ok (k, entry) ->
        FS.feedGuid entry = JStr seg /\
        FS.title entry = Py.field fields "title" (JStr "") /\
        FS.primary_feed publishers (JObj fields) =
        Ok (Py.dict_set (JStr seg) entry publishers)) /\
    EP.extract_publishers (document [wavlake_feed]) =
    Ok ([(JStr "abc123",
          {| EP.feedGuid := JStr "abc123";
             EP.feedUrl := JStr "https://wavlake.com/feed/artist/abc123";
             EP.title := JStr "Artist X"; EP.id := JStr "";
             EP.parsedData := JObj [] |})], []) /\
    (forall set_order,
        set_order (@nil (json * json)) = [] ->
        FS.extract_all_publishers set_order (document [wavlake_feed]) =
        Ok [(JStr "abc123",
             {| FS.feedGuid := JStr "abc123";
                FS.feedUrl := JStr "https://wavlake.com/feed/artist/abc123";
                FS.title := JStr "Artist X"; FS.id := JStr "";
                FS.publisherName := JStr ""; FS.artist := JStr "";
                FS.description := JStr "";
                FS.status := JStr ""; FS.priority := JStr "" |})]).
Proof.
  intros Hty Hu Hin.
  destruct (wavlake_segment u Hin) as (p & seg & Hshape & Hfree & Hlast).
  exists p, seg.
  assert (HE : EP.feed_guid_of (JStr u) = Ok (JStr seg)).
  { unfold EP.feed_guid_of. simpl. rewrite Hin. simpl. now rewrite Hlast. }
  assert (HF : FS.feed_guid_of (JStr u) = Ok (JStr seg)).
  { unfold FS.feed_guid_of. simpl. rewrite Hin. simpl. now rewrite Hlast. }
  repeat match goal with |- _ /\ _ => split end; auto.
  - intros publishers. rewrite EP_primary_feed_publisher by exact Hty.
    unfold EP.publisher_entry, Py.get. unfold Py.field at 1. rewrite Hu.
    simpl. rewrite HE. reflexivity.
  - intros publishers k entry He.
    destruct (FS_publisher_entry_guid fields _ _ _ _ Hu HF He) as (-> & Hg & _ & Ht).
    repeat split; auto.
    rewrite FS_primary_feed_publisher by exact Hty. rewrite He. reflexivity.
  - intros set_order Hnil. unfold FS.extract_all_publishers.
    change (FS.collect_references (document [wavlake_feed])) with (@Ok (list (json * json)) []).
    simpl. rewrite Hnil. reflexivity.
Qed.

Lemma wavlake_guid_is_last_segment_witness :
  let u := "https://wavlake.com/feed/artist/abc123" in
  let fields := [("type", JStr "publisher"); ("originalUrl", JStr u);
                 ("title", JStr "Artist X")] in
  Py.assoc "type" fields = Some (JStr "publisher") /\
  Py.assoc "originalUrl" fields = Some (JStr u) /\
  Py.str_in "wavlake.com/feed/artist/" u = true /\
  exists p seg : string,
    u = (p ++ "/" ++ seg)%string /\
    EP.feed_guid_of (JStr u) = Ok (JStr seg).
Proof.
  cbv zeta. do 3 (split; [reflexivity|]).
  destruct (@wavlake_guid_is_last_segment
              [("type", JStr "publisher");
               ("originalUrl", JStr "https://wavlake.com/feed/artist/abc123");
               ("title", JStr "Artist X")]
              "https://wavlake.com/feed/artist/abc123"
              eq_refl eq_refl eq_refl)
    as (p & seg & Hshape & _ & _ & HE & _).
  exists p, seg. split; assumption.
Defined.

(** C3, as claimed, fails: the Wavlake rule is tried first, so a URL that
    contains the BitPunk path after the Wavlake one gets its last segment
    as GUID, not the fixed literal. *)
Lemma bitpunk_guid_counterexample :
  let u := "https://wavlake.com/feed/artist/zine.bitpunk.fm/feeds/publisher.xml" in
  let feed := JObj [("type", JStr "publisher"); ("originalUrl", JStr u)] in
  Py.str_in "zine.bitpunk.fm/feeds/publisher.xml" u = true /\
  EP.feed_guid_of (JStr u) = Ok (JStr "publisher.xml") /\
  FS.feed_guid_of (JStr u) = Ok (JStr "publisher.xml") /\
  (EP.primary_scan (document [feed]) =
   Ok [(JStr "publisher.xml",
        {| EP.feedGuid := JStr "publisher.xml"; EP.feedUrl := JStr u;
           EP.title := JStr ""; EP.id := JStr "";
           EP.parsedData := JObj [] |})]) /\
  ~ (forall url : string,
        Py.str_in "zine.bitpunk.fm/feeds/publisher.xml" url = true ->
        EP.feed_guid_of (JStr url)
        = Ok (JStr "5883e6be-4e0c-11f0-9524-00155dc57d8e")).
Proof.
  cbv zeta. repeat split; try reflexivity.
  intros H.
  specialize (H "https://wavlake.com/feed/artist/zine.bitpunk.fm/feeds/publisher.xml" eq_refl).
  vm_compute in H. discriminate H.
Qed.

(** C3, amended: a publisher feed whose [originalUrl] contains
    "zine.bitpunk.fm/feeds/publisher.xml" and does not contain the Wavlake
    artist path gets the fixed GUID in both scripts, whatever its other
    fields hold. *)
Theorem bitpunk_guid_is_fixed (fields : list (string * json)) (u : string) :
  Py.assoc "type" fields = Some (JStr "publisher") ->
  Py.assoc "originalUrl" fields = Some (JStr u) ->
  Py.str_in "zine.bitpunk.fm/feeds/publisher.xml" u = true ->
  Py.str_in "wavlake.com/feed/artist/" u = false ->
  let fixed := JStr "5883e6be-4e0c-11f0-9524-00155dc57d8e" in
  EP.feed_guid_of (JStr u) = Ok fixed /\
  FS.feed_guid_of (JStr u) = Ok fixed /\
  (forall publishers,
      EP.primary_feed publishers (JObj fields) =
      Ok (Py.dict_set fixed
            {| EP.feedGuid := fixed; EP.feedUrl := JStr u;
               EP.title := Py.field fields "title" (JStr "");
               EP.id := Py.field fields "id" (JStr "");
               EP.parsedData := Py.field fields "parsedData" (JObj []) |}
            publishers)) /\
  (forall publishers k entry,
      FS.publisher_entry (JObj fields) = Ok (k, entry) ->
      FS.feedGuid entry = fixed /\
      FS.primary_feed publishers (JObj fields) =
      Ok (Py.dict_set fixed entry publishers)).
Proof.
  intros Hty Hu Hbit Hwav fixed.
  assert (HE : EP.feed_guid_of (JStr u) = Ok fixed).
  { unfold EP.feed_guid_of. simpl. rewrite Hwav. simpl. now rewrite Hbit. }
  assert (HF : FS.feed_guid_of (JStr u) = Ok fixed).
  { unfold FS.feed_guid_of. simpl. rewrite Hwav. simpl. now rewrite Hbit. }
  repeat match goal with |- _ /\ _ => split end; auto.
  - intros publishers. rewrite EP_primary_feed_publisher by exact Hty.
    unfold EP.publisher_entry, Py.get. unfold Py.field at 1. rewrite Hu.
    simpl. rewrite HE. reflexivity.
  - intros publishers k entry He.
    destruct (FS_publisher_entry_guid fields _ _ _ _ Hu HF He) as (-> & Hg & _ & Ht).
    split; auto.
    rewrite FS_primary_feed_publisher by exact Hty. rewrite He. reflexivity.
Qed.

Lemma bitpunk_guid_is_fixed_witness :
  let u := "https://zine.bitpunk.fm/feeds/publisher.xml" in
  let fields := [("type", JStr "publisher"); ("originalUrl", JStr u);
                 ("title", JStr "BitPunk")] in
  Py.assoc "type" fields = Some (JStr "publisher") /\
  Py.assoc "originalUrl" fields = Some (JStr u) /\
  Py.str_in "zine.bitpunk.fm/feeds/publisher.xml" u = true /\
  Py.str_in "wavlake.com/feed/artist/" u = false /\
  EP.feed_guid_of (JStr u) = Ok (JStr "5883e6be-4e0c-11f0-9524-00155dc57d8e").
Proof.
  cbv zeta. do 4 (split; [reflexivity|]).
  exact (proj1 (@bitpunk_guid_is_fixed
                  [("type", JStr "publisher");
                   ("originalUrl", JStr "https://zine.bitpunk.fm/feeds/publisher.xml");
                   ("title", JStr "BitPunk")]
                  "https://zine.bitpunk.fm/feeds/publisher.xml"
                  eq_refl eq_refl eq_refl eq_refl)).
Defined.

(** ** Dictionaries *)

Section Dict.
Import Py.

Lemma key_eqb_sym (a b : json) : key_eqb a b = key_eqb b a.
Proof.
  destruct a, b; simpl; try reflexivity;
    solve [ apply String.eqb_sym | apply Z.eqb_sym ].
Qed.

Lemma key_eqb_trans (a b c : json) :
  key_eqb a b = true -> key_eqb b c = true -> key_eqb a c = true.
Proof.
  unfold key_eqb.
  destruct a, b; simpl; try discriminate;
    destruct c; simpl; try discriminate; try reflexivity;
    rewrite ?Z.eqb_eq, ?String.eqb_eq; intros; congruence.
Qed.

Lemma key_eqb_refl (k : json) : hash k = Ok tt -> key_eqb k k = true.
Proof.
  destruct k; simpl; try discriminate; intros _;
    auto using String.eqb_refl, Z.eqb_refl.
Qed.

Context {V : Type}.
Implicit Types (d : dict V) (k q : json) (v : V).

Lemma dict_find_app k d1 d2 :
  dict_find k (d1 ++ d2) =
  match dict_find k d1 with Some v => Some v | None => dict_find k d2 end.
Proof.
  induction d1 as [|[k0 v0] d1 IH]; simpl; [reflexivity|].
  destruct (key_eqb k0 k); [reflexivity | exact IH].
Qed.

Lemma dict_mem_app k d1 d2 :
  dict_mem k (d1 ++ d2) = (dict_mem k d1 || dict_mem k d2)%bool.
Proof.
  unfold dict_mem. rewrite dict_find_app.
  destruct (dict_find k d1); reflexivity.
Qed.

(** Storing under a key the dict does not hold appends the entry. *)
Lemma dict_set_absent k v d :
  dict_mem k d = false -> dict_set k v d = d ++ [(k, v)].
Proof.
  unfold dict_mem. induction d as [|[k0 v0] d IH]; simpl; [reflexivity|].
  destruct (key_eqb k0 k); [discriminate|].
  intros H. now rewrite IH.
Qed.

Lemma dict_find_set_same k q v d :
  key_eqb k q = true -> dict_find q (dict_set k v d) = Some v.
Proof.
  intros Hkq. induction d as [|[k0 v0] d IH]; simpl.
  - now rewrite Hkq.
  - destruct (key_eqb k0 k) eqn:Hk0; simpl.
    + now rewrite (key_eqb_trans _ _ _ Hk0 Hkq).
    + destruct (key_eqb k0 q) eqn:Hq; [|exact IH].
      rewrite key_eqb_sym in Hkq.
      rewrite (key_eqb_trans _ _ _ Hq Hkq) in Hk0. discriminate.
Qed.

Lemma dict_find_set_other k q v d :
  key_eqb k q = false -> dict_find q (dict_set k v d) = dict_find q d.
Proof.
  intros Hkq. induction d as [|[k0 v0] d IH]; simpl.
  - now rewrite Hkq.
  - destruct (key_eqb k0 k) eqn:Hk0; simpl.
    + destruct (key_eqb k0 q) eqn:Hq; [|reflexivity].
      rewrite key_eqb_sym in Hk0.
      rewrite (key_eqb_trans _ _ _ Hk0 Hq) in Hkq. discriminate.
    + now rewrite IH.
Qed.

Lemma entries_under_set k q v d :
  entries_under q (dict_set k v d) =
  entries_under q d +
  (if dict_mem k d then 0 else if key_eqb k q then 1 else 0).
Proof.
  unfold entries_under, dict_mem.
  induction d as [|[k0 v0] d IH]; simpl.
  - destruct (key_eqb k q); reflexivity.
  - destruct (key_eqb k0 k) eqn:Hk0; simpl.
    + destruct (key_eqb k0 q); simpl; lia.
    + destruct (key_eqb k0 q); simpl; rewrite IH; lia.
Qed.

Lemma entries_under_absent k q d :
  dict_mem k d = false -> key_eqb k q = true -> entries_under q d = 0.
Proof.
  unfold entries_under, dict_mem. intros Hk Hkq.
  induction d as [|[k0 v0] d IH]; simpl in *; [reflexivity|].
  destruct (key_eqb k0 k) eqn:Hk0; [discriminate|].
  destruct (key_eqb k0 q) eqn:Hq; [|auto].
  rewrite key_eqb_sym in Hkq.
  rewrite (key_eqb_trans _ _ _ Hq Hkq) in Hk0. discriminate.
Qed.

(** A store keeps the keys of a dict pairwise different. *)
Lemma dict_set_unique k v d :
  (forall q, entries_under q d <= 1) ->
  forall q, entries_under q (dict_set k v d) <= 1.
Proof.
  intros Hd q. rewrite entries_under_set.
  destruct (dict_mem k d) eqn:Hk; [rewrite Nat.add_0_r; apply Hd|].
  destruct (key_eqb k q) eqn:Hkq; [|rewrite Nat.add_0_r; apply Hd].
  now rewrite (entries_under_absent _ _ _ Hk Hkq).
Qed.

End Dict.


(** ** The primary scan, for both scripts *)

Section PrimaryScan.
Import Py.
Context {V : Type}.
Variable publisher_entry : json -> result (json * V).
Variable primary_feed : dict V -> json -> result (dict V).

Hypothesis primary_feed_eq : forall publishers feed,
  primary_feed publishers feed =
  (ty <- get feed "type" JNull ;;
   if eq_str ty "publisher" then
     '(k, e) <- publisher_entry feed ;; dict_store k e publishers
   else Ok publishers).

Hypothesis entry_key : forall feed k e,
  publisher_entry feed = Ok (k, e) -> hash k = Ok tt.

Lemma primary_feed_cases publishers feed publishers' :
  primary_feed publishers feed = Ok publishers' ->
  (is_publisher feed = false /\ publishers' = publishers) \/
  (is_publisher feed = true /\
   exists k e, publisher_entry feed = Ok (k, e) /\
               publishers' = dict_set k e publishers).
Proof.
  rewrite primary_feed_eq. destruct feed; simpl; try discriminate.
  destruct (eq_str (field fields "type" JNull) "publisher").
  - intros H. apply bind_ok in H as ([k e] & He & H).
    unfold dict_store in H. rewrite (entry_key _ _ _ He) in H. simpl in H.
    injection H as <-. right. split; [reflexivity|]. eauto.
  - intros H. injection H as <-. now left.
Qed.

Lemma primary_scan_unique feeds publishers :
  for_each primary_feed feeds [] = Ok publishers ->
  forall q, entries_under q publishers <= 1.
Proof.
  apply (for_each_invariant (fun d => forall q, entries_under q d <= 1)).
  - intros s x s' Hs Hstep.
    destruct (primary_feed_cases _ _ _ Hstep) as [(_ & ->)|(_ & k & e & _ & ->)].
    + exact Hs.
    + now apply dict_set_unique.
  - intros q. unfold entries_under. simpl. lia.
Qed.


End PrimaryScan.

Section ScriptsPrimary.
Import Py.

Lemma split_last_kind (u g : json) :
  split_last u = Ok g -> exists s, g = JStr s.
Proof.
  destruct u; simpl; try discriminate.
  intros H. apply bind_ok in H as (seg & _ & H). injection H as <-. eauto.
Qed.

Lemma EP_feed_guid_kind (u g : json) :
  EP.feed_guid_of u = Ok g -> g = JNull \/ exists s, g = JStr s.
Proof.
  unfold EP.feed_guid_of. intros H.
  apply bind_ok in H as ([|] & _ & H).
  - right. eapply split_last_kind; eauto.
  - apply bind_ok in H as ([|] & _ & H); injection H as <-; eauto.
Qed.

Lemma FS_feed_guid_kind (u g : json) :
  FS.feed_guid_of u = Ok g -> g = JNull \/ exists s, g = JStr s.
Proof.
  unfold FS.feed_guid_of. intros H.
  apply bind_ok in H as ([|] & _ & H).
  - right. eapply split_last_kind; eauto.
  - apply bind_ok in H as ([|] & _ & H); [injection H as <-; eauto|].
    apply bind_ok in H as ([|] & _ & H); injection H as <-; eauto.
Qed.

Lemma EP_entry_key feed k e :
  EP.publisher_entry feed = Ok (k, e) ->
  (k = JNull \/ exists s, k = JStr s) /\ EP.feedGuid e = k.
Proof.
  unfold EP.publisher_entry. intros H.
  apply bind_ok in H as (u & _ & H).
  apply bind_ok in H as (g & Hg & H).
  apply bind_ok in H as (t & _ & H).
  apply bind_ok in H as (i & _ & H).
  apply bind_ok in H as (pd & _ & H).
  injection H as <- <-. split; [|reflexivity].
  eapply EP_feed_guid_kind; eauto.
Qed.

Lemma FS_entry_key feed k e :
  FS.publisher_entry feed = Ok (k, e) ->
  (k = JNull \/ exists s, k = JStr s) /\ FS.feedGuid e = k.
Proof.
  unfold FS.publisher_entry. intros H.
  apply bind_ok in H as (u & _ & H).
  apply bind_ok in H as (g & Hg & H).
  do 9 (apply bind_ok in H as (? & _ & H)).
  injection H as <- <-. split; [|reflexivity].
  eapply FS_feed_guid_kind; eauto.
Qed.

Lemma kind_hash (k : json) :
  (k = JNull \/ exists s, k = JStr s) -> hash k = Ok tt.
Proof. intros [->|(s & ->)]; reflexivity. Qed.

Lemma EP_entry_hash feed k e :
  EP.publisher_entry feed = Ok (k, e) -> hash k = Ok tt.
Proof. intros H. apply kind_hash. eapply EP_entry_key; eauto. Qed.

Lemma FS_entry_hash feed k e :
  FS.publisher_entry feed = Ok (k, e) -> hash k = Ok tt.
Proof. intros H. apply kind_hash. eapply FS_entry_key; eauto. Qed.



End ScriptsPrimary.



(** ** The reference scan *)

Section ReferenceScan.
Import Py.

Lemma truthy_not_null (k : json) : truthy k = true -> k <> JNull.
Proof. intros H ->. discriminate. Qed.

Lemma dict_contains_ok {V} (k : json) (d : dict V) (b : bool) :
  dict_contains k d = Ok b -> hash k = Ok tt /\ b = dict_mem k d.
Proof.
  unfold dict_contains. destruct (hash k) as [[]| |]; simpl; try discriminate.
  intros H. injection H as <-. auto.
Qed.

Lemma dict_store_ok {V} (k : json) (v : V) (d d' : dict V) :
  dict_store k v d = Ok d' -> hash k = Ok tt /\ d' = dict_set k v d.
Proof.
  unfold dict_store. destruct (hash k) as [[]| |]; simpl; try discriminate.
  intros H. injection H as <-. auto.
Qed.

(** A step of the second loop of the first script leaves both maps as
    they are, or appends an entry under a true key the map does not
    hold. *)
Lemma EP_reference_feed_cases (publishers : dict EP.info)
  (references : dict EP.reference) (feed : json)
  (st' : dict EP.info * dict EP.reference) :
  EP.reference_feed (publishers, references) feed = Ok st' ->
  st' = (publishers, references) \/
  exists k e r,
    truthy k = true /\ dict_mem k publishers = false /\
    EP_synthesized (k, e) /\
    st' = (publishers ++ [(k, e)], dict_set k r references).
Proof.
  unfold EP.reference_feed. intros H.
  apply bind_ok in H as (pd & _ & H).
  apply bind_ok in H as ([|] & _ & H); [|injection H as <-; now left].
  apply bind_ok in H as (album & _ & H).
  apply bind_ok in H as (pi & _ & H).
  apply bind_ok in H as (medium & _ & H).
  destruct (eq_str medium "publisher"); [|injection H as <-; now left].
  apply bind_ok in H as (k & _ & H).
  destruct (truthy k) eqn:Hk; [|injection H as <-; now left].
  apply bind_ok in H as (known & Hknown & H).
  apply dict_contains_ok in Hknown as (Hhash & ->).
  destruct (dict_mem k publishers) eqn:Hmem; [injection H as <-; now left|].
  apply bind_ok in H as (artist_name & _ & H).
  apply bind_ok in H as (ref_url & _ & H).
  apply bind_ok in H as (ref_title & _ & H).
  apply bind_ok in H as (g & Hg & H).
  apply bind_ok in H as (publishers' & Hstore & H).
  apply dict_store_ok in Hstore as (_ & ->).
  apply bind_ok in H as (feed_title & _ & H).
  apply bind_ok in H as (references' & Hstore & H).
  apply dict_store_ok in Hstore as (_ & ->).
  injection H as <-. right.
  rewrite (dict_set_absent _ _ _ Hmem).
  do 3 eexists. split; [exact Hk|]. split; [exact Hmem|].
  split; [|reflexivity].
  repeat split. exists g. split; [exact Hg | reflexivity].
Qed.

(** A step of the third loop of the second script leaves the map as it
    is, or appends an entry under a true key the map does not hold. *)
Lemma FS_missing_publisher_cases (publishers publishers' : dict FS.info)
  (ref : json * json) :
  FS.missing_publisher publishers ref = Ok publishers' ->
  publishers' = publishers \/
  exists e,
    truthy (fst ref) = true /\ dict_mem (fst ref) publishers = false /\
    FS_synthesized (fst ref, e) /\ FS.feedUrl e = snd ref /\
    publishers' = publishers ++ [(fst ref, e)].
Proof.
  destruct ref as [k url]. unfold FS.missing_publisher. simpl. intros H.
  destruct (truthy k) eqn:Hk; [|injection H as <-; now left].
  apply bind_ok in H as (known & Hknown & H).
  apply dict_contains_ok in Hknown as (Hhash & ->).
  destruct (dict_mem k publishers) eqn:Hmem; [injection H as <-; now left|].
  apply bind_ok in H as (name & _ & H).
  apply bind_ok in H as (g & Hg & H).
  apply dict_store_ok in H as (_ & ->). right.
  rewrite (dict_set_absent _ _ _ Hmem).
  refine (ex_intro _ _ (conj _ (conj _ (conj _ (conj _ eq_refl)))));
    simpl; try reflexivity.
  repeat split. exists g. split; [exact Hg | reflexivity].
Qed.

Lemma extends_refl {V} (synthesized : json * V -> Prop) (primary : dict V) :
  (forall q, entries_under q primary <= 1) ->
  extends synthesized primary primary.
Proof.
  intros H. exists []. rewrite app_nil_r. repeat split; auto.
Qed.

Lemma extends_append {V} (synthesized : json * V -> Prop)
  (primary publishers : dict V) (k : json) (e : V) :
  extends synthesized primary publishers ->
  truthy k = true -> dict_mem k publishers = false -> synthesized (k, e) ->
  extends synthesized primary (publishers ++ [(k, e)]).
Proof.
  intros (added & -> & Huniq & Hadded) Hk Hmem Hsyn.
  exists (added ++ [(k, e)]). split; [now rewrite app_assoc|]. split.
  - rewrite <- (dict_set_absent k e _ Hmem). now apply dict_set_unique.
  - apply Forall_app. split; [exact Hadded|].
    constructor; [|constructor]. simpl.
    rewrite dict_mem_app in Hmem. apply orb_false_iff in Hmem as (Hp & _).
    auto using truthy_not_null.
Qed.

Lemma extends_find {V} (synthesized : json * V -> Prop)
  (primary publishers : dict V) (k : json) (v : V) :
  extends synthesized primary publishers ->
  dict_find k primary = Some v -> dict_find k publishers = Some v.
Proof.
  intros (added & -> & _) H. rewrite dict_find_app, H. reflexivity.
Qed.

(** The first script's final map extends the map of its primary scan. *)
Lemma EP_extract_extends (data : json) (publishers : dict EP.info)
  (references : dict EP.reference) :
  EP.extract_publishers data = Ok (publishers, references) ->
  exists primary,
    EP.primary_scan data = Ok primary /\
    extends EP_synthesized primary publishers.
Proof.
  intros H. unfold EP.extract_publishers in H.
  apply bind_ok in H as (primary & Hprimary & H).
  apply bind_ok in H as (feeds_v & _ & H).
  apply bind_ok in H as (feeds & _ & H).
  exists primary. split; [exact Hprimary|].
  assert (Huniq : forall q, entries_under q primary <= 1).
  { unfold EP.primary_scan in Hprimary.
    apply bind_ok in Hprimary as (? & _ & Hp).
    apply bind_ok in Hp as (fs & _ & Hp).
    exact (primary_scan_unique EP.publisher_entry EP.primary_feed
             (fun _ _ => eq_refl) EP_entry_hash fs primary Hp). }
  change publishers with (fst (publishers, references)). revert H.
  apply (for_each_invariant
           (fun st => extends EP_synthesized primary (fst st))).
  - intros [p r] feed st' Hp Hstep.
    apply EP_reference_feed_cases in Hstep
        as [->|(k & e & r' & Hk & Hmem & Hsyn & ->)]; [exact Hp|].
    simpl in *. now apply extends_append.
  - now apply extends_refl.
Qed.

(** So does the second script's, in whatever order the set is met. *)
Lemma FS_extract_extends (set_order : list (json * json) -> list (json * json))
  (data : json) (publishers : dict FS.info) :
  FS.extract_all_publishers set_order data = Ok publishers ->
  exists primary,
    FS.primary_scan data = Ok primary /\
    extends FS_synthesized primary publishers.
Proof.
  intros H. unfold FS.extract_all_publishers in H.
  apply bind_ok in H as (primary & Hprimary & H).
  apply bind_ok in H as (refs & _ & H).
  exists primary. split; [exact Hprimary|].
  assert (Huniq : forall q, entries_under q primary <= 1).
  { unfold FS.primary_scan in Hprimary.
    apply bind_ok in Hprimary as (? & _ & Hp).
    apply bind_ok in Hp as (fs & _ & Hp).
    exact (primary_scan_unique FS.publisher_entry FS.primary_feed
             (fun _ _ => eq_refl) FS_entry_hash fs primary Hp). }
  revert H. apply (for_each_invariant (extends FS_synthesized primary)).
  - intros p ref p' Hp Hstep.
    apply FS_missing_publisher_cases in Hstep
        as [->|(e & Hk & Hmem & Hsyn & _ & ->)]; [exact Hp|].
    now apply extends_append.
  - now apply extends_refl.
Qed.

End ReferenceScan.

(** C1: in both scripts the final map is the map of the primary scan
    followed by the synthesized entries; no two entries share a key; every
    entry of the primary scan is found unchanged; and an entry is
    synthesized only under a key that is true, hence not null, and absent
    from the map of the primary scan. *)
Theorem reference_scan_never_overwrites (data : json) :
  (forall publishers references,
      EP.extract_publishers data = Ok (publishers, references) ->
      exists primary added,
        EP.primary_scan data = Ok primary /\
        publishers = primary ++ added /\
        (forall q, entries_under q publishers <= 1) /\
        (forall k v, Py.dict_find k primary = Some v ->
                     Py.dict_find k publishers = Some v) /\
        Forall (fun e => Py.truthy (fst e) = true /\ fst e <> JNull /\
                         Py.dict_mem (fst e) primary = false /\
                         EP_synthesized e) added) /\
  (forall set_order publishers,
      FS.extract_all_publishers set_order data = Ok publishers ->
      exists primary added,
        FS.primary_scan data = Ok primary /\
        publishers = primary ++ added /\
        (forall q, entries_under q publishers <= 1) /\
        (forall k v, Py.dict_find k primary = Some v ->
                     Py.dict_find k publishers = Some v) /\
        Forall (fun e => Py.truthy (fst e) = true /\ fst e <> JNull /\
                         Py.dict_mem (fst e) primary = false /\
                         FS_synthesized e) added).
Proof.
  split.
  - intros publishers references H.
    destruct (EP_extract_extends data publishers references H)
      as (primary & Hprimary & Hext).
    exists primary. destruct Hext as (added & Heq & Hu & Hall).
    exists added. repeat split; auto.
    intros k v. apply (extends_find EP_synthesized). exists added; auto.
  - intros set_order publishers H.
    destruct (FS_extract_extends set_order data publishers H)
      as (primary & Hprimary & Hext).
    exists primary. destruct Hext as (added & Heq & Hu & Hall).
    exists added. repeat split; auto.
    intros k v. apply (extends_find FS_synthesized). exists added; auto.
Qed.

Lemma reference_scan_never_overwrites_witness :
  let data := document [wavlake_feed; album_feed] in
  exists publishers references primary added,
    EP.extract_publishers data = Ok (publishers, references) /\
    EP.primary_scan data = Ok primary /\
    publishers = primary ++ added /\
    (forall q, entries_under q publishers <= 1).
Proof.
  cbv zeta.
  destruct (reference_scan_never_overwrites
              (document [wavlake_feed; album_feed])) as (HE & _).
  destruct (HE _ _ eq_refl) as (primary & added & Hp & Heq & Hu & _).
  eexists. eexists. exists primary, added.
  split; [reflexivity|]. auto.
Defined.

(** ** Synthesized entries *)

Section Placeholders.
Import Py.

Lemma field_some (kvs : list (string * json)) (k : string) (v dflt : json) :
  assoc k kvs = Some v -> field kvs k dflt = v.
Proof. unfold field. now intros ->. Qed.

Lemma EP_unknown_title_string (a : string) :
  EP.unknown_title (JStr a) = Ok (JStr (spec_placeholder_title a)).
Proof.
  unfold EP.unknown_title, spec_placeholder_title. simpl.
  destruct (String.eqb a ""); reflexivity.
Qed.

(** The second loop of the first script keeps what the map holds. *)
Lemma EP_reference_scan_keeps (feeds : list json)
  (st st' : dict EP.info * dict EP.reference) (k : json) (e : EP.info) :
  for_each EP.reference_feed feeds st = Ok st' ->
  dict_find k (fst st) = Some e -> dict_find k (fst st') = Some e.
Proof.
  intros Hrun Hfind. revert Hrun.
  apply (for_each_invariant (fun s => dict_find k (fst s) = Some e));
    [|exact Hfind].
  intros [p r] feed s' Hp Hstep.
  apply EP_reference_feed_cases in Hstep as [->|(k' & e' & r' & _ & _ & _ & ->)];
    [exact Hp|].
  simpl in *. now rewrite dict_find_app, Hp.
Qed.

(** The third loop of the second script keeps what the map holds. *)
Lemma FS_missing_publishers_keep (refs : list (json * json))
  (publishers publishers' : dict FS.info) (k : json) (e : FS.info) :
  for_each FS.missing_publisher refs publishers = Ok publishers' ->
  dict_find k publishers = Some e -> dict_find k publishers' = Some e.
Proof.
  intros Hrun Hfind. revert Hrun.
  apply (for_each_invariant (fun d => dict_find k d = Some e));
    [|exact Hfind].
  intros p ref p' Hp Hstep.
  apply FS_missing_publisher_cases in Hstep as [->|(e' & _ & _ & _ & _ & ->)];
    [exact Hp|].
  now rewrite dict_find_app, Hp.
Qed.

Lemma dict_find_last {V} (k : json) (v : V) (d : dict V) :
  hash k = Ok tt -> dict_mem k d = false ->
  dict_find k (d ++ [(k, v)]) = Some v.
Proof.
  intros Hk Hmem. rewrite <- (dict_set_absent k v d Hmem).
  apply dict_find_set_same, key_eqb_refl, Hk.
Qed.

End Placeholders.

(** C4, as claimed, fails in four ways: an empty string is a non-null
    GUID for which nothing is synthesized; a second record that refers to
    a GUID gets no entry of its own, so its artist is not the one in the
    title; the second script does not put the artist in the title at
    all, the scenario giving plain "Unknown Publisher" there; and a
    reference whose [feedUrl] is null ends the second script with a
    TypeError. *)
Lemma placeholder_title_counterexample :
  EP.extract_publishers (document [album_feed_of "" "Band Y"]) = Ok ([], []) /\
  (exists e references,
      EP.extract_publishers
        (document [album_feed_of "xyz" "First"; album_feed_of "xyz" "Band Y"])
      = Ok ([(JStr "xyz", e)], references) /\
      EP.title e = JStr "Unknown Publisher (First)") /\
  (exists e,
      FS.extract_all_publishers (fun refs => refs) (document [album_feed])
      = Ok [(JStr "xyz", e)] /\
      FS.title e = JStr "Unknown Publisher" /\
      FS.title e <> JStr "Unknown Publisher (Band Y)") /\
  FS.extract_all_publishers (fun refs => refs)
    (document
       [JObj [("parsedData",
               JObj [("album",
                      JObj [("publisher",
                             JObj [("medium", JStr "publisher");
                                   ("feedGuid", JStr "xyz");
                                   ("feedUrl", JNull)]);
                            ("artist", JStr "Band Y")])])]])
  = Raise TypeError.
Proof.
  split; [reflexivity|]. split; [|split].
  - eexists. eexists. split; reflexivity.
  - eexists. split; [reflexivity|]. split; [reflexivity | discriminate].
  - reflexivity.
Qed.

(** C4, amended: a record whose [parsedData.album.publisher] has medium
    "publisher" and a non-empty string [feedGuid] that the map does not
    hold yet makes the first script append an entry titled
    "Unknown Publisher (" + artist + ")" when [parsedData.album.artist] is
    a non-empty string and "Unknown Publisher" when it is absent or empty,
    with id "publisher-" + guid and the [feedUrl] of the reference
    whatever it holds, which the rest of the scan keeps; in the second
    script, when that [feedUrl] is a string or absent, the record adds
    the pair to the set and the pair makes the third loop append an entry
    with the same id whose title is made from the URL and the first 8
    characters of the GUID only, while a null [feedUrl] ends that loop
    with a TypeError.  The scenario gives "Unknown Publisher (Band Y)" in
    the first script. *)
Theorem placeholder_for_referenced_guid
  (fields pd album publisher : list (string * json)) (g a : string) :
  Py.assoc "parsedData" fields = Some (JObj pd) ->
  Py.assoc "album" pd = Some (JObj album) ->
  Py.assoc "publisher" album = Some (JObj publisher) ->
  Py.assoc "medium" publisher = Some (JStr "publisher") ->
  Py.assoc "feedGuid" publisher = Some (JStr g) ->
  g <> "" ->
  Py.field album "artist" (JStr "") = JStr a ->
  let ref_url := Py.field publisher "feedUrl" (JStr "") in
  (forall publishers references,
      Py.dict_mem (JStr g) publishers = false ->
      let e := {| EP.feedGuid := JStr g; EP.feedUrl := ref_url;
                  EP.title := JStr (spec_placeholder_title a);
                  EP.id := JStr ("publisher-" ++ g);
                  EP.parsedData := JObj [] |} in
      let st := (publishers ++ [(JStr g, e)],
                 Py.dict_set (JStr g)
                   {| EP.referenced_in := Py.field fields "title" (JStr "");
                      EP.artist_context := JStr a |} references) in
      EP.reference_feed (publishers, references) (JObj fields) = Ok st /\
      forall later st',
        for_each EP.reference_feed later st = Ok st' ->
        Py.dict_find (JStr g) (fst st') = Some e) /\
  (forall url,
      ref_url = JStr url ->
      (forall unique_feed_guids,
          FS.collect_feed unique_feed_guids (JObj fields) =
          Py.set_add (JStr g, JStr url) unique_feed_guids) /\
      (forall publishers,
          Py.dict_mem (JStr g) publishers = false ->
          let e := {| FS.feedGuid := JStr g; FS.feedUrl := JStr url;
                      FS.title := JStr (FS_placeholder_title g url);
                      FS.id := JStr ("publisher-" ++ g);
                      FS.publisherName := JStr ""; FS.artist := JStr "";
                      FS.description := JStr "";
                      FS.status := JStr "referenced";
                      FS.priority := JStr "unknown" |} in
          FS.missing_publisher publishers (JStr g, JStr url)
          = Ok (publishers ++ [(JStr g, e)]) /\
          forall later publishers',
            for_each FS.missing_publisher later (publishers ++ [(JStr g, e)])
            = Ok publishers' ->
            Py.dict_find (JStr g) publishers' = Some e)) /\
  (forall p r,
      g = (p ++ r)%string -> starts_char p -> starts_char r -> chars p = 8 ->
      first_chars 8 g = p) /\
  (starts_char g -> chars g <= 8 -> first_chars 8 g = g) /\
  (ref_url = JNull ->
   (forall unique_feed_guids,
       FS.collect_feed unique_feed_guids (JObj fields) =
       Py.set_add (JStr g, JNull) unique_feed_guids) /\
   forall publishers,
     Py.dict_mem (JStr g) publishers = false ->
     FS.missing_publisher publishers (JStr g, JNull) = Raise TypeError) /\
  (exists references,
      EP.extract_publishers (document [album_feed]) =
      Ok ([(JStr "xyz",
            {| EP.feedGuid := JStr "xyz"; EP.feedUrl := JStr "u";
               EP.title := JStr "Unknown Publisher (Band Y)";
               EP.id := JStr "publisher-xyz";
               EP.parsedData := JObj [] |})], references)).
Proof.
  intros Hpd Halbum Hpub Hmedium Hguid Hg Hartist ref_url.
  assert (Htrue : Py.truthy (JStr g) = true).
  { simpl. apply String.eqb_neq in Hg. now rewrite Hg. }
  assert (Hcollect : forall unique_feed_guids,
             FS.collect_feed unique_feed_guids (JObj fields) =
             Py.set_add (JStr g, ref_url) unique_feed_guids).
  { intros unique_feed_guids. unfold FS.collect_feed, Py.get.
    rewrite (field_some _ _ _ _ Hpd). cbn [bind Py.contains].
    rewrite Halbum. cbn [bind Py.index]. rewrite Halbum. cbn [bind].
    rewrite (field_some _ _ _ _ Hpub). cbn [bind].
    rewrite (field_some _ _ _ _ Hmedium).
    cbn [bind Py.eq_str String.eqb Ascii.eqb Bool.eqb].
    rewrite (field_some _ _ _ _ Hguid). reflexivity. }
  split; [|split; [|split; [|split; [|split]]]].
  - intros publishers references Hmem e st.
    assert (Hstep : EP.reference_feed (publishers, references) (JObj fields)
                    = Ok st).
    { unfold EP.reference_feed, Py.get.
      rewrite (field_some _ _ _ _ Hpd). cbn [bind Py.contains].
      rewrite Halbum. cbn [bind Py.index]. rewrite Halbum. cbn [bind].
      rewrite (field_some _ _ _ _ Hpub). cbn [bind].
      rewrite (field_some _ _ _ _ Hmedium).
      cbn [bind Py.eq_str String.eqb Ascii.eqb Bool.eqb].
      rewrite (field_some _ _ _ _ Hguid). rewrite Htrue.
      unfold Py.dict_contains, Py.dict_store. cbn [bind Py.hash].
      rewrite Hmem, Hartist, EP_unknown_title_string.
      cbn [bind Py.str]. rewrite (dict_set_absent _ _ _ Hmem).
      reflexivity. }
    split; [exact Hstep|].
    intros later st' Hrun.
    apply (EP_reference_scan_keeps later st st' _ _ Hrun).
    apply dict_find_last; [reflexivity | exact Hmem].
  - intros url Hurl. split.
    + intros unique_feed_guids. rewrite Hcollect. now rewrite Hurl.
    + intros publishers Hmem e.
      assert (Hstep : FS.missing_publisher publishers (JStr g, JStr url)
                      = Ok (publishers ++ [(JStr g, e)])).
      { unfold FS.missing_publisher. rewrite Htrue.
        unfold Py.dict_contains, Py.dict_store. cbn [bind Py.hash].
        rewrite Hmem. unfold FS.inferred_name, e, FS_placeholder_title.
        cbn [bind Py.contains]. rewrite <- str_take_first_chars.
        destruct (Py.str_in "wavlake.com" url);
          cbn [bind Py.take Py.str Py.hash];
          rewrite (dict_set_absent _ _ _ Hmem); reflexivity. }
      split; [exact Hstep|].
      intros later publishers' Hrun.
      apply (FS_missing_publishers_keep later _ publishers' _ _ Hrun).
      apply dict_find_last; [reflexivity | exact Hmem].
  - intros p r -> Hp Hr Hn. rewrite <- str_take_first_chars.
    now apply str_take_prefix.
  - intros Hs Hn. rewrite <- str_take_first_chars. now apply str_take_all.
  - intros Hnull. split.
    + intros unique_feed_guids. rewrite Hcollect. now rewrite Hnull.
    + intros publishers Hmem. unfold FS.missing_publisher. rewrite Htrue.
      unfold Py.dict_contains. cbn [bind Py.hash]. now rewrite Hmem.
  - eexists. reflexivity.
Qed.

Lemma placeholder_for_referenced_guid_witness :
  let g := "ab-çdé-fghij" in
  let publisher := [("medium", JStr "publisher"); ("feedGuid", JStr g);
                    ("feedUrl", JStr "https://wavlake.com/x")] in
  let album := [("publisher", JObj publisher); ("artist", JStr "Band Y")] in
  let pd := [("album", JObj album)] in
  let fields := [("parsedData", JObj pd)] in
  Py.assoc "parsedData" fields = Some (JObj pd) /\
  Py.assoc "album" pd = Some (JObj album) /\
  Py.assoc "publisher" album = Some (JObj publisher) /\
  Py.assoc "medium" publisher = Some (JStr "publisher") /\
  Py.assoc "feedGuid" publisher = Some (JStr g) /\
  g <> "" /\
  Py.field album "artist" (JStr "") = JStr "Band Y" /\
  Py.dict_mem (JStr g) (@nil (json * EP.info)) = false /\
  (exists e references,
      EP.reference_feed ([], []) (JObj fields)
      = Ok ([(JStr g, e)], references) /\
      EP.title e = JStr "Unknown Publisher (Band Y)") /\
  (exists e,
      FS.missing_publisher [] (JStr g, JStr "https://wavlake.com/x")
      = Ok [(JStr g, e)] /\
      FS.title e = JStr "Wavlake Artist (ab-çdé-f...)") /\
  first_chars 8 g = "ab-çdé-f".
Proof.
  intros g publisher album pd fields.
  do 5 (split; [reflexivity|]). split; [discriminate|].
  do 2 (split; [reflexivity|]).
  destruct (placeholder_for_referenced_guid fields pd album publisher
              g "Band Y" eq_refl eq_refl eq_refl eq_refl eq_refl
              (fun H : g = "" => ltac:(discriminate H)) eq_refl)
    as (HE & HF & Hcut & _).
  split; [|split].
  - destruct (HE [] [] eq_refl) as (Hstep & _).
    eexists. eexists. split; [exact Hstep | reflexivity].
  - destruct (HF "https://wavlake.com/x" eq_refl) as (_ & Hmissing).
    destruct (Hmissing [] eq_refl) as (Hstep & _).
    eexists. split; [exact Hstep | reflexivity].
  - apply (Hcut "ab-çdé-f" "ghij"); reflexivity.
Defined.

(** ** Display names and slugs *)

Section DisplayMapping.
Import Py.
Local Open Scope string_scope.

Variable str_lower : string -> string.

Lemma url_safe_step (c : ascii) (rest : string) :
  str_replace "." ""
    (str_replace ")" ""
       (str_replace "(" ""
          (str_replace " " "-" (String c rest)))) =
  strip_char c ++
  str_replace "." ""
    (str_replace ")" "" (str_replace "(" "" (str_replace " " "-" rest))).
Proof.
  unfold strip_char. cbn [str_replace].
  destruct (Ascii.eqb c " ") eqn:H1; [reflexivity|].
  cbn [str_replace].
  destruct (Ascii.eqb c "(") eqn:H2; [reflexivity|].
  cbn [str_replace].
  destruct (Ascii.eqb c ")") eqn:H3; [reflexivity|].
  cbn [str_replace].
  destruct (Ascii.eqb c ".") eqn:H4; reflexivity.
Qed.

Lemma replaces_are_strip (lowered : string) :
  str_replace "." ""
    (str_replace ")" "" (str_replace "(" "" (str_replace " " "-" lowered)))
  = spec_strip lowered.
Proof.
  induction lowered as [|c rest IH]; [reflexivity|].
  cbn [spec_strip]. now rewrite url_safe_step, IH.
Qed.

(** The four replacements of line 97 amount to one pass over the
    lowercased name. *)
Lemma url_safe_is_spec_strip (name : string) :
  FS.url_safe_of str_lower (JStr name)
  = Ok (JStr (spec_strip (str_lower name))).
Proof.
  unfold FS.url_safe_of. cbn [lower bind]. now rewrite replaces_are_strip.
Qed.

Lemma strip_char_free (c x : ascii) :
  In x [" "; "("; ")"; "."]%char -> has_char x (strip_char c) = false.
Proof.
  unfold strip_char. intros Hx.
  destruct (Ascii.eqb c " ") eqn:H1.
  { destruct Hx as [<-|[<-|[<-|[<-|[]]]]]; reflexivity. }
  destruct (Ascii.eqb c "(") eqn:H2; [reflexivity|].
  destruct (Ascii.eqb c ")") eqn:H3; [reflexivity|].
  destruct (Ascii.eqb c ".") eqn:H4; [reflexivity|].
  simpl. destruct Hx as [<-|[<-|[<-|[<-|[]]]]]; now rewrite ?H1, ?H2, ?H3, ?H4.
Qed.

(** A slug holds no space, parenthesis or period. *)
Lemma spec_strip_free (lowered : string) (x : ascii) :
  In x [" "; "("; ")"; "."]%char -> has_char x (spec_strip lowered) = false.
Proof.
  intros Hx. induction lowered as [|c rest IH]; [reflexivity|].
  simpl. now rewrite has_char_app, strip_char_free, IH.
Qed.

(** On a name of ASCII characters the slug is the one the table of
    letters gives. *)
Lemma url_safe_ascii (name : string) :
  python_lower str_lower -> is_ascii name = true ->
  str_lower name = spec_lower name /\
  FS.url_safe_of str_lower (JStr name) = Ok (JStr (spec_slug name)).
Proof.
  intros Hlower Hname.
  assert (E : str_lower name = spec_lower name).
  { now rewrite (lower_ascii _ Hlower name Hname), ascii_lower_spec. }
  split; [exact E|]. rewrite url_safe_is_spec_strip, E. reflexivity.
Qed.




Lemma FS_name_from_url_string (g u : string) :
  FS.name_from_url str_lower (JStr g) (JStr u) =
  Ok (JStr (if Py.str_in "wavlake.com/feed/artist/" u
            then "Wavlake Artist " ++ first_chars 8 g
            else if Py.str_in "bitpunk.fm" u then "BitPunk.fm"
            else if Py.str_in "doerfel" (str_lower u) then "The Doerfels"
            else "Publisher " ++ first_chars 8 g)).
Proof.
  unfold FS.name_from_url. cbn [bind Py.contains].
  rewrite <- str_take_first_chars.
  destruct (Py.str_in "wavlake.com/feed/artist/" u); [reflexivity|].
  cbn [bind Py.contains].
  destruct (Py.str_in "bitpunk.fm" u); [reflexivity|].
  cbn [bind Py.lower].
  destruct (Py.str_in "doerfel" (str_lower u)); reflexivity.
Qed.

Lemma FS_display_name_string (fg i d st pr : json) (g pn t a u : string) :
  FS.display_name_of str_lower (JStr g)
    {| FS.feedGuid := fg; FS.feedUrl := JStr u; FS.title := JStr t;
       FS.id := i; FS.publisherName := JStr pn; FS.artist := JStr a;
       FS.description := d; FS.status := st; FS.priority := pr |}
  = Ok (JStr (spec_display_name str_lower pn t a u g)).
Proof.
  unfold FS.display_name_of, spec_display_name, Py.or_.
  cbn [FS.publisherName FS.title FS.artist FS.feedUrl Py.truthy].
  destruct (String.eqb pn "") eqn:E1; destruct (String.eqb t "") eqn:E2;
    destruct (String.eqb a "") eqn:E3;
    do 3 (cbn [negb orb Py.truthy Py.eq_str]; rewrite ?E1, ?E2, ?E3);
    destruct (String.eqb pn "Unknown Publisher");
    destruct (String.eqb t "Unknown Publisher");
    destruct (String.eqb a "Unknown Publisher");
    cbn [negb orb];
    first [apply FS_name_from_url_string | reflexivity].
Qed.

End DisplayMapping.

(** C6: the slug is a function of the display name alone: the name
    lowercased by [str.lower], each space turned into a hyphen,
    parentheses and periods dropped; on a name of ASCII characters
    lowercasing turns each capital letter into its small letter and
    leaves the rest; "BitPunk.fm" gives "bitpunkfm"; and it is the slug
    the mapping of a valid GUID carries. *)
Theorem slug_derivation (str_lower : string -> string) (name : string) :
  FS.url_safe_of str_lower (JStr name)
  = Ok (JStr (spec_strip (str_lower name))) /\
  (forall x, In x [" "; "("; ")"; "."]%char ->
             Py.has_char x (spec_strip (str_lower name)) = false) /\
  (python_lower str_lower ->
   (Py.is_ascii name = true ->
    str_lower name = spec_lower name /\
    FS.url_safe_of str_lower (JStr name) = Ok (JStr (spec_slug name))) /\
   FS.url_safe_of str_lower (JStr "BitPunk.fm") = Ok (JStr "bitpunkfm")) /\
  spec_lower "ABCDEFGHIJKLMNOPQRSTUVWXYZ @[`{ 0-9(.)"
  = "abcdefghijklmnopqrstuvwxyz @[`{ 0-9(.)"%string /\
  (forall g inf mappings,
      FS.valid_guid g = true ->
      FS.display_name_of str_lower g inf = Ok (JStr name) ->
      FS.map_publisher str_lower mappings (g, inf) =
      Py.dict_store g
        {| FS.guid := g; FS.displayName := JStr name;
           FS.urlSlug := JStr (spec_strip (str_lower name));
           FS.mFeedUrl := FS.feedUrl inf; FS.mStatus := FS.status inf |}
        mappings).
Proof.
  split; [apply url_safe_is_spec_strip|].
  split; [intros x; apply spec_strip_free|].
  split; [|split; [reflexivity|]].
  - intros Hlower. split; [now apply url_safe_ascii|].
    exact (proj2 (url_safe_ascii str_lower "BitPunk.fm" Hlower eq_refl)).
  - intros g inf mappings Hvalid Hname. unfold FS.map_publisher.
    rewrite Hvalid, Hname. cbn [bind]. rewrite url_safe_is_spec_strip.
    reflexivity.
Qed.

Lemma slug_derivation_witness :
  let inf := {| FS.feedGuid := JStr "5883e6be";
                FS.feedUrl := JStr "https://example.com/feed";
                FS.title := JStr "The Q. (Live) Band"; FS.id := JStr "";
                FS.publisherName := JStr ""; FS.artist := JStr "";
                FS.description := JStr ""; FS.status := JStr "";
                FS.priority := JStr "" |} in
  python_lower Py.ascii_lower /\
  Py.is_ascii "The Q. (Live) Band" = true /\
  FS.valid_guid (JStr "5883e6be") = true /\
  FS.display_name_of Py.ascii_lower (JStr "5883e6be") inf
  = Ok (JStr "The Q. (Live) Band") /\
  FS.url_safe_of Py.ascii_lower (JStr "The Q. (Live) Band")
  = Ok (JStr "the-q-live-band") /\
  FS.map_publisher Py.ascii_lower [] (JStr "5883e6be", inf) =
  Ok [(JStr "5883e6be",
       {| FS.guid := JStr "5883e6be";
          FS.displayName := JStr "The Q. (Live) Band";
          FS.urlSlug := JStr "the-q-live-band";
          FS.mFeedUrl := JStr "https://example.com/feed";
          FS.mStatus := JStr "" |})].
Proof.
  intros inf. split; [exact ascii_lower_python|].
  do 3 (split; [reflexivity|]).
  destruct (slug_derivation Py.ascii_lower "The Q. (Live) Band")
    as (_ & _ & Hascii & _ & Hstored).
  split.
  - exact (proj2 (proj1 (Hascii ascii_lower_python) eq_refl)).
  - exact (eq_trans
             (Hstored (JStr "5883e6be") inf [] eq_refl eq_refl) eq_refl).
Defined.

(** ** Runs on documents of the expected types *)

Section Totality.
Import Py.

Lemma for_each_total {S A} (P : S -> Prop) (Q : A -> Prop)
  (body : S -> A -> result S) :
  (forall s x, P s -> Q x -> exists s', body s x = Ok s' /\ P s') ->
  forall l s, Forall Q l -> P s ->
              exists s', for_each body l s = Ok s' /\ P s'.
Proof.
  intros Hstep l. induction l as [|x l IH]; intros s Hl Hs; simpl.
  - eauto.
  - inversion Hl as [|? ? Hx Hl']; subst.
    destruct (Hstep s x Hs Hx) as (s1 & -> & Hs1). simpl. now apply IH.
Qed.

Lemma is_str_inv (v : json) : is_str v = true -> exists s, v = JStr s.
Proof. destruct v; simpl; try discriminate. eauto. Qed.

Lemma is_text_inv (v : json) :
  is_text v = true -> exists s, v = JStr s /\ encodable s = true.
Proof. destruct v; simpl; try discriminate. eauto. Qed.

Lemma is_text_str (v : json) : is_text v = true -> is_str v = true.
Proof. destruct v; simpl; try discriminate. reflexivity. Qed.

Lemma key_kind_inv (k : json) :
  key_kind k = true -> k = JNull \/ exists s, k = JStr s /\ encodable s = true.
Proof. destruct k; simpl; try discriminate; eauto. Qed.

Lemma key_kind_hash (k : json) : key_kind k = true -> hash k = Ok tt.
Proof. destruct k; simpl; try discriminate; reflexivity. Qed.

Lemma opt_text_field (kvs : list (string * json)) (k dflt : string) :
  encodable dflt = true -> opt_text kvs k = true ->
  is_text (field kvs k (JStr dflt)) = true.
Proof.
  unfold opt_text, field. destruct (assoc k kvs) as [v|]; auto.
Qed.

Lemma opt_text_key (kvs : list (string * json)) (k : string) :
  opt_text kvs k = true -> key_kind (field kvs k JNull) = true.
Proof.
  unfold opt_text, field.
  destruct (assoc k kvs) as [[]|]; try discriminate; auto.
Qed.

Lemma opt_object_field (p : list (string * json) -> bool)
  (kvs : list (string * json)) (k : string) :
  opt_object p kvs k = true -> p [] = true ->
  exists o, field kvs k (JObj []) = JObj o /\ p o = true.
Proof.
  unfold opt_object, field.
  destruct (assoc k kvs) as [[]|]; try discriminate; eauto.
Qed.

Lemma opt_object_assoc (p : list (string * json) -> bool)
  (kvs : list (string * json)) (k : string) (v : json) :
  opt_object p kvs k = true -> assoc k kvs = Some v ->
  exists o, v = JObj o /\ p o = true.
Proof.
  unfold opt_object. intros H Hv. rewrite Hv in H.
  destruct v; try discriminate. eauto.
Qed.

Lemma wf_feed_inv (feed : json) :
  wf_feed feed = true ->
  exists kvs,
    feed = JObj kvs /\
    opt_text kvs "originalUrl" = true /\ opt_text kvs "title" = true /\
    opt_text kvs "id" = true /\ opt_text kvs "status" = true /\
    opt_text kvs "priority" = true /\
    opt_object wf_parsed_data kvs "parsedData" = true.
Proof.
  destruct feed as [| | | | |kvs]; try discriminate. simpl.
  rewrite !andb_true_iff. intros H. exists kvs. tauto.
Qed.

Lemma wf_parsed_data_inv (o : list (string * json)) :
  wf_parsed_data o = true ->
  opt_object wf_album o "album" = true /\
  opt_object wf_publisher_info o "publisherInfo" = true.
Proof. unfold wf_parsed_data. now rewrite andb_true_iff. Qed.

Lemma wf_album_inv (o : list (string * json)) :
  wf_album o = true ->
  opt_object wf_publisher_ref o "publisher" = true /\
  opt_text o "artist" = true.
Proof. unfold wf_album. now rewrite andb_true_iff. Qed.

Lemma wf_publisher_ref_inv (o : list (string * json)) :
  wf_publisher_ref o = true ->
  opt_text o "feedGuid" = true /\ opt_text o "feedUrl" = true.
Proof. unfold wf_publisher_ref. now rewrite andb_true_iff. Qed.

Lemma wf_publisher_info_inv (o : list (string * json)) :
  wf_publisher_info o = true ->
  opt_text o "title" = true /\ opt_text o "artist" = true /\
  opt_text o "description" = true.
Proof. unfold wf_publisher_info. rewrite !andb_true_iff. tauto. Qed.

Lemma EP_typed_info_inv (inf : EP.info) :
  EP_typed_info inf = true ->
  exists u t i pd,
    inf = {| EP.feedGuid := EP.feedGuid inf; EP.feedUrl := JStr u;
             EP.title := JStr t; EP.id := JStr i;
             EP.parsedData := JObj pd |} /\
    encodable u = true /\ encodable t = true /\ encodable i = true /\
    opt_object wf_publisher_info pd "publisherInfo" = true.
Proof.
  destruct inf as [fg fu ft fi fpd]. unfold EP_typed_info. cbn.
  rewrite !andb_true_iff. intros (((Hu & Ht) & Hi) & Hpd).
  apply is_text_inv in Hu as (u & -> & Hu), Ht as (t & -> & Ht),
      Hi as (i & -> & Hi).
  destruct fpd; try discriminate. exists u, t, i, fields. auto.
Qed.

Lemma EP_typed_reference_inv (r : EP.reference) :
  EP_typed_reference r = true ->
  exists ri ac, r = {| EP.referenced_in := JStr ri;
                       EP.artist_context := JStr ac |} /\
                encodable ri = true /\ encodable ac = true.
Proof.
  destruct r as [ri ac]. unfold EP_typed_reference. cbn.
  rewrite andb_true_iff. intros (Hri & Hac).
  apply is_text_inv in Hri as (? & -> & ?), Hac as (? & -> & ?).
  eauto.
Qed.

Lemma typed_dict_set {V} (value_ok : V -> bool) (k : json) (v : V)
  (d : dict V) :
  typed_dict value_ok d -> key_kind k = true -> value_ok v = true ->
  typed_dict value_ok (dict_set k v d).
Proof.
  unfold typed_dict. intros Hd Hk Hv.
  induction d as [|[k0 v0] d IH]; simpl.
  - constructor; [auto | constructor].
  - inversion Hd as [|? ? (Hk0 & Hv0) Hd']; subst.
    destruct (key_eqb k0 k); constructor; auto.
Qed.

Lemma typed_dict_find {V} (value_ok : V -> bool) (k : json) (v : V)
  (d : dict V) :
  typed_dict value_ok d -> dict_find k d = Some v -> value_ok v = true.
Proof.
  unfold typed_dict. intros Hd.
  induction d as [|[k0 v0] d IH]; simpl; [discriminate|].
  inversion Hd as [|? ? (_ & Hv0) Hd']; subst.
  destruct (key_eqb k0 k); [|auto].
  intros H. injection H as <-. exact Hv0.
Qed.

(** *** Printing *)

Lemma print_line (out lit s : string) :
  encodable lit = true -> encodable s = true ->
  print out (lit ++ s) = Ok (out ++ (lit ++ s) ++ nl)%string.
Proof.
  intros Hlit Hs. unfold print. now rewrite (encodable_app lit s Hlit Hs).
Qed.

Lemma print_ascii (out s : string) :
  is_ascii s = true -> print out s = Ok (out ++ s ++ nl)%string.
Proof. intros Hs. unfold print. now rewrite is_ascii_encodable. Qed.

Lemma print_count (out lit : string) (n : nat) :
  is_ascii lit = true ->
  print out (nl ++ lit ++ nat_str n)
  = Ok (out ++ (nl ++ lit ++ nat_str n) ++ nl)%string.
Proof.
  intros Hlit. unfold print. rewrite is_ascii_encodable; [reflexivity|].
  now rewrite !is_ascii_app, Hlit, nat_str_ascii.
Qed.

(** *** extract_publishers.py *)

Lemma EP_feed_guid_string (u : string) :
  encodable u = true ->
  exists g, EP.feed_guid_of (JStr u) = Ok g /\ key_kind g = true.
Proof.
  intros Hu. unfold EP.feed_guid_of. cbn [bind contains].
  destruct (str_in "wavlake.com/feed/artist/" u).
  - destruct (split_last_segment "/" u) as (seg & Hlast & _).
    exists (JStr seg). cbn [split_last]. rewrite Hlast.
    split; [reflexivity|]. exact (encodable_segment u seg Hu Hlast).
  - cbn [bind]. destruct (str_in "zine.bitpunk.fm/feeds/publisher.xml" u);
      eauto.
Qed.

Lemma EP_primary_feed_total (publishers : dict EP.info) (feed : json) :
  typed_dict EP_typed_info publishers -> wf_feed feed = true ->
  exists publishers',
    EP.primary_feed publishers feed = Ok publishers' /\
    typed_dict EP_typed_info publishers'.
Proof.
  intros Hp Hwf.
  apply wf_feed_inv in Hwf as (kvs & -> & Hu & Ht & Hi & _ & _ & Hpd).
  unfold EP.primary_feed, get. cbn [bind].
  destruct (eq_str (field kvs "type" JNull) "publisher"); [|eauto].
  unfold EP.publisher_entry, get. cbn [bind].
  apply (opt_text_field _ _ "" eq_refl) in Hu, Ht, Hi.
  destruct (opt_object_field _ kvs "parsedData" Hpd eq_refl)
    as (pd & Hpd' & Hpdwf).
  apply wf_parsed_data_inv in Hpdwf as (_ & Hpi).
  destruct (is_text_inv _ Hu) as (u & Hurl & Hutext). rewrite Hurl in *.
  destruct (EP_feed_guid_string u Hutext) as (g & -> & Hkind).
  cbn [bind]. unfold dict_store.
  rewrite (key_kind_hash _ Hkind). cbn [bind].
  eexists. split; [reflexivity|].
  apply typed_dict_set; auto.
  unfold EP_typed_info. cbn [EP.feedUrl EP.title EP.id EP.parsedData].
  now rewrite Hu, Ht, Hi, Hpd'.
Qed.

(** *** sorted, on string keys *)

Lemma ltb_lt (a b : string) : String.ltb a b = true <-> String_as_OT.lt a b.
Proof.
  unfold String.ltb. rewrite <- String_as_OT.cmp_lt. unfold String_as_OT.cmp.
  destruct (String.compare a b); split; intros;
    first [reflexivity | discriminate].
Qed.

Lemma ltb_asym (a b : string) : String.ltb a b = true -> String.ltb b a = false.
Proof.
  unfold String.ltb. rewrite (String.compare_antisym a b).
  destruct (String.compare b a); simpl; congruence.
Qed.

Lemma ltb_le_trans (a b c : string) :
  String.ltb a b = true -> String.ltb c b = false -> String.ltb a c = true.
Proof.
  intros Hab Hcb. unfold String.ltb in Hcb.
  destruct (String.compare c b) eqn:E; try discriminate.
  - apply String.compare_eq_iff in E as ->. exact Hab.
  - apply ltb_lt. apply String_as_OT.lt_trans with b; [now apply ltb_lt|].
    apply String_as_OT.cmp_lt. unfold String_as_OT.cmp.
    rewrite String.compare_antisym, E. reflexivity.
Qed.

Lemma leb_trans (a b c : string) :
  String.ltb b a = false -> String.ltb c b = false -> String.ltb c a = false.
Proof.
  intros Hab Hbc. destruct (String.ltb c a) eqn:E; [|reflexivity].
  rewrite (ltb_le_trans c a b E Hab) in Hbc. discriminate.
Qed.

Section SortedBy.
Context {A : Type}.
Variable key : A -> json.
Variable skey : A -> string.

Lemma insert_by_head (x y : A) (l : list A) :
  string_keys key skey (x :: y :: l) ->
  insert_by key x (y :: l) =
  if String.ltb (skey x) (skey y) then Ok (x :: y :: l)
  else rest <- insert_by key x l ;; Ok (y :: rest).
Proof.
  intros Hk. inversion Hk as [|? ? Hx Hk']; subst.
  inversion Hk' as [|? ? Hy _]; subst.
  cbn [insert_by]. rewrite Hx, Hy. reflexivity.
Qed.

Lemma insert_by_strings (x : A) (l : list A) :
  string_keys key skey (x :: l) ->
  exists l', insert_by key x l = Ok l' /\ Permutation (x :: l) l'.
Proof.
  induction l as [|y l IH]; intros Hk.
  - exists [x]. split; [reflexivity | apply Permutation_refl].
  - rewrite (insert_by_head x y l Hk).
    destruct (String.ltb (skey x) (skey y)).
    + eexists. split; [reflexivity | apply Permutation_refl].
    + destruct IH as (l' & -> & Hperm).
      { inversion Hk as [|? ? Hx Hk']; subst.
        inversion Hk' as [|? ? Hy Hl]; subst. now constructor. }
      exists (y :: l'). split; [reflexivity|].
      rewrite perm_swap. now constructor.
Qed.

Lemma string_keys_perm (l l' : list A) :
  Permutation l l' -> string_keys key skey l -> string_keys key skey l'.
Proof. intros Hp. apply Permutation_Forall, Hp. Qed.

Lemma insert_by_sorted (x : A) (l l' : list A) :
  string_keys key skey (x :: l) -> StronglySorted (before skey) l ->
  insert_by key x l = Ok l' -> StronglySorted (before skey) l'.
Proof.
  revert l'. induction l as [|y l IH]; intros l' Hk Hs H.
  - injection H as <-. constructor; constructor.
  - rewrite (insert_by_head x y l Hk) in H.
    inversion Hs as [|? ? Hs' Hy]; subst.
    destruct (String.ltb (skey x) (skey y)) eqn:Hxy.
    + injection H as <-. constructor; [exact Hs|].
      constructor; [now apply ltb_asym|].
      eapply Forall_impl; [|exact Hy].
      intros z Hz. unfold before in *.
      apply leb_trans with (skey y); [now apply ltb_asym | exact Hz].
    + assert (Hk' : string_keys key skey (x :: l)).
      { inversion Hk as [|? ? Hx Hk1]; subst.
        inversion Hk1; subst. now constructor. }
      destruct (insert_by_strings x l Hk') as (r & Hr & Hperm).
      rewrite Hr in H. injection H as <-.
      constructor; [now apply (IH r)|].
      eapply Permutation_Forall; [exact Hperm|].
      constructor; [exact Hxy | exact Hy].
Qed.

Variable p : A -> bool.

(** Inserting and then filtering is filtering and then inserting. *)
Lemma insert_by_filter (x : A) (l l' : list A) :
  string_keys key skey (x :: l) -> StronglySorted (before skey) l ->
  insert_by key x l = Ok l' ->
  if p x then insert_by key x (filter p l) = Ok (filter p l')
  else filter p l' = filter p l.
Proof.
  revert l'. induction l as [|y l IH]; intros l' Hk Hs H.
  - injection H as <-. simpl. destruct (p x); reflexivity.
  - rewrite (insert_by_head x y l Hk) in H.
    inversion Hs as [|? ? Hs' Hy]; subst.
    assert (Hk' : string_keys key skey (x :: l)).
    { inversion Hk as [|? ? Hx Hk1]; subst.
      inversion Hk1; subst. now constructor. }
    destruct (String.ltb (skey x) (skey y)) eqn:Hxy.
    + injection H as <-.
      change (filter p (x :: y :: l))
        with (if p x then x :: filter p (y :: l) else filter p (y :: l)).
      destruct (p x) eqn:Hpx; [|reflexivity].
      assert (Hall : Forall (fun z => String.ltb (skey x) (skey z) = true)
                            (y :: l)).
      { constructor; [exact Hxy|].
        eapply Forall_impl; [|exact Hy].
        intros z Hz. now apply ltb_le_trans with (skey y). }
      assert (Hkf : string_keys key skey (x :: filter p (y :: l))).
      { inversion Hk as [|? ? Hx Hk1]; subst. constructor; [exact Hx|].
        unfold string_keys in *. rewrite Forall_forall in *.
        intros z Hz. apply filter_In in Hz as (Hz & _). auto. }
      destruct (filter p (y :: l)) as [|z t] eqn:Hf; [reflexivity|].
      rewrite (insert_by_head x z t Hkf).
      assert (Hz : In z (y :: l)).
      { apply (proj1 (filter_In p z (y :: l))). rewrite Hf. now left. }
      rewrite Forall_forall in Hall. now rewrite (Hall z Hz).
    + destruct (insert_by_strings x l Hk') as (r & Hr & Hperm).
      rewrite Hr in H. injection H as <-.
      specialize (IH r Hk' Hs' Hr). cbn [filter].
      destruct (p x) eqn:Hpx.
      * destruct (p y) eqn:Hpy; [|exact IH].
        assert (Hkf : string_keys key skey (x :: y :: filter p l)).
        { inversion Hk as [|? ? Hx Hk1]; subst.
          inversion Hk1 as [|? ? Hy1 Hl]; subst.
          constructor; [exact Hx|]. constructor; [exact Hy1|].
          unfold string_keys in *. rewrite Forall_forall in *.
          intros z Hz. apply filter_In in Hz as (Hz & _). auto. }
        rewrite (insert_by_head x y _ Hkf), Hxy, IH. reflexivity.
      * now rewrite IH.
Qed.

Lemma sort_loop_strings (l acc : list A) :
  string_keys key skey (acc ++ l) -> StronglySorted (before skey) acc ->
  exists l',
    for_each (fun acc x => insert_by key x acc) l acc = Ok l' /\
    Permutation (acc ++ l) l' /\ StronglySorted (before skey) l' /\
    for_each (fun acc x => insert_by key x acc) (filter p l) (filter p acc)
    = Ok (filter p l').
Proof.
  revert acc. induction l as [|x l IH]; intros acc Hk Hs.
  - exists acc. rewrite app_nil_r. repeat split; auto.
  - unfold string_keys in Hk. apply Forall_app in Hk as (Hacc & Hxl).
    inversion Hxl as [|? ? Hx Hl]; subst.
    assert (Hk1 : string_keys key skey (x :: acc)) by now constructor.
    destruct (insert_by_strings x acc Hk1) as (acc1 & Hins & Hperm).
    pose proof (insert_by_sorted x acc acc1 Hk1 Hs Hins) as Hs1.
    pose proof (insert_by_filter x acc acc1 Hk1 Hs Hins) as Hf.
    destruct (IH acc1) as (l' & Hrun & Hperm' & Hs' & Hrunf); [|exact Hs1|].
    { apply Forall_app. split; [|exact Hl].
      eapply string_keys_perm; [exact Hperm | exact Hk1]. }
    exists l'. cbn [for_each]. rewrite Hins. cbn [bind].
    split; [exact Hrun|]. split.
    { rewrite <- Hperm', <- Hperm. symmetry. apply Permutation_middle. }
    split; [exact Hs'|].
    cbn [filter]. destruct (p x).
    + cbn [for_each]. rewrite Hf. exact Hrunf.
    + rewrite <- Hf. exact Hrunf.
Qed.

End SortedBy.

(** On string keys [sorted] succeeds with a permutation, and sorting what
    a filter keeps gives what the filter keeps of the sorted list. *)
Lemma sorted_by_strings {A} (key : A -> json) (skey : A -> string)
  (p : A -> bool) (l : list A) :
  Forall (fun y => key y = JStr (skey y)) l ->
  exists l',
    sorted_by key l = Ok l' /\ Permutation l l' /\
    sorted_by key (filter p l) = Ok (filter p l').
Proof.
  intros Hk.
  destruct (sort_loop_strings key skey p l [] Hk (SSorted_nil _))
    as (l' & Hrun & Hperm & _ & Hf).
  exists l'. auto.
Qed.




(** *** extract_publishers.py: second loop and report *)

Lemma spec_placeholder_title_text (a : string) :
  encodable a = true -> encodable (spec_placeholder_title a) = true.
Proof.
  intros Ha. unfold spec_placeholder_title.
  destruct (String.eqb a ""); [reflexivity|].
  apply (encodable_app "Unknown Publisher ("); [reflexivity|].
  now apply encodable_app.
Qed.

Lemma EP_reference_feed_total (st : dict EP.info * dict EP.reference)
  (feed : json) :
  typed_dict EP_typed_info (fst st) /\
  typed_dict EP_typed_reference (snd st) ->
  wf_feed feed = true ->
  exists st',
    EP.reference_feed st feed = Ok st' /\
    (typed_dict EP_typed_info (fst st') /\
     typed_dict EP_typed_reference (snd st')).
Proof.
  destruct st as [publishers references]. intros (Hp & Hr) Hwf.
  apply wf_feed_inv in Hwf as (kvs & -> & _ & Ht & _ & _ & _ & Hpd).
  unfold EP.reference_feed, get. cbn [bind].
  destruct (opt_object_field _ kvs "parsedData" Hpd eq_refl)
    as (pd & -> & Hpdwf).
  apply wf_parsed_data_inv in Hpdwf as (Halb & _). cbn [bind contains].
  destruct (assoc "album" pd) as [v|] eqn:Halbum; [|eauto].
  destruct (opt_object_assoc _ pd "album" v Halb Halbum)
    as (album & -> & Hawf).
  apply wf_album_inv in Hawf as (Hpub & Ha).
  cbn [bind index]. rewrite Halbum. cbn [bind].
  destruct (opt_object_field _ album "publisher" Hpub eq_refl)
    as (pi & -> & Hpiwf).
  apply wf_publisher_ref_inv in Hpiwf as (Hg & Hu). cbn [bind].
  destruct (eq_str (field pi "medium" JNull) "publisher"); [|eauto].
  apply opt_text_key in Hg.
  destruct (truthy (field pi "feedGuid" JNull)) eqn:Htrue; [|eauto].
  unfold dict_contains, dict_store.
  rewrite (key_kind_hash _ Hg). cbn [bind].
  destruct (dict_mem (field pi "feedGuid" JNull) publishers); [eauto|].
  apply (opt_text_field _ _ "" eq_refl) in Ha, Hu, Ht.
  destruct (is_text_inv _ Ha) as (a & Hartist & Hatext).
  rewrite Hartist in *.
  rewrite EP_unknown_title_string. cbn [bind].
  destruct (key_kind_inv _ Hg) as [Hnull|(g & Hstr & Hgtext)];
    rewrite ?Hnull, ?Hstr in *; [discriminate|].
  cbn [bind str]. eexists. split; [reflexivity|].
  cbn [fst snd]. split; apply typed_dict_set; auto.
  - unfold EP_typed_info.
    cbn [EP.feedUrl EP.title EP.id EP.parsedData is_text].
    rewrite Hu, (spec_placeholder_title_text a Hatext).
    now rewrite (encodable_app "publisher-" g eq_refl Hgtext).
  - unfold EP_typed_reference. cbn [EP.referenced_in EP.artist_context].
    now rewrite Ht, Ha.
Qed.

Lemma EP_print_publisher_info_total (out : string)
  (pinfo : list (string * json)) :
  wf_publisher_info pinfo = true ->
  exists out', EP.print_publisher_info out (JObj pinfo) = Ok out'.
Proof.
  intros Hwf. apply wf_publisher_info_inv in Hwf as (Ht & Ha & Hd).
  apply (opt_text_field _ _ "N/A" eq_refl) in Ht, Ha, Hd.
  apply is_text_inv in Ht as (t & Ht & Httext), Ha as (a & Ha & Hatext),
      Hd as (d & Hd & Hdtext).
  unfold EP.print_publisher_info. destruct (truthy (JObj pinfo)); [|eauto].
  unfold get. rewrite Ht, Ha, Hd. cbn [bind str].
  rewrite (print_line _ "Publisher Name: " t eq_refl Httext). cbn [bind].
  rewrite (print_line _ "Artist: " a eq_refl Hatext). cbn [bind].
  rewrite (print_line _ "Description: " d eq_refl Hdtext). eauto.
Qed.

Lemma EP_print_reference_total (references : dict EP.reference)
  (out : string) (k : json) :
  typed_dict EP_typed_reference references ->
  exists out', EP.print_reference references out k = Ok out'.
Proof.
  intros Hr. unfold EP.print_reference.
  destruct (dict_find k references) as [r|] eqn:Hfind; [|eauto].
  apply (typed_dict_find _ _ _ _ Hr) in Hfind.
  apply EP_typed_reference_inv in Hfind as (ri & ac & -> & Hri & Hac).
  cbn [EP.referenced_in EP.artist_context bind str].
  rewrite (print_line _ "Referenced in: " ri eq_refl Hri). cbn [bind].
  rewrite (print_line _ "Artist context: " ac eq_refl Hac). eauto.
Qed.

Lemma EP_print_entry_total (references : dict EP.reference) (out : string)
  (item : json * EP.info) :
  typed_dict EP_typed_reference references ->
  key_kind (fst item) = true /\ EP_typed_info (snd item) = true ->
  exists out', EP.print_entry references out item = Ok out'.
Proof.
  destruct item as [k inf]. cbn [fst snd]. intros Hr (Hk & Hinf).
  unfold EP.print_entry. destruct (truthy k) eqn:Htrue; [|eauto].
  destruct (key_kind_inv _ Hk) as [->|(g & -> & Hg)]; [discriminate|].
  apply EP_typed_info_inv in Hinf
      as (u & t & i & pd & -> & Hu & Ht & Hi & Hpi).
  cbn [EP.feedUrl EP.title EP.id EP.parsedData bind str get].
  rewrite (print_line _ "Feed GUID: " g eq_refl Hg). cbn [bind].
  rewrite (print_line _ "Feed URL: " u eq_refl Hu). cbn [bind].
  rewrite (print_line _ "Title: " t eq_refl Ht). cbn [bind].
  rewrite (print_line _ "ID: " i eq_refl Hi). cbn [bind].
  destruct (opt_object_field _ pd "publisherInfo" Hpi eq_refl)
    as (pinfo & -> & Hpwf).
  match goal with
  | |- context [EP.print_publisher_info ?o _] =>
      destruct (EP_print_publisher_info_total o pinfo Hpwf) as (o1 & ->)
  end.
  cbn [bind].
  destruct (EP_print_reference_total references o1 (JStr g) Hr) as (o2 & ->).
  cbn [bind]. eexists. reflexivity.
Qed.

Lemma document_feeds (data : json) :
  wf_document data = true ->
  (feeds_v <- get data "feeds" (JArr []) ;; iter feeds_v)
  = Ok (feeds_of data) /\
  Forall (fun f => wf_feed f = true) (feeds_of data).
Proof.
  intros Hwf. destruct data as [| | | | |kvs]; try discriminate.
  simpl in Hwf. unfold get, field, feeds_of. cbn [bind].
  destruct (assoc "feeds" kvs) as [[]|]; try discriminate.
  - split; [reflexivity|]. apply Forall_forall. now apply forallb_forall.
  - split; [reflexivity | constructor].
Qed.

(** A run of the first script up to the two maps. *)
Lemma EP_extract_total (data : json) :
  wf_document data = true ->
  exists publishers references,
    EP.extract_publishers data = Ok (publishers, references) /\
    typed_dict EP_typed_info publishers /\
    typed_dict EP_typed_reference references.
Proof.
  intros Hwf.
  destruct (document_feeds data Hwf) as (Hget & Hall).
  set (feeds := feeds_of data) in *.
  unfold EP.extract_publishers, EP.primary_scan.
  apply bind_ok in Hget as (feeds_v & Hv & Hiter). rewrite Hv. cbn [bind].
  rewrite Hiter. cbn [bind].
  destruct (for_each_total (typed_dict EP_typed_info)
              (fun f => wf_feed f = true) EP.primary_feed
              EP_primary_feed_total feeds [] Hall (Forall_nil _))
    as (primary & -> & Hprimary).
  cbn [bind].
  destruct (for_each_total
              (fun st => typed_dict EP_typed_info (fst st) /\
                         typed_dict EP_typed_reference (snd st))
              (fun f => wf_feed f = true) EP.reference_feed
              EP_reference_feed_total feeds (primary, []) Hall
              (conj Hprimary (Forall_nil _)))
    as ([publishers references] & -> & Hp & Hr).
  eauto.
Qed.

Lemma EP_title_keys (publishers : dict EP.info) :
  typed_dict EP_typed_info publishers ->
  Forall (fun e => EP.title (snd e) = JStr (EP_title_text e)) publishers.
Proof.
  apply Forall_impl. intros [k inf] (_ & Hinf). cbn [snd] in *.
  apply EP_typed_info_inv in Hinf as (u & t & i & pd & -> & _).
  reflexivity.
Qed.

Lemma EP_report_total (publishers : dict EP.info)
  (references : dict EP.reference) :
  typed_dict EP_typed_info publishers ->
  typed_dict EP_typed_reference references ->
  exists out, EP.report publishers references = Ok out.
Proof.
  intros Hp Hr. unfold EP.report.
  rewrite print_ascii by reflexivity. cbn [bind].
  destruct (sorted_by_strings (fun x : json * EP.info => EP.title (snd x))
              EP_title_text (fun _ => true) publishers (EP_title_keys _ Hp))
    as (items & -> & Hperm & _).
  cbn [bind].
  match goal with
  | |- context [for_each _ _ ?start] =>
      destruct (for_each_total (fun _ : string => True)
                  (fun e : json * EP.info =>
                     key_kind (fst e) = true /\ EP_typed_info (snd e) = true)
                  (EP.print_entry references)
                  (fun s x _ Hx =>
                     match EP_print_entry_total references s x Hr Hx with
                     | ex_intro _ o Ho => ex_intro _ o (conj Ho I)
                     end)
                  items start)
        as (out & -> & _)
  end.
  - eapply Permutation_Forall; [exact Hperm | exact Hp].
  - exact I.
  - cbn [bind]. rewrite print_count by reflexivity. eauto.
Qed.

(** *** final_publisher_summary.py *)

Lemma FS_feed_guid_string (u : string) :
  encodable u = true ->
  exists g, FS.feed_guid_of (JStr u) = Ok g /\ key_kind g = true.
Proof.
  intros Hu. unfold FS.feed_guid_of. cbn [bind contains].
  destruct (str_in "wavlake.com/feed/artist/" u).
  - destruct (split_last_segment "/" u) as (seg & Hlast & _).
    exists (JStr seg). cbn [split_last]. rewrite Hlast.
    split; [reflexivity|]. exact (encodable_segment u seg Hu Hlast).
  - cbn [bind]. destruct (str_in "zine.bitpunk.fm/feeds/publisher.xml" u);
      [eauto|].
    cbn [bind]. destruct (str_in "re.podtards.com" u); eauto.
Qed.

Lemma FS_typed_info_inv (inf : FS.info) :
  FS_typed_info inf = true ->
  exists u t i pn a d st pr,
    inf = {| FS.feedGuid := FS.feedGuid inf; FS.feedUrl := JStr u;
             FS.title := JStr t; FS.id := JStr i;
             FS.publisherName := JStr pn; FS.artist := JStr a;
             FS.description := JStr d; FS.status := JStr st;
             FS.priority := JStr pr |} /\
    Forall (fun s => encodable s = true) [u; t; i; pn; a; d; st; pr].
Proof.
  destruct inf as [fg fu ft fi fpn fa fd fst fpr]. unfold FS_typed_info.
  cbn. rewrite !andb_true_iff.
  intros (((((((Hu & Ht) & Hi) & Hpn) & Ha) & Hd) & Hst) & Hpr).
  apply is_text_inv in Hu as (u & -> & ?), Ht as (t & -> & ?),
      Hi as (i & -> & ?), Hpn as (pn & -> & ?), Ha as (a & -> & ?),
      Hd as (d & -> & ?), Hst as (st & -> & ?), Hpr as (pr & -> & ?).
  exists u, t, i, pn, a, d, st, pr. split; [reflexivity|].
  repeat constructor; assumption.
Qed.

Lemma FS_typed_mapping_inv (m : FS.mapping) :
  FS_typed_mapping m = true ->
  exists n sl u st,
    m = {| FS.guid := FS.guid m; FS.displayName := JStr n;
           FS.urlSlug := JStr sl; FS.mFeedUrl := JStr u;
           FS.mStatus := JStr st |} /\
    Forall (fun s => encodable s = true) [n; sl; u; st].
Proof.
  destruct m as [g n sl u st]. unfold FS_typed_mapping. cbn.
  rewrite !andb_true_iff. intros (((Hn & Hsl) & Hu) & Hst).
  apply is_text_inv in Hn as (n' & -> & ?), Hsl as (sl' & -> & ?),
      Hu as (u' & -> & ?), Hst as (st' & -> & ?).
  exists n', sl', u', st'. split; [reflexivity|].
  repeat constructor; assumption.
Qed.

Lemma FS_primary_feed_total (publishers : dict FS.info) (feed : json) :
  typed_dict FS_typed_info publishers -> wf_feed feed = true ->
  exists publishers',
    FS.primary_feed publishers feed = Ok publishers' /\
    typed_dict FS_typed_info publishers'.
Proof.
  intros Hp Hwf.
  apply wf_feed_inv in Hwf as (kvs & -> & Hu & Ht & Hi & Hst & Hpr & Hpd).
  unfold FS.primary_feed, get. cbn [bind].
  destruct (eq_str (field kvs "type" JNull) "publisher"); [|eauto].
  unfold FS.publisher_entry, get. cbn [bind].
  apply (opt_text_field _ _ "" eq_refl) in Hu, Ht, Hi, Hst, Hpr.
  destruct (opt_object_field _ kvs "parsedData" Hpd eq_refl)
    as (pd & -> & Hpdwf).
  apply wf_parsed_data_inv in Hpdwf as (_ & Hpi).
  destruct (opt_object_field _ pd "publisherInfo" Hpi eq_refl)
    as (pinfo & -> & Hpwf).
  apply wf_publisher_info_inv in Hpwf as (Hpt & Hpa & Hpdesc).
  apply (opt_text_field _ _ "" eq_refl) in Hpt, Hpa, Hpdesc.
  destruct (is_text_inv _ Hu) as (u & Hurl & Hutext). rewrite Hurl in *.
  destruct (FS_feed_guid_string u Hutext) as (g & -> & Hkind).
  cbn [bind]. unfold dict_store.
  rewrite (key_kind_hash _ Hkind). cbn [bind].
  eexists. split; [reflexivity|].
  apply typed_dict_set; auto.
  unfold FS_typed_info.
  cbn [FS.feedUrl FS.title FS.id FS.publisherName FS.artist FS.description
       FS.status FS.priority].
  now rewrite Hu, Ht, Hi, Hst, Hpr, Hpt, Hpa, Hpdesc.
Qed.

Lemma FS_collect_feed_total (refs : list (json * json)) (feed : json) :
  typed_refs refs -> wf_feed feed = true ->
  exists refs', FS.collect_feed refs feed = Ok refs' /\ typed_refs refs'.
Proof.
  intros Hrefs Hwf.
  apply wf_feed_inv in Hwf as (kvs & -> & _ & _ & _ & _ & _ & Hpd).
  unfold FS.collect_feed, get. cbn [bind].
  destruct (opt_object_field _ kvs "parsedData" Hpd eq_refl)
    as (pd & -> & Hpdwf).
  apply wf_parsed_data_inv in Hpdwf as (Halb & _). cbn [bind contains].
  destruct (assoc "album" pd) as [v|] eqn:Halbum; [|eauto].
  destruct (opt_object_assoc _ pd "album" v Halb Halbum)
    as (album & -> & Hawf).
  apply wf_album_inv in Hawf as (Hpub & _).
  cbn [bind index]. rewrite Halbum. cbn [bind].
  destruct (opt_object_field _ album "publisher" Hpub eq_refl)
    as (pi & -> & Hpiwf).
  apply wf_publisher_ref_inv in Hpiwf as (Hg & Hu). cbn [bind].
  destruct (eq_str (field pi "medium" JNull) "publisher"); [|eauto].
  apply opt_text_key in Hg. apply (opt_text_field _ _ "" eq_refl) in Hu.
  unfold set_add. cbn [fst snd]. rewrite (key_kind_hash _ Hg).
  destruct (is_text_inv _ Hu) as (u & Hurl & Hutext). rewrite Hurl in *.
  cbn [bind hash]. eexists. split; [reflexivity|].
  destruct (existsb _ refs); [exact Hrefs|].
  apply Forall_app. split; [exact Hrefs|]. constructor; [|constructor].
  cbn [fst snd]. auto.
Qed.

Lemma FS_missing_publisher_total (publishers : dict FS.info)
  (ref : json * json) :
  typed_dict FS_typed_info publishers ->
  key_kind (fst ref) = true /\ is_text (snd ref) = true ->
  exists publishers',
    FS.missing_publisher publishers ref = Ok publishers' /\
    typed_dict FS_typed_info publishers'.
Proof.
  destruct ref as [k url]. cbn [fst snd]. intros Hp (Hk & Hurl).
  unfold FS.missing_publisher. destruct (truthy k) eqn:Htrue; [|eauto].
  destruct (key_kind_inv _ Hk) as [->|(g & -> & Hg)]; [discriminate|].
  apply is_text_inv in Hurl as (u & -> & Hu).
  unfold dict_contains, dict_store. cbn [bind hash].
  destruct (dict_mem (JStr g) publishers); [eauto|].
  unfold FS.inferred_name. cbn [bind contains].
  assert (Hid : encodable ("publisher-" ++ g) = true)
    by now apply (encodable_app "publisher-").
  assert (Hname : encodable ("Wavlake Artist (" ++ str_take 8 g ++ "...)")
                  = true).
  { apply (encodable_app "Wavlake Artist ("); [reflexivity|].
    apply encodable_app; [now apply encodable_take | reflexivity]. }
  destruct (str_in "wavlake.com" u); cbn [bind take str];
    (eexists; split; [reflexivity|]; apply typed_dict_set; auto;
     unfold FS_typed_info;
     cbn [FS.feedUrl FS.title FS.id FS.publisherName FS.artist
          FS.description FS.status FS.priority is_text];
     now rewrite ?Hu, ?Hid, ?Hname).
Qed.

Lemma FS_extract_total (set_order : list (json * json) -> list (json * json))
  (data : json) :
  (forall l, Permutation (set_order l) l) ->
  wf_document data = true ->
  exists publishers,
    FS.extract_all_publishers set_order data = Ok publishers /\
    typed_dict FS_typed_info publishers.
Proof.
  intros Hperm Hwf. destruct (document_feeds data Hwf) as (Hget & Hall).
  unfold FS.extract_all_publishers, FS.primary_scan, FS.collect_references.
  apply bind_ok in Hget as (feeds_v & Hv & Hiter). rewrite Hv. cbn [bind].
  rewrite Hiter. cbn [bind].
  destruct (for_each_total (typed_dict FS_typed_info)
              (fun f => wf_feed f = true) FS.primary_feed
              FS_primary_feed_total (feeds_of data) [] Hall (Forall_nil _))
    as (primary & -> & Hprimary).
  cbn [bind].
  destruct (for_each_total typed_refs
              (fun f => wf_feed f = true) FS.collect_feed
              FS_collect_feed_total (feeds_of data) [] Hall (Forall_nil _))
    as (refs & -> & Hrefs).
  cbn [bind].
  apply (for_each_total (typed_dict FS_typed_info)
           (fun x => key_kind (fst x) = true /\ is_text (snd x) = true)
           FS.missing_publisher FS_missing_publisher_total);
    [|exact Hprimary].
  eapply Permutation_Forall; [symmetry; apply Hperm | exact Hrefs].
Qed.

Section LowerAssumed.
Variable str_lower : string -> string.
Hypothesis str_lower_ok : python_lower str_lower.

Lemma spec_display_name_text (pn t a u g : string) :
  Forall (fun s => encodable s = true) [pn; t; a; g] ->
  encodable (spec_display_name str_lower pn t a u g) = true.
Proof.
  intros H. inversion H as [|? ? Hpn H1]; subst.
  inversion H1 as [|? ? Ht H2]; subst. inversion H2 as [|? ? Ha H3]; subst.
  inversion H3 as [|? ? Hg _]; subst.
  assert (Hcut : encodable (first_chars 8 g) = true).
  { rewrite <- str_take_first_chars. now apply encodable_take. }
  unfold spec_display_name.
  destruct (_ || _)%bool.
  - destruct (str_in "wavlake.com/feed/artist/" u);
      [now apply (encodable_app "Wavlake Artist ")|].
    destruct (str_in "bitpunk.fm" u); [reflexivity|].
    destruct (str_in "doerfel" (str_lower u)); [reflexivity|].
    now apply (encodable_app "Publisher ").
  - destruct (negb (String.eqb pn "")); [exact Hpn|].
    destruct (negb (String.eqb t "")); [exact Ht | exact Ha].
Qed.

Lemma spec_strip_text (name : string) :
  encodable name = true -> encodable (spec_strip (str_lower name)) = true.
Proof.
  intros Hname. rewrite <- replaces_are_strip.
  do 4 (apply encodable_replace; [reflexivity | reflexivity |]).
  now apply (lower_encodable _ str_lower_ok).
Qed.

Lemma FS_map_publisher_total (mappings : dict FS.mapping)
  (item : json * FS.info) :
  typed_dict FS_typed_mapping mappings ->
  key_kind (fst item) = true /\ FS_typed_info (snd item) = true ->
  exists mappings',
    FS.map_publisher str_lower mappings item = Ok mappings' /\
    typed_dict FS_typed_mapping mappings'.
Proof.
  destruct item as [k inf]. cbn [fst snd]. intros Hm (Hk & Hinf).
  unfold FS.map_publisher. destruct (FS.valid_guid k) eqn:Hvalid; [|eauto].
  destruct (key_kind_inv _ Hk) as [->|(g & -> & Hg)]; [discriminate|].
  apply FS_typed_info_inv in Hinf
      as (u & t & i & pn & a & d & st & pr & -> & Htext).
  rewrite FS_display_name_string. cbn [bind].
  rewrite url_safe_is_spec_strip. cbn [bind]. unfold dict_store.
  cbn [bind hash]. eexists. split; [reflexivity|].
  apply typed_dict_set; auto.
  rewrite Forall_forall in Htext.
  assert (Hname : encodable (spec_display_name str_lower pn t a u g) = true).
  { apply spec_display_name_text.
    repeat constructor; try exact Hg; apply Htext; simpl; auto 10. }
  unfold FS_typed_mapping.
  cbn [FS.displayName FS.urlSlug FS.mFeedUrl FS.mStatus FS.feedUrl
       FS.status is_text].
  rewrite Hname, (spec_strip_text _ Hname).
  rewrite (Htext u), (Htext st); simpl; auto 10.
Qed.

Lemma FS_create_total (publishers : dict FS.info) :
  typed_dict FS_typed_info publishers ->
  exists mappings,
    FS.create_human_readable_mappings str_lower publishers = Ok mappings /\
    typed_dict FS_typed_mapping mappings.
Proof.
  intros Hp. unfold FS.create_human_readable_mappings.
  apply (for_each_total (typed_dict FS_typed_mapping)
           (fun e : json * FS.info =>
              key_kind (fst e) = true /\ FS_typed_info (snd e) = true)
           (FS.map_publisher str_lower) FS_map_publisher_total);
    [exact Hp | constructor].
Qed.

End LowerAssumed.

Lemma FS_print_entry_total (out : string) (item : json * FS.info) :
  key_kind (fst item) = true /\ FS_typed_info (snd item) = true ->
  exists out', FS.print_entry out item = Ok out'.
Proof.
  destruct item as [k inf]. cbn [fst snd]. intros (Hk & Hinf).
  unfold FS.print_entry. destruct (FS.valid_guid k) eqn:Hvalid; [|eauto].
  destruct (key_kind_inv _ Hk) as [->|(g & -> & Hg)]; [discriminate|].
  apply FS_typed_info_inv in Hinf
      as (u & t & i & pn & a & d & st & pr & -> & Htext).
  rewrite Forall_forall in Htext.
  cbn [FS.feedUrl FS.title FS.publisherName FS.artist FS.description
       FS.status FS.priority bind str].
  rewrite (print_line _ "Feed GUID: " g eq_refl Hg). cbn [bind].
  rewrite (print_line _ "Feed URL: " u eq_refl) by (apply Htext; simpl; auto 10).
  cbn [bind].
  rewrite (print_line _ "Title: " t eq_refl) by (apply Htext; simpl; auto 10).
  cbn [bind].
  rewrite (print_line _ "Publisher Name: " pn eq_refl)
    by (apply Htext; simpl; auto 10).
  cbn [bind].
  rewrite (print_line _ "Artist: " a eq_refl) by (apply Htext; simpl; auto 10).
  cbn [bind].
  rewrite (print_line _ "Description: " d eq_refl)
    by (apply Htext; simpl; auto 10).
  cbn [bind].
  rewrite (print_line _ "Status: " st eq_refl) by (apply Htext; simpl; auto 10).
  cbn [bind].
  rewrite (print_line _ "Priority: " pr eq_refl)
    by (apply Htext; simpl; auto 10).
  cbn [bind]. eexists. reflexivity.
Qed.

Lemma FS_print_mapping_total (out : string) (item : json * FS.mapping) :
  key_kind (fst item) = true /\ FS_typed_mapping (snd item) = true ->
  exists out', FS.print_mapping out item = Ok out'.
Proof.
  destruct item as [k m]. cbn [fst snd]. intros (Hk & Hm).
  unfold FS.print_mapping.
  apply FS_typed_mapping_inv in Hm as (n & sl & u & st & -> & Htext).
  rewrite Forall_forall in Htext.
  assert (Hg : exists g, str k = Ok g /\ encodable g = true).
  { destruct (key_kind_inv _ Hk) as [->|(g & -> & Hg)];
      [exists "None" | exists g]; auto. }
  destruct Hg as (g & -> & Hg).
  cbn [FS.displayName FS.urlSlug FS.mFeedUrl FS.mStatus bind str].
  rewrite (print_line _ "GUID: " g eq_refl Hg). cbn [bind].
  rewrite (print_line _ "Display Name: " n eq_refl)
    by (apply Htext; simpl; auto 10).
  cbn [bind].
  rewrite (print_line _ "URL Slug: " sl eq_refl)
    by (apply Htext; simpl; auto 10).
  cbn [bind].
  rewrite (print_line _ "Feed URL: " u eq_refl) by (apply Htext; simpl; auto 10).
  cbn [bind].
  rewrite (print_line _ "Status: " st eq_refl) by (apply Htext; simpl; auto 10).
  cbn [bind]. eexists. reflexivity.
Qed.

Lemma FS_title_keys (publishers : dict FS.info) :
  typed_dict FS_typed_info publishers ->
  Forall (fun e => FS.title_key e = JStr (FS_title_text e)) publishers.
Proof.
  apply Forall_impl. intros [k inf] (_ & Hinf). cbn [snd] in *.
  apply FS_typed_info_inv in Hinf
      as (u & t & i & pn & a & d & st & pr & -> & _).
  unfold FS.title_key, FS_title_text. cbn.
  destruct (String.eqb_spec t ""); [subst|]; reflexivity.
Qed.

Lemma FS_name_keys (mappings : dict FS.mapping) :
  typed_dict FS_typed_mapping mappings ->
  Forall (fun e => FS.displayName (snd e) = JStr (FS_name_text e)) mappings.
Proof.
  apply Forall_impl. intros [k m] (_ & Hm). cbn [snd] in *.
  apply FS_typed_mapping_inv in Hm as (n & sl & u & st & -> & _).
  reflexivity.
Qed.

Lemma FS_report_total (publishers : dict FS.info)
  (mappings : dict FS.mapping) :
  typed_dict FS_typed_info publishers ->
  typed_dict FS_typed_mapping mappings ->
  exists out, FS.report publishers mappings = Ok out.
Proof.
  intros Hp Hm. unfold FS.report.
  rewrite print_ascii by reflexivity. cbn [bind].
  destruct (sorted_by_strings FS.title_key FS_title_text (fun _ => true)
              publishers (FS_title_keys _ Hp))
    as (items & -> & Hperm & _).
  cbn [bind].
  match goal with
  | |- context [for_each FS.print_entry _ ?start] =>
      destruct (for_each_total (fun _ : string => True)
                  (fun e : json * FS.info =>
                     key_kind (fst e) = true /\ FS_typed_info (snd e) = true)
                  FS.print_entry
                  (fun s x _ Hx =>
                     match FS_print_entry_total s x Hx with
                     | ex_intro _ o Ho => ex_intro _ o (conj Ho I)
                     end)
                  items start)
        as (out & -> & _)
  end.
  - eapply Permutation_Forall; [exact Hperm | exact Hp].
  - exact I.
  - cbn [bind]. rewrite print_count by reflexivity. cbn [bind].
    rewrite print_ascii by reflexivity. cbn [bind].
    destruct (sorted_by_strings
                (fun x : json * FS.mapping => FS.displayName (snd x))
                FS_name_text (fun _ => true) mappings (FS_name_keys _ Hm))
      as (rows & -> & Hperm' & _).
    cbn [bind].
    match goal with
    | |- exists o, for_each _ _ ?start = _ =>
        destruct (for_each_total (fun _ : string => True)
                    (fun e : json * FS.mapping =>
                       key_kind (fst e) = true /\
                       FS_typed_mapping (snd e) = true)
                    FS.print_mapping
                    (fun s x _ Hx =>
                       match FS_print_mapping_total s x Hx with
                       | ex_intro _ o Ho => ex_intro _ o (conj Ho I)
                       end)
                    rows start)
          as (out' & -> & _)
    end.
    + eapply Permutation_Forall; [exact Hperm' | exact Hm].
    + exact I.
    + eauto.
Qed.



End Totality.

(** ** Entries under the null key *)

Section NullKey.
Import Py.



Section Retained.
Context {V : Type}.
Variable publisher_entry : json -> result (json * V).
Variable primary_feed : dict V -> json -> result (dict V).

Hypothesis primary_feed_eq : forall publishers feed,
  primary_feed publishers feed =
  (ty <- get feed "type" JNull ;;
   if eq_str ty "publisher" then
     '(k, e) <- publisher_entry feed ;; dict_store k e publishers
   else Ok publishers).

Hypothesis entry_key : forall feed k e,
  publisher_entry feed = Ok (k, e) -> hash k = Ok tt.


End Retained.







Lemma is_str_title_keys {A} (title_of : A -> json) (l : list A) :
  Forall (fun e => is_str (title_of e) = true) l ->
  string_keys title_of
    (fun e => match title_of e with JStr s => s | _ => "" end) l.
Proof.
  apply Forall_impl. intros e He. apply is_str_inv in He as (s & ->).
  reflexivity.
Qed.


Lemma FS_title_key_strings (publishers : dict FS.info) :
  Forall (fun e => is_str (FS.title (snd e)) = true) publishers ->
  string_keys FS.title_key FS_title_text publishers.
Proof.
  apply Forall_impl. intros [k inf] He. cbn [snd] in He.
  apply is_str_inv in He as (t & Ht).
  unfold FS.title_key, FS_title_text. cbn [snd]. rewrite Ht. cbn.
  destruct (String.eqb_spec t ""); [subst|]; reflexivity.
Qed.



(** On a document of the expected types both scripts print a report. *)
Lemma EP_main_total (data : json) :
  wf_document data = true ->
  exists publishers references out,
    EP.extract_publishers data = Ok (publishers, references) /\
    typed_dict EP_typed_info publishers /\
    EP.report publishers references = Ok out /\
    EP.main data = Ok out.
Proof.
  intros Hwf.
  destruct (EP_extract_total data Hwf) as (p & r & Hrun & Hp & Hr).
  destruct (EP_report_total p r Hp Hr) as (out & Hout).
  exists p, r, out. repeat split; auto.
  unfold EP.main. rewrite Hrun. exact Hout.
Qed.

Lemma FS_main_total (str_lower : string -> string)
  (set_order : list (json * json) -> list (json * json)) (data : json) :
  python_lower str_lower ->
  (forall l, Permutation (set_order l) l) ->
  wf_document data = true ->
  exists publishers mappings out,
    FS.extract_all_publishers set_order data = Ok publishers /\
    typed_dict FS_typed_info publishers /\
    FS.create_human_readable_mappings str_lower publishers = Ok mappings /\
    FS.report publishers mappings = Ok out /\
    FS.main str_lower set_order data = Ok out.
Proof.
  intros Hlower Hperm Hwf.
  destruct (FS_extract_total set_order data Hperm Hwf) as (p & Hrun & Hp).
  destruct (FS_create_total str_lower Hlower p Hp) as (m & Hcreate & Hm).
  destruct (FS_report_total p m Hp Hm) as (out & Hout).
  exists p, m, out. repeat split; auto.
  unfold FS.main. rewrite Hrun. cbn [bind]. rewrite Hcreate. exact Hout.
Qed.

End NullKey.

(** ** The mappings of a whole map *)

Section Mappings.
Import Py.

Variable str_lower : string -> string.







End Mappings.

(** ** Lowercase on entries of ASCII characters *)

Section AsciiEntries.
Import Py.
Local Open Scope string_scope.

Variable str_lower : string -> string.
Hypothesis str_lower_ok : python_lower str_lower.

Lemma take_rest_ascii (n : nat) (s : string) :
  is_ascii s = true -> is_ascii (take_rest n s) = true.
Proof.
  revert n. induction s as [|c s IH]; intros n H; [reflexivity|].
  cbn [is_ascii take_rest] in *. apply andb_true_iff in H as (Hc & Hs).
  destruct (is_cont c); [cbn [is_ascii]; now rewrite Hc, IH|].
  destruct n as [|n]; [reflexivity|]. cbn [is_ascii]. now rewrite Hc, IH.
Qed.

Lemma first_chars_ascii (n : nat) (s : string) :
  is_ascii s = true -> is_ascii (first_chars n s) = true.
Proof.
  intros H. rewrite <- str_take_first_chars.
  destruct n as [|n], s as [|c s]; try reflexivity.
  cbn [str_take is_ascii] in *. apply andb_true_iff in H as (Hc & Hs).
  now rewrite Hc, take_rest_ascii.
Qed.

Lemma spec_display_name_lower (pn t a u g : string) :
  is_ascii u = true ->
  spec_display_name str_lower pn t a u g
  = spec_display_name ascii_lower pn t a u g.
Proof.
  intros Hu. unfold spec_display_name.
  now rewrite (lower_ascii _ str_lower_ok u Hu).
Qed.

Lemma spec_display_name_ascii (pn t a u g : string) :
  is_ascii pn = true -> is_ascii t = true -> is_ascii a = true ->
  is_ascii g = true ->
  is_ascii (spec_display_name ascii_lower pn t a u g) = true.
Proof.
  intros Hpn Ht Ha Hg. unfold spec_display_name.
  destruct (_ || _)%bool.
  - destruct (str_in "wavlake.com/feed/artist/" u).
    { rewrite is_ascii_app, first_chars_ascii; auto. }
    destruct (str_in "bitpunk.fm" u); [reflexivity|].
    destruct (str_in "doerfel" (ascii_lower u)); [reflexivity|].
    rewrite is_ascii_app, first_chars_ascii; auto.
  - destruct (negb (String.eqb pn "")); [exact Hpn|].
    destruct (negb (String.eqb t "")); [exact Ht | exact Ha].
Qed.

(** On such an entry every [str.lower] gives the mapping that lowering
    the letters A-Z gives. *)
Lemma FS_map_publisher_ascii (mappings : dict FS.mapping)
  (item : json * FS.info) :
  ascii_entry item = true ->
  FS.map_publisher str_lower mappings item
  = FS.map_publisher ascii_lower mappings item.
Proof.
  destruct item as [k [fg fu ft fi fpn fa fd fstat fpr]].
  unfold ascii_entry. cbn [fst snd FS.feedUrl FS.publisherName FS.title
                           FS.artist].
  rewrite !andb_true_iff. intros ((((Hk & Hu) & Hpn) & Ht) & Ha).
  destruct k as [| | |g| |]; try discriminate Hk.
  destruct fu as [| | |u| |]; try discriminate Hu.
  destruct fpn as [| | |pn| |]; try discriminate Hpn.
  destruct ft as [| | |t| |]; try discriminate Ht.
  destruct fa as [| | |a| |]; try discriminate Ha.
  cbn [is_ascii_text] in *.
  unfold FS.map_publisher. destruct (FS.valid_guid (JStr g)); [|reflexivity].
  rewrite !FS_display_name_string. cbn [bind].
  rewrite !url_safe_is_spec_strip. cbn [bind].
  rewrite (spec_display_name_lower pn t a u g Hu).
  now rewrite (lower_ascii _ str_lower_ok _
                 (spec_display_name_ascii pn t a u g Hpn Ht Ha Hk)).
Qed.

Lemma for_each_ext {S A} (f g : S -> A -> result S) (l : list A) (s : S) :
  Forall (fun x => forall s, f s x = g s x) l ->
  for_each f l s = for_each g l s.
Proof.
  intros H. revert s. induction H as [|x l Hx _ IH]; intros s; [reflexivity|].
  cbn [for_each]. rewrite Hx. destruct (g s x); cbn [bind]; auto.
Qed.

Lemma FS_create_ascii (publishers : dict FS.info) :
  forallb ascii_entry publishers = true ->
  FS.create_human_readable_mappings str_lower publishers
  = FS.create_human_readable_mappings ascii_lower publishers.
Proof.
  intros H. unfold FS.create_human_readable_mappings.
  apply for_each_ext. apply Forall_forall. intros x Hx m.
  apply FS_map_publisher_ascii.
  rewrite forallb_forall in H. now apply H.
Qed.

(** A run that extracts such entries prints what it prints when
    [str.lower] lowers the letters A-Z. *)
Lemma FS_main_ascii (set_order : list (json * json) -> list (json * json))
  (data : json) (publishers : dict FS.info) :
  FS.extract_all_publishers set_order data = Ok publishers ->
  forallb ascii_entry publishers = true ->
  FS.main str_lower set_order data = FS.main ascii_lower set_order data.
Proof.
  intros Hrun Hascii. unfold FS.main. rewrite Hrun. cbn [bind].
  now rewrite FS_create_ascii.
Qed.

End AsciiEntries.






(** C8, as claimed, fails: a document that is valid JSON, with a feed
    whose [parsedData] is null or whose [originalUrl] is null, ends both
    scripts with a TypeError; and a title that holds a lone surrogate,
    which JSON can spell, ends the report with a UnicodeEncodeError. *)
Lemma absent_fields_counterexample :
  let data := document [JObj [("parsedData", JNull)]] in
  let data' := document [JObj [("type", JStr "publisher");
                               ("originalUrl", JNull)]] in
  let data'' :=
    document [JObj [("type", JStr "publisher");
                    ("originalUrl",
                     JStr "https://wavlake.com/feed/artist/abc123");
                    ("title", JStr lone_surrogate)]] in
  EP.main data = Raise TypeError /\
  (forall str_lower set_order,
      FS.main str_lower set_order data = Raise TypeError) /\
  EP.main data' = Raise TypeError /\
  (forall str_lower set_order,
      FS.main str_lower set_order data' = Raise TypeError) /\
  EP.main data'' = Raise UnicodeEncodeError /\
  FS.main Py.ascii_lower (fun refs => refs) data''
  = Raise UnicodeEncodeError.
Proof.
  cbv zeta. repeat split; reflexivity.
Qed.

(** C8, amended: on a document in which every field the scripts read is
    absent or of its type, a string holding no lone surrogate or a dict,
    both scripts run to the end, an absent field standing for the empty
    string or the empty dict; a feed with no field at all is such a
    record. *)
Theorem absent_fields_never_fatal (data : json) :
  wf_document data = true ->
  (exists out, EP.main data = Ok out) /\
  (forall str_lower set_order,
      python_lower str_lower ->
      (forall l, Permutation (set_order l) l) ->
      exists out, FS.main str_lower set_order data = Ok out) /\
  wf_feed (JObj []) = true /\
  EP.publisher_entry (JObj [("type", JStr "publisher")]) =
  Ok (JNull, {| EP.feedGuid := JNull; EP.feedUrl := JStr "";
                EP.title := JStr ""; EP.id := JStr "";
                EP.parsedData := JObj [] |}) /\
  FS.publisher_entry (JObj [("type", JStr "publisher")]) =
  Ok (JNull, {| FS.feedGuid := JNull; FS.feedUrl := JStr "";
                FS.title := JStr ""; FS.id := JStr "";
                FS.publisherName := JStr ""; FS.artist := JStr "";
                FS.description := JStr ""; FS.status := JStr "";
                FS.priority := JStr "" |}).
Proof.
  intros Hwf. split; [|split; [|repeat split]].
  - destruct (EP_main_total data Hwf) as (p & r & out & _ & _ & _ & H).
    eauto.
  - intros str_lower set_order Hlower Hperm.
    destruct (FS_main_total str_lower set_order data Hlower Hperm Hwf)
      as (p & m & out & _ & _ & _ & _ & H).
    eauto.
Qed.

Lemma absent_fields_never_fatal_witness :
  let data := document [wavlake_feed; album_feed; JObj [];
                        JObj [("type", JStr "publisher");
                              ("title", JStr "Café ünïcode")]] in
  wf_document data = true /\
  python_lower Py.ascii_lower /\
  (forall l : list (json * json), Permutation (rev l) l) /\
  (exists out, EP.main data = Ok out) /\
  (exists out, FS.main Py.ascii_lower (@rev (json * json)) data = Ok out).
Proof.
  intros data. split; [reflexivity|].
  split; [exact ascii_lower_python|].
  split; [intros l; symmetry; apply Permutation_rev|].
  destruct (absent_fields_never_fatal data eq_refl) as (HE & HF & _).
  split; [exact HE|].
  apply HF; [exact ascii_lower_python|].
  intros l. symmetry. apply Permutation_rev.
Defined.

(** C9 does not hold of the second script: on a document in which two
    albums refer to the publishers "a" and "b", the report lists the two
    synthesized entries, both titled "Unknown Publisher", in the order the
    set is iterated in, which Python does not fix. *)
Theorem report_depends_on_set_order (str_lower : string -> string) :
  python_lower str_lower ->
  let data := document [album_feed_of "a" ""; album_feed_of "b" ""] in
  (forall l : list (json * json), Permutation ((fun refs => refs) l) l) /\
  (forall l : list (json * json), Permutation (rev l) l) /\
  exists out out',
    FS.main str_lower (fun refs => refs) data = Ok out /\
    FS.main str_lower (@rev (json * json)) data = Ok out' /\
    out <> out'.
Proof.
  intros Hlower data. split; [intros l; apply Permutation_refl|].
  split; [intros l; symmetry; apply Permutation_rev|].
  eexists. eexists. split; [|split].
  - rewrite (FS_main_ascii str_lower Hlower (fun refs => refs) data _
               eq_refl eq_refl).
    vm_compute. reflexivity.
  - rewrite (FS_main_ascii str_lower Hlower (@rev (json * json)) data _
               eq_refl eq_refl).
    vm_compute. reflexivity.
  - apply String.eqb_neq. vm_compute. reflexivity.
Qed.

Lemma report_depends_on_set_order_witness :
  let data := document [album_feed_of "a" ""; album_feed_of "b" ""] in
  python_lower Py.ascii_lower /\
  exists out out',
    FS.main Py.ascii_lower (fun refs => refs) data = Ok out /\
    FS.main Py.ascii_lower (@rev (json * json)) data = Ok out' /\
    out <> out'.
Proof.
  intros data. split; [exact ascii_lower_python|].
  exact (proj2 (proj2 (report_depends_on_set_order Py.ascii_lower
                         ascii_lower_python))).
Defined.

(** ** Which GUIDs the final map holds *)

Section Membership.
Import Py.

Lemma str_chars_cons (c : ascii) (s : string) :
  exists ch chs, str_chars (String c s) = ch :: chs.
Proof.
  destruct s as [|c' s]; cbn [str_chars]; [eauto|].
  destruct (is_cont c'); [|eauto].
  destruct (match s with
            | EmptyString => _
            | String _ _ => _
            end); eauto.
Qed.

Lemma iterated_feeds (data feeds_v : json) (feeds : list json) :
  get data "feeds" (JArr []) = Ok feeds_v -> iter feeds_v = Ok feeds ->
  (exists f rest, feeds = f :: rest /\ forall kvs, f <> JObj kvs) \/
  feeds = feeds_of data.
Proof.
  destruct data as [| | | | |kvs]; try discriminate.
  unfold get, field, feeds_of. intros H. injection H as <-.
  destruct (assoc "feeds" kvs) as [[| | |s|l|o]|]; simpl; try discriminate;
    intros H; injection H as <-; auto.
  - destruct s as [|c s]; [now right|]. left.
    destruct (str_chars_cons c s) as (ch & chs & ->). simpl. do 2 eexists.
    split; [reflexivity|]. discriminate.
  - destruct o as [|[k v] o]; [now right|]. left. simpl. do 2 eexists.
    split; [reflexivity|]. discriminate.
Qed.

Lemma truthy_key_eqb (a b : json) :
  key_eqb a b = true -> truthy a = truthy b.
Proof.
  destruct a as [|ba|za|sa|la|oa], b as [|bb|zb|sb|lb|ob]; simpl;
    try discriminate; try reflexivity; intros H.
  - destruct ba, bb; simpl in H; congruence.
  - apply Z.eqb_eq in H. subst zb. destruct ba; reflexivity.
  - apply Z.eqb_eq in H. subst za. destruct bb; reflexivity.
  - apply Z.eqb_eq in H. now subst.
  - apply String.eqb_eq in H. now subst.
Qed.

Lemma key_eqb_right (a b q : json) :
  key_eqb a b = true -> key_eqb a q = key_eqb b q.
Proof.
  intros Hab. destruct (key_eqb b q) eqn:Hbq.
  - now apply key_eqb_trans with b.
  - destruct (key_eqb a q) eqn:Haq; [|reflexivity].
    rewrite key_eqb_sym in Hab.
    rewrite (key_eqb_trans _ _ _ Hab Haq) in Hbq. discriminate.
Qed.

Lemma key_eqb_left (a b q : json) :
  key_eqb a b = true -> key_eqb q a = key_eqb q b.
Proof.
  intros Hab. rewrite (key_eqb_sym q a), (key_eqb_sym q b).
  now apply key_eqb_right.
Qed.

Lemma dict_mem_eqb {V} (a b : json) (d : dict V) :
  key_eqb a b = true -> dict_mem a d = dict_mem b d.
Proof.
  intros Hab. unfold dict_mem.
  induction d as [|[k v] d IH]; [reflexivity|]. simpl.
  rewrite (key_eqb_left a b k Hab). destruct (key_eqb k b); auto.
Qed.

Lemma dict_mem_set {V} (k q : json) (v : V) (d : dict V) :
  dict_mem q (dict_set k v d) = (dict_mem q d || key_eqb k q)%bool.
Proof.
  unfold dict_mem. destruct (key_eqb k q) eqn:Hkq.
  - rewrite (dict_find_set_same _ _ _ _ Hkq). now rewrite orb_true_r.
  - rewrite (dict_find_set_other _ _ _ _ Hkq). now rewrite orb_false_r.
Qed.

(** Storing under a true key the map may hold already. *)
Lemma dict_mem_known {V} (k q : json) (d : dict V) :
  dict_mem k d = true ->
  dict_mem q d = (dict_mem q d || key_eqb k q)%bool.
Proof.
  intros Hk. destruct (key_eqb k q) eqn:Hkq.
  - rewrite <- (dict_mem_eqb k q d Hkq), Hk. reflexivity.
  - now rewrite orb_false_r.
Qed.

Lemma for_each_mem {S A} (mem : S -> bool) (hit : A -> bool)
  (body : S -> A -> result S) :
  (forall s x s', body s x = Ok s' -> mem s' = (mem s || hit x)%bool) ->
  forall l s s', for_each body l s = Ok s' ->
                 mem s' = (mem s || existsb hit l)%bool.
Proof.
  intros Hstep l. induction l as [|x l IH]; intros s s' H; simpl in H.
  - injection H as <-. simpl. now rewrite orb_false_r.
  - apply bind_ok in H as (s1 & H1 & H2).
    rewrite (IH _ _ H2), (Hstep _ _ _ H1). simpl. now rewrite orb_assoc.
Qed.

(** A step of the second loop of the first script adds the GUID the feed
    refers to, when it is true, and nothing else. *)
Lemma EP_reference_feed_mem (q : json)
  (st : dict EP.info * dict EP.reference) (feed : json)
  (st' : dict EP.info * dict EP.reference) :
  EP.reference_feed st feed = Ok st' ->
  dict_mem q (fst st') = (dict_mem q (fst st) || refers_to q feed)%bool.
Proof.
  destruct st as [p r]. unfold EP.reference_feed, refers_to, album_reference.
  cbn [fst]. intros H.
  apply bind_ok in H as (pd & -> & H). cbn [bind].
  apply bind_ok in H as (has & -> & H). cbn [bind].
  destruct has; [|injection H as <-; cbn; now rewrite orb_false_r].
  apply bind_ok in H as (album & -> & H). cbn [bind].
  apply bind_ok in H as (pi & Hpi & H). rewrite Hpi. cbn [bind].
  apply bind_ok in H as (medium & -> & H). cbn [bind].
  destruct (eq_str medium "publisher");
    [|injection H as <-; cbn; now rewrite orb_false_r].
  apply bind_ok in H as (g & Hg & H). rewrite Hg. cbn [bind].
  destruct pi; try discriminate. cbn [get bind].
  destruct (truthy g) eqn:Htrue;
    [|injection H as <-; cbn; now rewrite orb_false_r].
  apply bind_ok in H as (known & Hknown & H).
  apply dict_contains_ok in Hknown as (_ & ->). cbn [andb].
  destruct (dict_mem g p) eqn:Hmem.
  - injection H as <-. cbn [fst]. now apply dict_mem_known.
  - do 4 (apply bind_ok in H as (? & _ & H)).
    apply bind_ok in H as (p' & Hstore & H).
    apply dict_store_ok in Hstore as (_ & ->).
    do 2 (apply bind_ok in H as (? & _ & H)).
    injection H as <-. cbn [fst]. apply dict_mem_set.
Qed.

(** A step of the third loop of the second script adds the GUID of the
    pair, when it is true, and nothing else. *)
Lemma FS_missing_publisher_mem (q : json) (p : dict FS.info)
  (ref : json * json) (p' : dict FS.info) :
  FS.missing_publisher p ref = Ok p' ->
  dict_mem q p' = (dict_mem q p || pair_refers_to q ref)%bool.
Proof.
  destruct ref as [g url]. unfold FS.missing_publisher, pair_refers_to.
  cbn [fst]. intros H.
  destruct (truthy g); [|injection H as <-; cbn; now rewrite orb_false_r].
  apply bind_ok in H as (known & Hknown & H).
  apply dict_contains_ok in Hknown as (_ & ->). cbn [andb].
  destruct (dict_mem g p) eqn:Hmem.
  - injection H as <-. now apply dict_mem_known.
  - do 2 (apply bind_ok in H as (? & _ & H)).
    apply dict_store_ok in H as (_ & ->). apply dict_mem_set.
Qed.

Lemma hash_key_eqb_refl (k : json) (u : unit) :
  hash k = Ok u -> key_eqb k k = true.
Proof. destruct u. apply key_eqb_refl. Qed.

Lemma pair_refers_to_eqb (q : json) (x y : json * json) :
  pair_eqb x y = true -> pair_refers_to q x = pair_refers_to q y.
Proof.
  unfold pair_eqb, pair_refers_to. intros H.
  apply andb_true_iff in H as (H & _).
  now rewrite (truthy_key_eqb _ _ H), (key_eqb_right _ _ q H).
Qed.

Lemma existsb_pair_known (q : json) (x : json * json)
  (s : list (json * json)) :
  existsb (pair_eqb x) s = true ->
  existsb (pair_refers_to q) s
  = (existsb (pair_refers_to q) s || pair_refers_to q x)%bool.
Proof.
  intros H. apply existsb_exists in H as (y & Hy & Hxy).
  destruct (pair_refers_to q x) eqn:Hx; [|now rewrite orb_false_r].
  rewrite orb_true_r. apply existsb_exists. exists y. split; [exact Hy|].
  now rewrite <- (pair_refers_to_eqb q x y Hxy).
Qed.

(** A step of the second loop of the second script adds the pair the
    feed refers to. *)
Lemma FS_collect_feed_mem (q : json) (s : list (json * json))
  (feed : json) (s' : list (json * json)) :
  FS.collect_feed s feed = Ok s' ->
  existsb (pair_refers_to q) s'
  = (existsb (pair_refers_to q) s || refers_to q feed)%bool.
Proof.
  unfold FS.collect_feed, refers_to, album_reference. intros H.
  apply bind_ok in H as (pd & -> & H). cbn [bind].
  apply bind_ok in H as (has & -> & H). cbn [bind].
  destruct has; [|injection H as <-; now rewrite orb_false_r].
  apply bind_ok in H as (album & -> & H). cbn [bind].
  apply bind_ok in H as (pi & -> & H). cbn [bind].
  apply bind_ok in H as (medium & -> & H). cbn [bind].
  destruct (eq_str medium "publisher");
    [|injection H as <-; now rewrite orb_false_r].
  apply bind_ok in H as (g & -> & H). cbn [bind].
  apply bind_ok in H as (url & -> & H). cbn [bind].
  unfold set_add in H. apply bind_ok in H as (? & _ & H).
  apply bind_ok in H as (? & _ & H). injection H as <-.
  change (truthy g && key_eqb g q)%bool with (pair_refers_to q (g, url)).
  destruct (existsb (pair_eqb (g, url)) s) eqn:Hknown.
  - now apply existsb_pair_known.
  - rewrite existsb_app. simpl. now rewrite orb_false_r.
Qed.

Lemma existsb_perm {A} (f : A -> bool) (l l' : list A) :
  Permutation l l' -> existsb f l = existsb f l'.
Proof.
  induction 1; simpl; try congruence.
  - now rewrite !orb_assoc, (orb_comm (f y)).
Qed.

Lemma non_dict_feed_fails {V} (primary_feed : dict V -> json -> result (dict V))
  (f : json) (rest : list json) (p : dict V) :
  (forall publishers feed,
      (forall kvs, feed <> JObj kvs) ->
      primary_feed publishers feed = Raise AttributeError) ->
  (forall kvs, f <> JObj kvs) ->
  for_each primary_feed (f :: rest) [] <> Ok p.
Proof.
  intros Hfail Hf. cbn [for_each]. rewrite (Hfail [] f Hf). discriminate.
Qed.

Lemma EP_primary_feed_non_dict (publishers : dict EP.info) (feed : json) :
  (forall kvs, feed <> JObj kvs) ->
  EP.primary_feed publishers feed = Raise AttributeError.
Proof.
  intros H. destruct feed; try reflexivity. now destruct (H fields).
Qed.

Lemma FS_primary_feed_non_dict (publishers : dict FS.info) (feed : json) :
  (forall kvs, feed <> JObj kvs) ->
  FS.primary_feed publishers feed = Raise AttributeError.
Proof.
  intros H. destruct feed; try reflexivity. now destruct (H fields).
Qed.

(** The first script's final map holds a GUID exactly when the primary
    scan stored it or a feed refers to it. *)
Lemma EP_membership (data : json) (publishers : dict EP.info)
  (references : dict EP.reference) :
  EP.extract_publishers data = Ok (publishers, references) ->
  exists primary,
    EP.primary_scan data = Ok primary /\
    forall q, dict_mem q publishers
              = (dict_mem q primary
                 || existsb (refers_to q) (feeds_of data))%bool.
Proof.
  intros H. unfold EP.extract_publishers in H.
  apply bind_ok in H as (primary & Hprimary & H).
  exists primary. split; [exact Hprimary|]. intros q.
  apply bind_ok in H as (feeds_v & Hv & H).
  apply bind_ok in H as (feeds & Hiter & H).
  unfold EP.primary_scan in Hprimary. rewrite Hv in Hprimary.
  cbn [bind] in Hprimary. rewrite Hiter in Hprimary. cbn [bind] in Hprimary.
  destruct (iterated_feeds data feeds_v feeds Hv Hiter)
    as [(f & rest & -> & Hf)|<-].
  { now destruct (non_dict_feed_fails EP.primary_feed f rest primary
                    EP_primary_feed_non_dict Hf). }
  exact (for_each_mem (fun st => dict_mem q (fst st)) (refers_to q)
           EP.reference_feed (EP_reference_feed_mem q) feeds
           (primary, []) (publishers, references) H).
Qed.

(** So does the second script's, in whatever order the set is met, as
    long as every element is met. *)
Lemma FS_membership (set_order : list (json * json) -> list (json * json))
  (data : json) (publishers : dict FS.info) :
  (forall l, Permutation (set_order l) l) ->
  FS.extract_all_publishers set_order data = Ok publishers ->
  exists primary,
    FS.primary_scan data = Ok primary /\
    forall q, dict_mem q publishers
              = (dict_mem q primary
                 || existsb (refers_to q) (feeds_of data))%bool.
Proof.
  intros Hperm H. unfold FS.extract_all_publishers in H.
  apply bind_ok in H as (primary & Hprimary & H).
  exists primary. split; [exact Hprimary|]. intros q.
  apply bind_ok in H as (refs & Hrefs & H).
  unfold FS.primary_scan in Hprimary. unfold FS.collect_references in Hrefs.
  apply bind_ok in Hrefs as (feeds_v & Hv & Hrefs).
  apply bind_ok in Hrefs as (feeds & Hiter & Hrefs).
  rewrite Hv in Hprimary. cbn [bind] in Hprimary.
  rewrite Hiter in Hprimary. cbn [bind] in Hprimary.
  destruct (iterated_feeds data feeds_v feeds Hv Hiter)
    as [(f & rest & -> & Hf)|<-].
  { now destruct (non_dict_feed_fails FS.primary_feed f rest primary
                    FS_primary_feed_non_dict Hf). }
  rewrite (for_each_mem (dict_mem q) (pair_refers_to q)
             FS.missing_publisher (FS_missing_publisher_mem q)
             _ _ _ H).
  rewrite (existsb_perm _ _ _ (Hperm refs)).
  now rewrite (for_each_mem (existsb (pair_refers_to q)) (refers_to q)
                 FS.collect_feed (FS_collect_feed_mem q) _ _ _ Hrefs).
Qed.

End Membership.

(** X1: when extraction returns, the final map of either script holds a
    GUID exactly when the primary scan stored it or some feed's album
    refers to it with medium "publisher" and a true [feedGuid]: every
    referenced publisher gets an entry, and nothing else does. *)
Theorem final_map_membership (data : json) :
  (forall publishers references,
      EP.extract_publishers data = Ok (publishers, references) ->
      exists primary,
        EP.primary_scan data = Ok primary /\
        forall q, Py.dict_mem q publishers
                  = (Py.dict_mem q primary
                     || existsb (refers_to q) (feeds_of data))%bool) /\
  (forall set_order publishers,
      (forall l, Permutation (set_order l) l) ->
      FS.extract_all_publishers set_order data = Ok publishers ->
      exists primary,
        FS.primary_scan data = Ok primary /\
        forall q, Py.dict_mem q publishers
                  = (Py.dict_mem q primary
                     || existsb (refers_to q) (feeds_of data))%bool).
Proof.
  split.
  - intros publishers references. apply EP_membership.
  - intros set_order publishers. apply FS_membership.
Qed.

Lemma final_map_membership_witness :
  let data := document [wavlake_feed; album_feed] in
  exists publishers references,
    EP.extract_publishers data = Ok (publishers, references) /\
    refers_to (JStr "xyz") album_feed = true /\
    Py.dict_mem (JStr "xyz") publishers = true /\
    Py.dict_mem (JStr "other") publishers = false.
Proof.
  cbv zeta.
  destruct (final_map_membership (document [wavlake_feed; album_feed]))
    as (HE & _).
  eexists. eexists. split; [reflexivity|]. split; [reflexivity|].
  match goal with
  | |- Py.dict_mem _ ?p = _ /\ _ =>
      destruct (HE p _ eq_refl) as (primary & Hprimary & Hmem)
  end.
  injection Hprimary as <-.
  split; rewrite Hmem; reflexivity.
Defined.

(** X2: the order in which the second script iterates its set changes
    neither the entries of the primary scan, which every final map starts
    with, nor which GUIDs the final map holds. *)
Theorem membership_independent_of_set_order
  (o1 o2 : list (json * json) -> list (json * json)) (data : json)
  (p1 p2 : Py.dict FS.info) :
  (forall l, Permutation (o1 l) l) ->
  (forall l, Permutation (o2 l) l) ->
  FS.extract_all_publishers o1 data = Ok p1 ->
  FS.extract_all_publishers o2 data = Ok p2 ->
  (exists primary a1 a2,
      FS.primary_scan data = Ok primary /\
      p1 = primary ++ a1 /\ p2 = primary ++ a2) /\
  forall q, Py.dict_mem q p1 = Py.dict_mem q p2.
Proof.
  intros Ho1 Ho2 H1 H2. split.
  - destruct (FS_extract_extends o1 data p1 H1)
      as (primary & Hp & a1 & -> & _).
    destruct (FS_extract_extends o2 data p2 H2)
      as (primary' & Hp' & a2 & -> & _).
    rewrite Hp in Hp'. injection Hp' as <-.
    exists primary, a1, a2. repeat split. exact Hp.
  - intros q.
    destruct (FS_membership o1 data p1 Ho1 H1) as (primary & Hp & ->).
    destruct (FS_membership o2 data p2 Ho2 H2) as (primary' & Hp' & ->).
    rewrite Hp in Hp'. injection Hp' as <-. reflexivity.
Qed.

Lemma membership_independent_of_set_order_witness :
  let data := document [album_feed_of "a" ""; album_feed_of "b" ""] in
  exists p1 p2,
    FS.extract_all_publishers (fun refs => refs) data = Ok p1 /\
    FS.extract_all_publishers (@rev (json * json)) data = Ok p2 /\
    p1 <> p2 /\
    forall q, Py.dict_mem q p1 = Py.dict_mem q p2.
Proof.
  cbv zeta. eexists. eexists.
  split; [reflexivity|]. split; [reflexivity|]. split; [discriminate|].
  apply (membership_independent_of_set_order
           (fun refs => refs) (@rev (json * json))
           (document [album_feed_of "a" ""; album_feed_of "b" ""]));
    [intros l; apply Permutation_refl
    |intros l; symmetry; apply Permutation_rev
    |reflexivity | reflexivity].
Defined.

(** ** The two scripts side by side *)

Section Siblings.
Import Py.

Lemma contains_kind (n m : string) (v : json) (b : bool) :
  contains n v = Ok b -> exists b', contains m v = Ok b'.
Proof. destruct v; simpl; try discriminate; eauto. Qed.

Lemma feed_guid_of_agree (u : json) :
  contains "re.podtards.com" u <> Ok true ->
  FS.feed_guid_of u = EP.feed_guid_of u.
Proof.
  intros Hpod. unfold FS.feed_guid_of, EP.feed_guid_of.
  destruct (contains "wavlake.com/feed/artist/" u) as [[|]| |] eqn:Hw;
    cbn [bind]; try reflexivity.
  destruct (contains "zine.bitpunk.fm/feeds/publisher.xml" u)
    as [[|]| |] eqn:Hb; cbn [bind]; try reflexivity.
  destruct (contains_kind _ "re.podtards.com" u _ Hb) as ([|] & Hp);
    [contradiction|].
  rewrite Hp. reflexivity.
Qed.

Lemma dict_map_set {V W} (f : V -> W) (k : json) (v : V) (d : dict V) :
  dict_map f (dict_set k v d) = dict_set k (f v) (dict_map f d).
Proof.
  unfold dict_map. induction d as [|[k0 v0] d IH]; [reflexivity|].
  cbn [dict_set map fst snd]. destruct (key_eqb k0 k); cbn [map fst snd].
  - reflexivity.
  - now rewrite IH.
Qed.

Lemma EP_publisher_entry_core (kvs : list (string * json)) (k : json)
  (e : EP.info) :
  EP.publisher_entry (JObj kvs) = Ok (k, e) ->
  EP.feed_guid_of (field kvs "originalUrl" (JStr "")) = Ok k /\
  EP_core e = (k, field kvs "originalUrl" (JStr ""),
               field kvs "title" (JStr ""), field kvs "id" (JStr "")).
Proof.
  unfold EP.publisher_entry, get. cbn [bind]. intros H.
  apply bind_ok in H as (g & Hg & H). injection H as <- <-. auto.
Qed.

Lemma FS_publisher_entry_core (kvs : list (string * json)) (k : json)
  (e : FS.info) :
  FS.publisher_entry (JObj kvs) = Ok (k, e) ->
  FS.feed_guid_of (field kvs "originalUrl" (JStr "")) = Ok k /\
  FS_core e = (k, field kvs "originalUrl" (JStr ""),
               field kvs "title" (JStr ""), field kvs "id" (JStr "")).
Proof.
  unfold FS.publisher_entry, get. cbn [bind]. intros H.
  apply bind_ok in H as (g & Hg & H).
  apply bind_ok in H as (pi & _ & H). cbn [bind] in H.
  do 3 (apply bind_ok in H as (? & _ & H)).
  injection H as <- <-. auto.
Qed.

Lemma primary_scans_agree (feeds : list json) :
  Forall no_podtards feeds ->
  forall (a1 p1 : dict EP.info) (a2 p2 : dict FS.info),
    dict_map EP_core a1 = dict_map FS_core a2 ->
    for_each EP.primary_feed feeds a1 = Ok p1 ->
    for_each FS.primary_feed feeds a2 = Ok p2 ->
    dict_map EP_core p1 = dict_map FS_core p2.
Proof.
  induction 1 as [|feed feeds Hfeed _ IH]; intros a1 p1 a2 p2 Ha H1 H2.
  - injection H1 as <-. injection H2 as <-. exact Ha.
  - cbn [for_each] in H1, H2.
    apply bind_ok in H1 as (b1 & Hs1 & H1).
    apply bind_ok in H2 as (b2 & Hs2 & H2).
    apply (IH b1 p1 b2 p2); [|exact H1 | exact H2].
    destruct (primary_feed_cases EP.publisher_entry EP.primary_feed
                (fun _ _ => eq_refl) EP_entry_hash _ _ _ Hs1)
      as [(Hn1 & ->)|(Hp1 & k1 & e1 & He1 & ->)];
      destruct (primary_feed_cases FS.publisher_entry FS.primary_feed
                  (fun _ _ => eq_refl) FS_entry_hash _ _ _ Hs2)
      as [(Hn2 & ->)|(Hp2 & k2 & e2 & He2 & ->)]; try congruence.
    destruct feed as [| | | | |kvs]; try discriminate.
    apply EP_publisher_entry_core in He1 as (Hg1 & Hc1).
    apply FS_publisher_entry_core in He2 as (Hg2 & Hc2).
    rewrite (feed_guid_of_agree _ (Hfeed kvs eq_refl Hp1)), Hg1 in Hg2.
    injection Hg2 as <-.
    rewrite !dict_map_set, Ha, Hc1, Hc2. reflexivity.
Qed.

End Siblings.

(** X3: the two scripts resolve every URL to the same GUID, and fail on
    it alike, unless the first finds no rule and the second applies its
    third one: then the first gives null and the second
    "doerfels-publisher-special". *)
Theorem guid_rules_differ_on_third_rule_only (u : json) :
  FS.feed_guid_of u = EP.feed_guid_of u \/
  (Py.contains "re.podtards.com" u = Ok true /\
   EP.feed_guid_of u = Ok JNull /\
   FS.feed_guid_of u = Ok (JStr "doerfels-publisher-special")).
Proof.
  destruct (Py.contains "re.podtards.com" u) as [[|]| |] eqn:Hp.
  - unfold FS.feed_guid_of, EP.feed_guid_of.
    destruct (Py.contains "wavlake.com/feed/artist/" u) as [[|]| |];
      cbn [bind]; auto.
    destruct (Py.contains "zine.bitpunk.fm/feeds/publisher.xml" u)
      as [[|]| |]; cbn [bind]; auto.
    rewrite Hp. cbn [bind]. right. auto.
  - left. apply feed_guid_of_agree. rewrite Hp. discriminate.
  - left. apply feed_guid_of_agree. rewrite Hp. discriminate.
  - left. apply feed_guid_of_agree. rewrite Hp. discriminate.
Qed.

(** X4: on a document in which the third rule fires on no publisher
    feed, the primary scans of the two scripts, when both return, build
    maps with the same keys in the same order and the same GUID, URL,
    title and id under each. *)
Theorem primary_maps_agree (data : json) (p1 : Py.dict EP.info)
  (p2 : Py.dict FS.info) :
  Forall no_podtards (feeds_of data) ->
  EP.primary_scan data = Ok p1 ->
  FS.primary_scan data = Ok p2 ->
  dict_map EP_core p1 = dict_map FS_core p2.
Proof.
  intros Hno H1 H2. unfold EP.primary_scan in H1. unfold FS.primary_scan in H2.
  apply bind_ok in H1 as (v & Hv & H1).
  apply bind_ok in H1 as (feeds & Hi & H1).
  rewrite Hv in H2. cbn [bind] in H2. rewrite Hi in H2. cbn [bind] in H2.
  destruct (iterated_feeds data v feeds Hv Hi) as [(f & rest & Hfr & Hf)|Hfeeds];
    subst feeds.
  { now destruct (non_dict_feed_fails EP.primary_feed f rest p1
                    EP_primary_feed_non_dict Hf). }
  exact (primary_scans_agree (feeds_of data) Hno [] p1 [] p2 eq_refl H1 H2).
Qed.

Lemma primary_maps_agree_witness :
  let unmatched := JObj [("type", JStr "publisher");
                         ("originalUrl", JStr "https://example.com/feed");
                         ("title", JStr "Nameless"); ("id", JStr "7")] in
  let data := document [wavlake_feed; unmatched; album_feed] in
  Forall no_podtards (feeds_of data) /\
  exists p1 p2,
    EP.primary_scan data = Ok p1 /\ FS.primary_scan data = Ok p2 /\
    dict_map EP_core p1 = dict_map FS_core p2.
Proof.
  cbv zeta.
  assert (Hno : Forall no_podtards
                  (feeds_of
                     (document
                        [wavlake_feed;
                         JObj [("type", JStr "publisher");
                               ("originalUrl", JStr "https://example.com/feed");
                               ("title", JStr "Nameless"); ("id", JStr "7")];
                         album_feed]))).
  { repeat constructor; intros kvs E Hpub; injection E as <-;
      vm_compute; discriminate. }
  split; [exact Hno|]. eexists. eexists.
  split; [reflexivity|]. split; [reflexivity|].
  exact (primary_maps_agree _ _ _ Hno eq_refl eq_refl).
Defined.

(** ** The references of the first script *)

Section References.
Import Py.

Lemma dict_mem_keys {V W} (k : json) (d : dict V) (d' : dict W) :
  map fst d = map fst d' -> dict_mem k d = dict_mem k d'.
Proof.
  unfold dict_mem. revert d'.
  induction d as [|[k0 v0] d IH]; intros [|[k1 v1] d'] H; try discriminate;
    [reflexivity|].
  simpl in *. injection H as -> H. destruct (key_eqb k1 k); auto.
Qed.

Lemma Forall2_keys (added : dict EP.info) (refs : dict EP.reference) :
  Forall2 reference_of added refs -> map fst refs = map fst added.
Proof.
  induction 1 as [|e r added refs (Hk & _) _ IH]; [reflexivity|].
  simpl. now rewrite Hk, IH.
Qed.

(** A step of the second loop appends to both maps, or to neither. *)
Lemma EP_reference_feed_both (publishers : dict EP.info)
  (references : dict EP.reference) (feed : json)
  (st' : dict EP.info * dict EP.reference) :
  EP.reference_feed (publishers, references) feed = Ok st' ->
  st' = (publishers, references) \/
  exists k e r,
    dict_mem k publishers = false /\ reference_of (k, e) (k, r) /\
    st' = (dict_set k e publishers, dict_set k r references).
Proof.
  unfold EP.reference_feed. intros H.
  apply bind_ok in H as (pd & _ & H).
  apply bind_ok in H as ([|] & _ & H); [|injection H as <-; now left].
  apply bind_ok in H as (album & _ & H).
  apply bind_ok in H as (pi & _ & H).
  apply bind_ok in H as (medium & _ & H).
  destruct (eq_str medium "publisher"); [|injection H as <-; now left].
  apply bind_ok in H as (k & _ & H).
  destruct (truthy k) eqn:Hk; [|injection H as <-; now left].
  apply bind_ok in H as (known & Hknown & H).
  apply dict_contains_ok in Hknown as (Hhash & ->).
  destruct (dict_mem k publishers) eqn:Hmem; [injection H as <-; now left|].
  apply bind_ok in H as (artist_name & _ & H).
  apply bind_ok in H as (ref_url & _ & H).
  apply bind_ok in H as (ref_title & Htitle & H).
  apply bind_ok in H as (g & Hg & H).
  apply bind_ok in H as (publishers' & Hstore & H).
  apply dict_store_ok in Hstore as (_ & ->).
  apply bind_ok in H as (feed_title & _ & H).
  apply bind_ok in H as (references' & Hstore & H).
  apply dict_store_ok in Hstore as (_ & ->).
  injection H as <-. right.
  refine (ex_intro _ k (ex_intro _ _ (ex_intro _ _
            (conj Hmem (conj _ eq_refl))))).
  split; [reflexivity | exact Htitle].
Qed.

Lemma EP_references_mirror (primary : dict EP.info) (feeds : list json)
  (publishers : dict EP.info) (references : dict EP.reference) :
  for_each EP.reference_feed feeds (primary, []) = Ok (publishers, references) ->
  exists added,
    publishers = primary ++ added /\ Forall2 reference_of added references.
Proof.
  intros H.
  change (exists added,
             fst (publishers, references) = primary ++ added /\
             Forall2 reference_of added (snd (publishers, references))).
  revert H.
  apply (for_each_invariant
           (fun st => exists added,
                fst st = primary ++ added /\
                Forall2 reference_of added (snd st))).
  - intros [p r] feed st' (added & Hp & Hr) Hstep. cbn [fst snd] in *.
    apply EP_reference_feed_both in Hstep
        as [->|(k & e & r' & Hmem & Href & ->)]; [eauto|].
    cbn [fst snd]. exists (added ++ [(k, e)]).
    rewrite (dict_set_absent _ _ _ Hmem), Hp, app_assoc.
    split; [reflexivity|].
    assert (Hmem' : dict_mem k r = false).
    { rewrite (dict_mem_keys k r added (Forall2_keys _ _ Hr)).
      rewrite Hp, dict_mem_app in Hmem.
      now apply orb_false_iff in Hmem. }
    rewrite (dict_set_absent _ _ _ Hmem').
    apply Forall2_app; [exact Hr|]. constructor; [exact Href | constructor].
  - exists []. rewrite app_nil_r. split; [reflexivity | constructor].
Qed.

End References.

(** X5: in the first script [publisher_references] mirrors the entries
    the reference scan synthesizes: one reference per synthesized entry,
    under the same key and in the same order, none for an entry of the
    primary scan, and the synthesized title is the one made from the
    artist the reference records. *)
Theorem references_mirror_synthesized (data : json)
  (publishers : Py.dict EP.info) (references : Py.dict EP.reference) :
  EP.extract_publishers data = Ok (publishers, references) ->
  exists primary added,
    EP.primary_scan data = Ok primary /\
    publishers = primary ++ added /\
    Forall2 reference_of added references /\
    map fst references = map fst added /\
    forall k, Py.dict_mem k references = Py.dict_mem k added.
Proof.
  intros H. unfold EP.extract_publishers in H.
  apply bind_ok in H as (primary & Hprimary & H).
  apply bind_ok in H as (feeds_v & _ & H).
  apply bind_ok in H as (feeds & _ & H).
  destruct (EP_references_mirror primary feeds publishers references H)
    as (added & Hp & Hr).
  exists primary, added. repeat split; auto.
  - now apply Forall2_keys.
  - intros k. apply dict_mem_keys. now apply Forall2_keys.
Qed.

Lemma references_mirror_synthesized_witness :
  let data := document [wavlake_feed; album_feed] in
  exists publishers references primary added,
    EP.extract_publishers data = Ok (publishers, references) /\
    publishers = primary ++ added /\
    map fst references = [JStr "xyz"] /\
    map fst references = map fst added.
Proof.
  cbv zeta.
  destruct (references_mirror_synthesized
              (document [wavlake_feed; album_feed]) _ _ eq_refl)
    as (primary & added & _ & Hp & _ & Hk & _).
  eexists. eexists. exists primary, added.
  split; [reflexivity|]. split; [exact Hp|]. split; [reflexivity | exact Hk].
Defined.

(** ** The mappings as a whole *)

Section MappingRows.
Import Py.

Variable str_lower : string -> string.

Lemma key_eqb_refl_of (a b : json) : key_eqb a b = true -> key_eqb b b = true.
Proof.
  intros H. apply key_eqb_trans with a; [|exact H].
  now rewrite key_eqb_sym.
Qed.

Lemma entries_under_in {V} (k : json) (v : V) (d : dict V) :
  In (k, v) d -> key_eqb k k = true -> 1 <= entries_under k d.
Proof.
  unfold entries_under. intros Hin Hk.
  induction d as [|[k0 v0] d IH]; [destruct Hin|].
  cbn [filter fst]. destruct Hin as [E|Hin].
  - injection E as -> ->. rewrite Hk. simpl. lia.
  - destruct (key_eqb k0 k); simpl; [lia | auto].
Qed.

Lemma name_from_url_named (g url v : json) :
  FS.name_from_url str_lower g url = Ok v ->
  exists name, v = JStr name /\ name <> "" /\ name <> "Unknown Publisher".
Proof.
  unfold FS.name_from_url. intros H.
  apply bind_ok in H as ([|] & _ & H).
  - apply bind_ok in H as (g8 & _ & H). apply bind_ok in H as (s & _ & H).
    injection H as <-. eexists. split; [reflexivity|]. split; discriminate.
  - apply bind_ok in H as ([|] & _ & H).
    + injection H as <-. eexists. split; [reflexivity|]. split; discriminate.
    + apply bind_ok in H as (low & _ & H).
      destruct (str_in "doerfel" low).
      * injection H as <-. eexists. split; [reflexivity|]. split; discriminate.
      * apply bind_ok in H as (g8 & _ & H). apply bind_ok in H as (s & _ & H).
        injection H as <-. eexists. split; [reflexivity|]. split; discriminate.
Qed.

(** The display name is never empty and never the placeholder. *)
Lemma display_name_named (g : json) (inf : FS.info) (v : json) :
  FS.display_name_of str_lower g inf = Ok v ->
  truthy v = true /\ eq_str v "Unknown Publisher" = false.
Proof.
  unfold FS.display_name_of.
  destruct (negb _ || _)%bool eqn:Hcond.
  - intros H. apply name_from_url_named in H as (name & -> & Hne & Hup).
    simpl. split.
    + apply String.eqb_neq in Hne. now rewrite Hne.
    + now apply String.eqb_neq.
  - intros H. injection H as <-.
    apply orb_false_iff in Hcond as (Ht & Hup).
    apply negb_false_iff in Ht. auto.
Qed.

Lemma FS_map_publisher_row (mappings mappings' : dict FS.mapping)
  (k : json) (inf : FS.info) :
  FS.map_publisher str_lower mappings (k, inf) = Ok mappings' ->
  (FS.valid_guid k = false /\ mappings' = mappings) \/
  (FS.valid_guid k = true /\
   exists m, named_mapping str_lower (k, m) /\
             mappings' = dict_set k m mappings).
Proof.
  unfold FS.map_publisher. destruct (FS.valid_guid k).
  - intros H. apply bind_ok in H as (n & Hn & H).
    apply bind_ok in H as (sl & Hsl & H).
    apply dict_store_ok in H as (_ & ->). right. split; [reflexivity|].
    eexists. split; [|reflexivity].
    apply display_name_named in Hn as (Htrue & Hup).
    destruct n as [| | |name| |]; try discriminate Hsl.
    unfold FS.url_safe_of in Hsl. cbn [lower bind] in Hsl.
    injection Hsl as <-.
    split; [reflexivity|]. exists name. eexists. cbn [snd FS.displayName FS.urlSlug].
    split; [reflexivity|]. simpl in Htrue, Hup.
    split; [intros ->; discriminate|].
    split; [now apply String.eqb_neq|]. split; reflexivity.
  - intros H. injection H as <-. now left.
Qed.

Lemma named_mapping_set (k : json) (m : FS.mapping) (d : dict FS.mapping) :
  dict_mem k d = false -> named_mapping str_lower (k, m) ->
  Forall (named_mapping str_lower) d ->
  Forall (named_mapping str_lower) (dict_set k m d).
Proof.
  intros Hmem Hm Hd. rewrite (dict_set_absent _ _ _ Hmem).
  apply Forall_app. split; [exact Hd|]. constructor; [exact Hm | constructor].
Qed.

(** From a map whose keys are pairwise different the loop makes one row
    for each valid key, in the order of the map. *)
Lemma FS_create_rows (l : dict FS.info) :
  (forall q, entries_under q l <= 1) ->
  forall m0 m,
    (forall k v, In (k, v) l -> dict_mem k m0 = false) ->
    for_each (FS.map_publisher str_lower) l m0 = Ok m ->
    exists rows,
      m = m0 ++ rows /\ map fst rows = FS.valid_publishers l /\
      Forall (named_mapping str_lower) rows.
Proof.
  induction l as [|[k inf] l IH]; intros Huniq m0 m Hfresh H.
  - injection H as <-. exists []. rewrite app_nil_r. repeat split; constructor.
  - cbn [for_each] in H. apply bind_ok in H as (m1 & Hstep & H).
    assert (Huniq' : forall q, entries_under q l <= 1).
    { intros q. specialize (Huniq q). unfold entries_under in *.
      cbn [filter fst] in Huniq. destruct (key_eqb k q); simpl in Huniq; lia. }
    assert (Hdiff : forall k' v, In (k', v) l -> key_eqb k k' = false).
    { intros k' v Hin. destruct (key_eqb k k') eqn:E; [|reflexivity].
      pose proof (entries_under_in k' v l Hin (key_eqb_refl_of _ _ E)).
      specialize (Huniq k'). unfold entries_under in *.
      cbn [filter fst] in Huniq. rewrite E in Huniq. simpl in Huniq. lia. }
    unfold FS.valid_publishers. cbn [map fst filter].
    apply FS_map_publisher_row in Hstep
        as [(Hv & ->)|(Hv & mp & Hnamed & ->)]; rewrite Hv.
    + apply (IH Huniq' m0 m); [|exact H].
      intros k' v Hin. apply (Hfresh k' v). now right.
    + assert (Hk : dict_mem k m0 = false) by (apply (Hfresh k inf); now left).
      rewrite (dict_set_absent _ _ _ Hk) in H.
      destruct (IH Huniq' (m0 ++ [(k, mp)]) m) as (rows & -> & Hkeys & Hrows);
        [|exact H|].
      { intros k' v Hin. rewrite dict_mem_app.
        rewrite (Hfresh k' v (or_intror Hin)). unfold dict_mem. simpl.
        now rewrite (Hdiff k' v Hin). }
      exists ((k, mp) :: rows). rewrite <- app_assoc. split; [reflexivity|].
      split; [simpl; now rewrite Hkeys|]. now constructor.
Qed.

End MappingRows.

(** X6: in a run of the second script the mappings hold one row for each
    publisher with a valid GUID, in the order of the publisher map, so the
    number printed as "Total unique publishers" is the number of rows of
    the second section; each row records its own GUID, a display name
    that is a string, not empty and not "Unknown Publisher", and the slug
    of that name. *)
Theorem mappings_match_valid_publishers (str_lower : string -> string)
  (set_order : list (json * json) -> list (json * json)) (data : json)
  (publishers : Py.dict FS.info) (mappings : Py.dict FS.mapping) :
  FS.extract_all_publishers set_order data = Ok publishers ->
  FS.create_human_readable_mappings str_lower publishers = Ok mappings ->
  map fst mappings = FS.valid_publishers publishers /\
  List.length mappings = List.length (FS.valid_publishers publishers) /\
  Forall (named_mapping str_lower) mappings.
Proof.
  intros Hrun Hcreate.
  destruct (FS_extract_extends set_order data publishers Hrun)
    as (primary & _ & added & _ & Huniq & _).
  destruct (FS_create_rows str_lower publishers Huniq [] mappings
              (fun _ _ _ => eq_refl) Hcreate) as (rows & -> & Hkeys & Hrows).
  cbn [app]. repeat split; auto.
  now rewrite <- Hkeys, length_map.
Qed.

Lemma mappings_match_valid_publishers_witness :
  let unmatched := JObj [("type", JStr "publisher");
                         ("originalUrl", JStr "https://example.com/feed")] in
  let data := document [unmatched; wavlake_feed; album_feed] in
  exists publishers mappings,
    FS.extract_all_publishers (fun refs => refs) data = Ok publishers /\
    FS.create_human_readable_mappings Py.ascii_lower publishers
    = Ok mappings /\
    List.length publishers = 3 /\
    map fst mappings = [JStr "abc123"; JStr "xyz"] /\
    map fst mappings = FS.valid_publishers publishers.
Proof.
  cbv zeta. eexists. eexists.
  split; [reflexivity|]. split; [reflexivity|]. split; [reflexivity|].
  split; [reflexivity|].
  exact (proj1 (mappings_match_valid_publishers Py.ascii_lower
                  (fun refs => refs)
                  (document [JObj [("type", JStr "publisher");
                                   ("originalUrl", JStr "https://example.com/feed")];
                             wavlake_feed; album_feed])
                  _ _ eq_refl eq_refl)).
Defined.

(** ** Slugs of slugs *)

Section SlugStable.
Import Py.
Local Open Scope string_scope.

Lemma lower_char_not_upper (c : ascii) : is_upper (lower_char c) = false.
Proof. destruct c as [[] [] [] [] [] [] [] []]; reflexivity. Qed.

Lemma lower_char_idem (c : ascii) : lower_char (lower_char c) = lower_char c.
Proof.
  unfold lower_char at 1. now rewrite lower_char_not_upper.
Qed.

Lemma spec_slug_cons (c : ascii) (name : string) :
  spec_slug (String c name) = strip_char (lower_char c) ++ spec_slug name.
Proof. unfold spec_slug. cbn [spec_lower spec_strip]. now rewrite lower_char_spec. Qed.

Lemma spec_slug_app (a b : string) :
  spec_slug (a ++ b) = spec_slug a ++ spec_slug b.
Proof.
  induction a as [|c a IH]; [reflexivity|].
  cbn [append]. now rewrite !spec_slug_cons, IH, append_assoc.
Qed.

Lemma slug_char_stable (c : ascii) :
  spec_slug (strip_char (lower_char c)) = strip_char (lower_char c).
Proof.
  unfold strip_char.
  destruct (Ascii.eqb (lower_char c) " ") eqn:H1; [reflexivity|].
  destruct (Ascii.eqb (lower_char c) "(") eqn:H2; [reflexivity|].
  destruct (Ascii.eqb (lower_char c) ")") eqn:H3; [reflexivity|].
  destruct (Ascii.eqb (lower_char c) ".") eqn:H4; [reflexivity|].
  cbn [orb]. rewrite spec_slug_cons. unfold strip_char.
  rewrite lower_char_idem, H1, H2, H3, H4. reflexivity.
Qed.

Lemma spec_slug_stable (name : string) :
  spec_slug (spec_slug name) = spec_slug name.
Proof.
  induction name as [|c name IH]; [reflexivity|].
  now rewrite spec_slug_cons, spec_slug_app, slug_char_stable, IH.
Qed.

Lemma strip_char_ascii (c : ascii) :
  is_ascii (strip_char c) = true \/ strip_char c = String c "".
Proof.
  unfold strip_char. destruct (Ascii.eqb c " "); [now left|].
  destruct (_ || _)%bool; [now left | now right].
Qed.

Lemma spec_slug_ascii (name : string) :
  is_ascii name = true -> is_ascii (spec_slug name) = true.
Proof.
  induction name as [|c name IH]; [reflexivity|].
  cbn [is_ascii]. rewrite andb_true_iff. intros (Hc & Hname).
  rewrite spec_slug_cons, is_ascii_app, (IH Hname), andb_true_r.
  destruct (strip_char_ascii (lower_char c)) as [H| ->]; [exact H|].
  cbn [is_ascii]. now rewrite lower_char_ascii, Hc.
Qed.

Lemma length_append (a b : string) :
  String.length (a ++ b) = String.length a + String.length b.
Proof. induction a as [|c a IH]; simpl; [reflexivity | now rewrite IH]. Qed.

Lemma strip_char_length (c : ascii) : String.length (strip_char c) <= 1.
Proof.
  unfold strip_char.
  destruct (Ascii.eqb c " "); [simpl; lia|].
  destruct (_ || _)%bool; simpl; lia.
Qed.

Lemma spec_slug_length (name : string) :
  String.length (spec_slug name) <= String.length name.
Proof.
  induction name as [|c name IH]; [simpl; lia|].
  rewrite spec_slug_cons, length_append. cbn [String.length].
  pose proof (strip_char_length (lower_char c)). lia.
Qed.

Lemma slug_char_no_upper (c x : ascii) :
  is_upper x = true -> has_char x (strip_char (lower_char c)) = false.
Proof.
  intros Hx. unfold strip_char.
  destruct (Ascii.eqb (lower_char c) " ").
  { cbn [has_char]. destruct (Ascii.eqb "-" x) eqn:E; [|reflexivity].
    apply Ascii.eqb_eq in E. subst x. discriminate. }
  destruct (_ || _)%bool; [reflexivity|]. cbn [has_char].
  destruct (Ascii.eqb (lower_char c) x) eqn:E; [|reflexivity].
  apply Ascii.eqb_eq in E. subst x.
  rewrite lower_char_not_upper in Hx. discriminate.
Qed.

Lemma spec_slug_no_upper (name : string) (x : ascii) :
  is_upper x = true -> has_char x (spec_slug name) = false.
Proof.
  intros Hx. induction name as [|c name IH]; [reflexivity|].
  now rewrite spec_slug_cons, has_char_app, slug_char_no_upper, IH.
Qed.

End SlugStable.

(** X7: of a name of ASCII characters, the slug line 97 makes is left as
    it is by line 97, is not longer than the name, and holds no capital
    letter. *)
Theorem slug_is_stable (str_lower : string -> string) (name slug : string) :
  python_lower str_lower ->
  Py.is_ascii name = true ->
  FS.url_safe_of str_lower (JStr name) = Ok (JStr slug) ->
  FS.url_safe_of str_lower (JStr slug) = Ok (JStr slug) /\
  String.length slug <= String.length name /\
  forall x, Py.is_upper x = true -> Py.has_char x slug = false.
Proof.
  intros Hlower Hname.
  rewrite (proj2 (url_safe_ascii str_lower name Hlower Hname)).
  intros H. injection H as <-.
  split; [|split].
  - rewrite (proj2 (url_safe_ascii str_lower _ Hlower
                      (spec_slug_ascii name Hname))).
    now rewrite spec_slug_stable.
  - apply spec_slug_length.
  - intros x. apply spec_slug_no_upper.
Qed.

Lemma slug_is_stable_witness :
  python_lower Py.ascii_lower /\
  Py.is_ascii "Unknown Publisher (Band Y)" = true /\
  FS.url_safe_of Py.ascii_lower (JStr "Unknown Publisher (Band Y)")
  = Ok (JStr "unknown-publisher-band-y") /\
  FS.url_safe_of Py.ascii_lower (JStr "unknown-publisher-band-y")
  = Ok (JStr "unknown-publisher-band-y").
Proof.
  split; [exact ascii_lower_python|]. do 2 (split; [reflexivity|]).
  exact (proj1 (slug_is_stable Py.ascii_lower "Unknown Publisher (Band Y)"
                  "unknown-publisher-band-y" ascii_lower_python
                  eq_refl eq_refl)).
Defined.

(** ** The order of the report *)

Section ReportOrder.
Import Py.

Lemma ltb_irrefl (t : string) : String.ltb t t = false.
Proof.
  destruct (String.ltb t t) eqn:E; [|reflexivity].
  now rewrite (ltb_asym t t E) in E.
Qed.

Section Stable.
Context {A : Type}.
Variable key : A -> json.
Variable skey : A -> string.

Lemma insert_by_equal (t : string) (x : A) (acc : list A) :
  string_keys key skey (x :: acc) ->
  Forall (fun e => skey e = t) (x :: acc) ->
  insert_by key x acc = Ok (acc ++ [x]).
Proof.
  induction acc as [|y acc IH]; intros Hk Ht; [reflexivity|].
  rewrite (insert_by_head key skey x y acc Hk).
  inversion Ht as [|? ? Hx Ht']; subst. inversion Ht' as [|? ? Hy Ht'']; subst.
  rewrite Hy, ltb_irrefl. rewrite IH.
  - reflexivity.
  - inversion Hk as [|? ? Hkx Hk']; subst. inversion Hk'; subst.
    now constructor.
  - now constructor.
Qed.

Lemma sort_loop_equal (t : string) (l acc : list A) :
  string_keys key skey (acc ++ l) ->
  Forall (fun e => skey e = t) (acc ++ l) ->
  for_each (fun acc x => insert_by key x acc) l acc = Ok (acc ++ l).
Proof.
  revert acc. induction l as [|x l IH]; intros acc Hk Ht.
  - now rewrite app_nil_r.
  - cbn [for_each]. rewrite (insert_by_equal t).
    + cbn [bind]. rewrite IH; rewrite <- ?app_assoc; auto.
    + unfold string_keys in *. apply Forall_app in Hk as (Ha & Hl).
      inversion Hl; subst. now constructor.
    + apply Forall_app in Ht as (Ha & Hl). inversion Hl; subst.
      now constructor.
Qed.

(** On string keys [sorted] gives a stable sort. *)
Lemma sorted_by_stable (l : list A) :
  string_keys key skey l ->
  exists items, sorted_by key l = Ok items /\ stably_sorted skey l items.
Proof.
  intros Hk.
  destruct (sort_loop_strings key skey (fun _ => true) l [] Hk
              (SSorted_nil _)) as (items & Hrun & Hperm & Hsorted & _).
  exists items. split; [exact Hrun|]. split; [exact Hperm|].
  split; [exact Hsorted|]. intros t.
  destruct (sort_loop_strings key skey (fun e => String.eqb (skey e) t)
              l [] Hk (SSorted_nil _)) as (items' & Hrun' & _ & _ & Hf).
  unfold sorted_by in Hrun. rewrite Hrun in Hrun'. injection Hrun' as <-.
  cbn [filter] in Hf. unfold with_key.
  rewrite (sort_loop_equal t) in Hf.
  - now injection Hf as <-.
  - cbn [app]. unfold string_keys in *. rewrite Forall_forall in *.
    intros e He. apply filter_In in He as (He & _). auto.
  - cbn [app]. apply Forall_forall. intros e He.
    apply filter_In in He as (_ & He). now apply String.eqb_eq.
Qed.

End Stable.

End ReportOrder.

Lemma dict_set_values {V} (Q : V -> Prop) (k : json) (v : V)
  (d : Py.dict V) :
  Forall (fun e => Q (snd e)) d -> Q v ->
  Forall (fun e => Q (snd e)) (Py.dict_set k v d).
Proof.
  intros Hd Hv. induction d as [|[k0 v0] d IH]; simpl.
  - constructor; [exact Hv | constructor].
  - inversion Hd as [|? ? Hv0 Hd']; subst.
    destruct (Py.key_eqb k0 k); constructor; auto.
Qed.

(** Every mapping line 99 stores has a string as its display name. *)
Lemma FS_create_names (str_lower : string -> string)
  (publishers : Py.dict FS.info) (mappings : Py.dict FS.mapping) :
  FS.create_human_readable_mappings str_lower publishers = Ok mappings ->
  Forall (fun e => is_str (FS.displayName (snd e)) = true) mappings.
Proof.
  unfold FS.create_human_readable_mappings.
  apply (for_each_invariant
           (fun m : Py.dict FS.mapping =>
              Forall (fun e => is_str (FS.displayName (snd e)) = true) m));
    [|constructor].
  intros m [k inf] m' Hm Hstep.
  apply FS_map_publisher_row in Hstep
      as [(_ & ->)|(_ & mp & (_ & name & slug & Hname & _) & ->)];
    [exact Hm|].
  apply (dict_set_values (fun v => is_str (FS.displayName v) = true));
    [exact Hm|].
  cbn [snd] in Hname. now rewrite Hname.
Qed.

(** X8: when the titles are strings, the first script prints the entries
    of the map in the order of their titles, entries with the same title
    in the order of the map, before the total; the second script prints
    its first section in that order too, an entry with an empty title
    under the key "", and its second section in the order of the display
    names, mappings with the same name in the order of the map. *)
Theorem reports_in_title_order :
  (forall publishers references,
      Forall (fun e => is_str (EP.title (snd e)) = true) publishers ->
      exists items,
        stably_sorted EP_title_text publishers items /\
        EP.report publishers references =
        (out <- print "" ("=== UNIQUE PUBLISHER ENTRIES ===" ++ nl) ;;
         out <- for_each (EP.print_entry references) items out ;;
         print out
           (nl ++ "Total unique publishers found: "
               ++ Py.nat_str (List.length (EP.counted_guids publishers))))) /\
  (forall str_lower publishers mappings,
      Forall (fun e => is_str (FS.title (snd e)) = true) publishers ->
      FS.create_human_readable_mappings str_lower publishers = Ok mappings ->
      exists items rows,
        stably_sorted FS_title_text publishers items /\
        stably_sorted FS_name_text mappings rows /\
        FS.report publishers mappings =
        (out <- print "" ("=== ALL UNIQUE PUBLISHERS ===" ++ nl) ;;
         out <- for_each FS.print_entry items out ;;
         out <- print out
                  (nl ++ "Total unique publishers: "
                      ++ Py.nat_str
                           (List.length (FS.valid_publishers publishers))) ;;
         out <- print out
                  (nl ++ "=== HUMAN-READABLE URL MAPPINGS ===" ++ nl) ;;
         for_each FS.print_mapping rows out)).
Proof.
  split.
  - intros publishers references Ht.
    destruct (sorted_by_stable (fun x : json * EP.info => EP.title (snd x))
                EP_title_text publishers (is_str_title_keys _ _ Ht))
      as (items & Hrun & Hsorted).
    exists items. split; [exact Hsorted|].
    unfold EP.report. rewrite Hrun. reflexivity.
  - intros str_lower publishers mappings Ht Hmap.
    destruct (sorted_by_stable FS.title_key FS_title_text publishers
                (FS_title_key_strings _ Ht))
      as (items & Hrun & Hsorted).
    destruct (sorted_by_stable
                (fun x : json * FS.mapping => FS.displayName (snd x))
                FS_name_text mappings
                (is_str_title_keys _ _ (FS_create_names _ _ _ Hmap)))
      as (rows & Hrows & Hsorted').
    exists items, rows. split; [exact Hsorted|]. split; [exact Hsorted'|].
    unfold FS.report. rewrite Hrun, Hrows. reflexivity.
Qed.

Lemma reports_in_title_order_witness :
  let e (t : string) := {| EP.feedGuid := JStr t; EP.feedUrl := JStr "";
                           EP.title := JStr t; EP.id := JStr "";
                           EP.parsedData := JObj [] |} in
  let publishers := [(JStr "1", e "b"); (JStr "2", e "a"); (JStr "3", e "b")] in
  Forall (fun x => is_str (EP.title (snd x)) = true) publishers /\
  exists items,
    stably_sorted EP_title_text publishers items /\
    EP.report publishers [] =
    (out <- print "" ("=== UNIQUE PUBLISHER ENTRIES ===" ++ nl) ;;
     out <- for_each (EP.print_entry []) items out ;;
     print out
       (nl ++ "Total unique publishers found: "
           ++ Py.nat_str (List.length (EP.counted_guids publishers)))).
Proof.
  intros e publishers.
  assert (H : Forall (fun x => is_str (EP.title (snd x)) = true) publishers)
    by (repeat constructor).
  split; [exact H|].
  exact (proj1 reports_in_title_order publishers [] H).
Defined.

(** ** Documents of another shape, and documents without publishers *)

Section Shapes.
Import Py.

Lemma is_object_inv (v : json) :
  is_object v = false -> forall kvs, v <> JObj kvs.
Proof. destruct v; simpl; intros H kvs E; discriminate. Qed.

Lemma inert_inv (feed : json) :
  inert feed -> exists kvs, feed = JObj kvs /\
                            eq_str (field kvs "type" JNull) "publisher" = false.
Proof.
  intros (Hp & Href). destruct feed as [| | | | |kvs]; try discriminate Href.
  exists kvs. split; [reflexivity | exact Hp].
Qed.

Lemma EP_primary_feed_inert (publishers : dict EP.info) (feed : json) :
  inert feed -> EP.primary_feed publishers feed = Ok publishers.
Proof.
  intros H. apply inert_inv in H as (kvs & -> & Hty).
  unfold EP.primary_feed, get. cbn [bind]. now rewrite Hty.
Qed.

Lemma FS_primary_feed_inert (publishers : dict FS.info) (feed : json) :
  inert feed -> FS.primary_feed publishers feed = Ok publishers.
Proof.
  intros H. apply inert_inv in H as (kvs & -> & Hty).
  unfold FS.primary_feed, get. cbn [bind]. now rewrite Hty.
Qed.

Lemma EP_reference_feed_inert (st : dict EP.info * dict EP.reference)
  (feed : json) :
  inert feed -> EP.reference_feed st feed = Ok st.
Proof.
  intros (_ & Href). destruct st as [p r].
  unfold album_reference in Href. unfold EP.reference_feed.
  destruct (get feed "parsedData" (JObj [])) as [pd| |]; try discriminate.
  cbn [bind] in *.
  destruct (contains "album" pd) as [[|]| |]; try discriminate;
    cbn [bind] in *; [|reflexivity].
  destruct (index pd "album") as [album| |]; try discriminate.
  cbn [bind] in *.
  destruct (get album "publisher" (JObj [])) as [pi| |]; try discriminate.
  cbn [bind] in *.
  destruct (get pi "medium" JNull) as [m| |]; try discriminate.
  cbn [bind] in *.
  destruct (eq_str m "publisher"); [|reflexivity].
  destruct (get pi "feedGuid" JNull) as [g| |]; try discriminate.
  cbn [bind] in *.
  destruct (get pi "feedUrl" (JStr "")) as [u| |]; discriminate.
Qed.

Lemma FS_collect_feed_inert (refs : list (json * json)) (feed : json) :
  inert feed -> FS.collect_feed refs feed = Ok refs.
Proof.
  intros (_ & Href).
  unfold album_reference in Href. unfold FS.collect_feed.
  destruct (get feed "parsedData" (JObj [])) as [pd| |]; try discriminate.
  cbn [bind] in *.
  destruct (contains "album" pd) as [[|]| |]; try discriminate;
    cbn [bind] in *; [|reflexivity].
  destruct (index pd "album") as [album| |]; try discriminate.
  cbn [bind] in *.
  destruct (get album "publisher" (JObj [])) as [pi| |]; try discriminate.
  cbn [bind] in *.
  destruct (get pi "medium" JNull) as [m| |]; try discriminate.
  cbn [bind] in *.
  destruct (eq_str m "publisher"); [|reflexivity].
  destruct (get pi "feedGuid" JNull) as [g| |]; try discriminate.
  cbn [bind] in *.
  destruct (get pi "feedUrl" (JStr "")) as [u| |]; discriminate.
Qed.

(** A loop whose every step leaves the state as it is. *)
Lemma for_each_idle {S A} (Q : A -> Prop) (body : S -> A -> result S) :
  (forall s x, Q x -> body s x = Ok s) ->
  forall l s, Forall Q l -> for_each body l s = Ok s.
Proof.
  intros Hstep l s Hl. induction Hl as [|x l Hx Hl IH]; [reflexivity|].
  cbn [for_each]. rewrite (Hstep s x Hx). exact IH.
Qed.

(** A loop stops with the exception of the first step that raises. *)
Lemma for_each_raises {S A} (body : S -> A -> result S)
  (good : list A) (bad : A) (rest : list A) (s s' : S) (e : exn) :
  for_each body good s = Ok s' -> body s' bad = Raise e ->
  for_each body (good ++ bad :: rest) s = Raise e.
Proof.
  intros Hgood Hbad. rewrite for_each_app, Hgood. cbn [bind for_each].
  now rewrite Hbad.
Qed.

End Shapes.

(** X9: on a document whose feeds are dicts of another type than
    "publisher" in which the second loop reads no reference to a
    publisher (no [album], or an [album] whose [publisher] has another
    medium), both scripts find nothing and print the report of no
    publishers: the headings and a total of 0. *)
Theorem inert_feeds_leave_empty_report (str_lower : string -> string)
  (set_order : list (json * json) -> list (json * json))
  (kvs : list (string * json)) (feeds : list json) :
  set_order [] = [] ->
  Py.field kvs "feeds" (JArr []) = JArr feeds ->
  Forall inert feeds ->
  EP.extract_publishers (JObj kvs) = Ok ([], []) /\
  EP.main (JObj kvs) = Ok EP_empty_report /\
  FS.extract_all_publishers set_order (JObj kvs) = Ok [] /\
  FS.main str_lower set_order (JObj kvs) = Ok FS_empty_report.
Proof.
  intros Hset Hfeeds Hinert.
  assert (Hep : EP.extract_publishers (JObj kvs) = Ok ([], [])).
  { unfold EP.extract_publishers, EP.primary_scan, Py.get.
    cbn [bind]. rewrite Hfeeds. cbn [bind Py.iter].
    rewrite (for_each_idle inert EP.primary_feed
               (fun s x H => EP_primary_feed_inert s x H) feeds [] Hinert).
    cbn [bind].
    exact (for_each_idle inert EP.reference_feed
             (fun s x H => EP_reference_feed_inert s x H) feeds ([], [])
             Hinert). }
  assert (Hfs : FS.extract_all_publishers set_order (JObj kvs) = Ok []).
  { unfold FS.extract_all_publishers, FS.primary_scan, FS.collect_references,
      Py.get.
    cbn [bind]. rewrite Hfeeds. cbn [bind Py.iter].
    rewrite (for_each_idle inert FS.primary_feed
               (fun s x H => FS_primary_feed_inert s x H) feeds [] Hinert).
    cbn [bind].
    rewrite (for_each_idle inert FS.collect_feed
               (fun s x H => FS_collect_feed_inert s x H) feeds [] Hinert).
    cbn [bind]. rewrite Hset. reflexivity. }
  split; [exact Hep|]. split; [|split; [exact Hfs|]].
  - unfold EP.main. rewrite Hep. reflexivity.
  - unfold FS.main. rewrite Hfs. reflexivity.
Qed.

Lemma inert_feeds_leave_empty_report_witness :
  let feeds :=
    [JObj [("type", JStr "album"); ("title", JNum 7)];
     JObj [("parsedData",
            JObj [("album",
                   JObj [("publisher", JObj [("medium", JStr "music")])])])]]
  in
  let kvs := [("version", JNum 1); ("feeds", JArr feeds)] in
  (fun l => rev l) [] = @nil (json * json) /\
  Py.field kvs "feeds" (JArr []) = JArr feeds /\
  Forall inert feeds /\
  EP.main (JObj kvs) = Ok EP_empty_report /\
  FS.main Py.ascii_lower (fun l => rev l) (JObj kvs) = Ok FS_empty_report.
Proof.
  intros feeds kvs.
  assert (Hinert : Forall inert feeds) by (repeat constructor).
  do 2 (split; [reflexivity|]). split; [exact Hinert|].
  pose proof (inert_feeds_leave_empty_report Py.ascii_lower
                (fun l => rev l) kvs feeds eq_refl eq_refl Hinert)
    as (_ & Hep & _ & Hfs).
  exact (conj Hep Hfs).
Defined.

(** X10: a document that is no dict ends the extraction of both scripts,
    and so the scripts, with AttributeError at line 11 (line 10 of the
    second script); a [feeds] value that cannot be iterated ends them
    with TypeError; and when the items of [feeds] are feed records of the
    expected types up to an item that is no dict, that item ends the
    first loop, the extraction and the script with AttributeError. *)
Theorem malformed_document_errors (str_lower : string -> string)
  (set_order : list (json * json) -> list (json * json)) :
  (forall data,
      is_object data = false ->
      EP.extract_publishers data = Raise AttributeError /\
      EP.main data = Raise AttributeError /\
      FS.extract_all_publishers set_order data = Raise AttributeError /\
      FS.main str_lower set_order data = Raise AttributeError) /\
  (forall kvs,
      is_iterable (Py.field kvs "feeds" (JArr [])) = false ->
      EP.extract_publishers (JObj kvs) = Raise TypeError /\
      EP.main (JObj kvs) = Raise TypeError /\
      FS.extract_all_publishers set_order (JObj kvs) = Raise TypeError /\
      FS.main str_lower set_order (JObj kvs) = Raise TypeError) /\
  (forall kvs good bad rest,
      Py.iter (Py.field kvs "feeds" (JArr [])) = Ok (good ++ bad :: rest) ->
      Forall (fun f => wf_feed f = true) good ->
      is_object bad = false ->
      EP.primary_scan (JObj kvs) = Raise AttributeError /\
      EP.extract_publishers (JObj kvs) = Raise AttributeError /\
      EP.main (JObj kvs) = Raise AttributeError /\
      FS.primary_scan (JObj kvs) = Raise AttributeError /\
      FS.extract_all_publishers set_order (JObj kvs) = Raise AttributeError /\
      FS.main str_lower set_order (JObj kvs) = Raise AttributeError).
Proof.
  split; [|split].
  - intros data H. destruct data; try discriminate H; repeat split.
  - intros kvs H.
    unfold EP.main, EP.extract_publishers, EP.primary_scan,
      FS.main, FS.extract_all_publishers, FS.primary_scan, Py.get.
    cbn [bind].
    destruct (Py.field kvs "feeds" (JArr [])); try discriminate H;
      repeat split.
  - intros kvs good bad rest Hiter Hgood Hbad.
    pose proof (is_object_inv bad Hbad) as Hdict.
    assert (HE : EP.primary_scan (JObj kvs) = Raise AttributeError).
    { unfold EP.primary_scan, Py.get. cbn [bind]. rewrite Hiter. cbn [bind].
      destruct (for_each_total (typed_dict EP_typed_info)
                  (fun f => wf_feed f = true) EP.primary_feed
                  EP_primary_feed_total good [] Hgood (Forall_nil _))
        as (p & Hp & _).
      exact (for_each_raises EP.primary_feed good bad rest [] p
               AttributeError Hp (EP_primary_feed_non_dict p bad Hdict)). }
    assert (HF : FS.primary_scan (JObj kvs) = Raise AttributeError).
    { unfold FS.primary_scan, Py.get. cbn [bind]. rewrite Hiter. cbn [bind].
      destruct (for_each_total (typed_dict FS_typed_info)
                  (fun f => wf_feed f = true) FS.primary_feed
                  FS_primary_feed_total good [] Hgood (Forall_nil _))
        as (p & Hp & _).
      exact (for_each_raises FS.primary_feed good bad rest [] p
               AttributeError Hp (FS_primary_feed_non_dict p bad Hdict)). }
    unfold EP.main, EP.extract_publishers, FS.main,
      FS.extract_all_publishers.
    rewrite HE, HF. repeat split.
Qed.

Lemma malformed_document_errors_witness :
  let kvs := [("feeds", JArr [wavlake_feed; JStr "album"; album_feed])] in
  is_object (JArr []) = false /\
  is_iterable (Py.field [("feeds", JNum 3)] "feeds" (JArr [])) = false /\
  Py.iter (Py.field kvs "feeds" (JArr []))
  = Ok ([wavlake_feed] ++ JStr "album" :: [album_feed]) /\
  Forall (fun f => wf_feed f = true) [wavlake_feed] /\
  is_object (JStr "album") = false /\
  EP.main (JArr []) = Raise AttributeError /\
  FS.main Py.ascii_lower (fun l => l) (JObj [("feeds", JNum 3)])
  = Raise TypeError /\
  EP.primary_scan (JObj kvs) = Raise AttributeError /\
  FS.main Py.ascii_lower (fun l => l) (JObj kvs) = Raise AttributeError.
Proof.
  intros kvs.
  assert (Hgood : Forall (fun f => wf_feed f = true) [wavlake_feed])
    by (repeat constructor).
  do 3 (split; [reflexivity|]). split; [exact Hgood|].
  split; [reflexivity|].
  pose proof (malformed_document_errors Py.ascii_lower (fun l => l))
    as (H1 & H2 & H3).
  destruct (H1 (JArr []) eq_refl) as (_ & HE1 & _).
  destruct (H2 [("feeds", JNum 3)] eq_refl) as (_ & _ & _ & HF2).
  destruct (H3 kvs [wavlake_feed] (JStr "album") [album_feed] eq_refl Hgood
              eq_refl) as (HE3 & _ & _ & _ & _ & HF3).
  auto.
Defined.

(** ** GUIDs the second script passes over *)

Section Passed.
Import Py.

Lemma eq_str_key_eqb (a b : json) (lit : string) :
  key_eqb a b = true -> eq_str a lit = eq_str b lit.
Proof.
  destruct a as [|ba|za|sa|la|oa], b as [|bb|zb|sb|lb|ob]; simpl;
    try discriminate; try reflexivity.
  intros H. apply String.eqb_eq in H. now subst.
Qed.

(** Lines 78, 116 and 129 give equal keys the same answer. *)
Lemma valid_guid_key_eqb (a b : json) :
  key_eqb a b = true -> FS.valid_guid a = FS.valid_guid b.
Proof.
  intros H. unfold FS.valid_guid.
  now rewrite (truthy_key_eqb a b H), (eq_str_key_eqb a b "None" H).
Qed.

End Passed.

(** X11: a GUID that is false or is the string "None" (a Wavlake URL that
    ends in "/None" resolves to it) is passed over by the second script:
    no mapping is stored under a key equal to it, no counted GUID equals
    it and the first report loop prints nothing for it; the first script
    tests truth alone and counts "None". *)
Theorem invalid_guids_are_passed_over (str_lower : string -> string)
  (publishers : Py.dict FS.info) (mappings : Py.dict FS.mapping) (g : json) :
  FS.valid_guid g = false ->
  FS.create_human_readable_mappings str_lower publishers = Ok mappings ->
  Py.dict_mem g mappings = false /\
  (forall k, In k (FS.valid_publishers publishers) -> Py.key_eqb k g = false) /\
  (forall out inf, FS.print_entry out (g, inf) = Ok out) /\
  FS.valid_guid (JStr "None") = false /\
  FS.feed_guid_of (JStr "https://wavlake.com/feed/artist/None")
  = Ok (JStr "None") /\
  (forall p : Py.dict EP.info,
      In (JStr "None") (map fst p) -> In (JStr "None") (EP.counted_guids p)).
Proof.
  intros Hg Hrun. split; [|split; [|split; [|split; [|split]]]].
  - revert Hrun. unfold FS.create_human_readable_mappings.
    apply (for_each_invariant (fun m => Py.dict_mem g m = false));
      [|reflexivity].
    intros m [k inf] m' Hm Hstep.
    apply FS_map_publisher_row in Hstep as [(_ & ->)|(Hk & mp & _ & ->)];
      [exact Hm|].
    rewrite dict_mem_set, Hm. cbn [orb].
    destruct (Py.key_eqb k g) eqn:E; [|reflexivity].
    rewrite (valid_guid_key_eqb k g E), Hg in Hk. discriminate.
  - intros k Hk. unfold FS.valid_publishers in Hk.
    apply filter_In in Hk as (_ & Hk).
    destruct (Py.key_eqb k g) eqn:E; [|reflexivity].
    rewrite (valid_guid_key_eqb k g E), Hg in Hk. discriminate.
  - intros out inf. unfold FS.print_entry. now rewrite Hg.
  - reflexivity.
  - reflexivity.
  - intros p Hin. unfold EP.counted_guids. apply filter_In. now split.
Qed.

Lemma invalid_guids_are_passed_over_witness :
  let inf (t : string) :=
    {| FS.feedGuid := JStr t; FS.feedUrl := JStr "u"; FS.title := JStr t;
       FS.id := JStr ""; FS.publisherName := JStr ""; FS.artist := JStr "";
       FS.description := JStr ""; FS.status := JStr "";
       FS.priority := JStr "" |} in
  let publishers := [(JStr "None", inf "None"); (JStr "abc", inf "Abc")] in
  FS.valid_guid (JStr "None") = false /\
  (exists mappings,
      FS.create_human_readable_mappings Py.ascii_lower publishers
      = Ok mappings /\
      map fst mappings = [JStr "abc"] /\
      Py.dict_mem (JStr "None") mappings = false).
Proof.
  intros inf publishers. split; [reflexivity|].
  refine (ex_intro _ _ (conj eq_refl (conj eq_refl _))).
  exact (proj1 (invalid_guids_are_passed_over Py.ascii_lower publishers _
                  (JStr "None")
                  eq_refl eq_refl)).
Defined.
